(** * socketio-im-demo: the Socket.IO handler and its Redis service

    A shallow embedding of [internal/handlers] (the [SocketIOHandler] with its
    session registry, the presence events, [handleMessage] and
    [broadcastMessage], the uploads), of [internal/models], of
    [internal/services/redis.go] and of [internal/config].

    Conventions of the embedding.
    - A Go [map] is a [gmap]; a slice is a [list]; [string] is [string].
    - The handler is a record that is passed through every function (the
      receiver [h]).  What the process does to the outside is kept in the same
      record: [emitted] is the sequence of Socket.IO emissions, [logged] the
      sequence of log entries.
    - The transport (package socket.io) is outside the repository.  Of it the
      model keeps, per connected socket, the set of rooms the socket has
      joined: [To(room).Emit] reaches the sockets that joined [room],
      [server.Emit] reaches every connected socket, [client.Emit] reaches the
      client.
    - Redis is outside the repository too.  Of it the model keeps the string
      keys written with SET, the sets written with SADD and the publications.
      Whether the n-th command sent to Redis succeeds is given by [redis_ok];
      the n-th reading of the wall clock is given by [clock].  Expiry of keys
      is real time and is left out.
    - The handlers run one event at a time; goroutine interleaving is not part
      of the model.
    - The events of [step] are the connection, the client events of the
      registry and of the chat, the disconnect and the arrival of a relay
      payload.  [handleFileUpload], the HTTP upload and [internal/config] are
      modelled apart, further down: an upload touches neither the registry
      nor the presence events.  Of the disk the model keeps the calls that
      write a file and whether each succeeded; base64 decoding and
      [filepath.Join] are parameters of the upload handlers; the outcome of
      reading [config.yaml] and the environment are arguments of [Load]. *)

From stdpp Require Import base gmap strings list fin_maps pretty.

Open Scope string_scope.
Open Scope list_scope.
Open Scope nat_scope.

(** ** internal/models *)

Module models.

Definition MessageType := string.

Definition TextMessage : MessageType := "text".
Definition FileMessage : MessageType := "file".
Definition ImageMessage : MessageType := "image".
Definition SystemMessage : MessageType := "system".

Record FileMetadata := {
  FileName : string;
  FileSize : Z;
  FileType : string;
  FileURL : string
}.

(** [Metadata] is [interface{}] in the source; the handlers modelled here
    leave it nil, the upload path fills it with the file description. *)
Record Message := {
  ID : string;
  Type_ : MessageType;
  Content : string;
  Sender : string;
  Receiver : string;
  Room : string;
  Timestamp : Z;
  Metadata : option FileMetadata
}.

(** [Metadata] of a user holds the two keys "deviceInfo" and "sessionId". *)
Record User := {
  User_ID : string;
  User_Name : string;
  User_Avatar : string;
  User_Status : string;
  User_LastSeen : Z;
  User_Metadata : gmap string string
}.

Definition set_Content (c : string) (m : Message) : Message :=
  {| ID := ID m; Type_ := Type_ m; Content := c; Sender := Sender m;
     Receiver := Receiver m; Room := Room m; Timestamp := Timestamp m;
     Metadata := Metadata m |}.

End models.
Import models.

(** ** Values received from and sent to clients *)

(** A field of a JSON object sent by a client: the handlers only ever assert
    fields to [string], every other shape reads as the empty string. *)
Inductive value :=
  | VString (s : string)
  | VOther.

(** One element of [args ...any]. *)
Inductive any :=
  | AMap (fields : gmap string value)
  | AString (s : string)
  | AOther.

(** [s, _ := data[k].(string)] *)
Definition str_field (data : gmap string value) (k : string) : string :=
  match data !! k with
  | Some (VString s) => s
  | _ => ""
  end.

(** [len(args) == 0], or else [data, ok := args[0].(map[string]interface{})]. *)
Inductive first_arg :=
  | NoArgs
  | NotAMap
  | IsMap (data : gmap string value).

Definition first_map (args : list any) : first_arg :=
  match args with
  | [] => NoArgs
  | AMap data :: _ => IsMap data
  | _ :: _ => NotAMap
  end.

(** The payloads the handler emits. *)
Inductive payload :=
  | PError (message : string)
  | PJoined (userId userName deviceInfo status : string) (deviceCount : nat)
  | PDeviceConnected (deviceInfo sessionId : string) (deviceCount : nat)
  | PDeviceDisconnected (sessionId : string) (deviceCount : nat)
  | PUserStatus (userName status : string)
  | PRoomUser (userName roomId : string)
  | PRoomJoined (roomId userName : string)
  | PMessage (m : Message)
  | PDirect (m : Message).  (* map{"message": m} *)

(** Where an emission is addressed. *)
Inductive target :=
  | ToClient (sessionID : string)   (* client.Emit *)
  | ToRoom (room : string)          (* h.server.To(room).Emit *)
  | ToAll.                          (* h.server.Emit *)

Record emission := Emit {
  em_target : target;
  em_event : string;
  em_data : payload
}.

(** logrus levels. *)
Inductive level := DebugLevel | InfoLevel | WarnLevel | ErrorLevel.

(** ** internal/services: the Redis service *)

Inductive rvalue :=
  | RString (s : string)        (* a plain string value *)
  | RJson (m : Message).        (* json.Marshal of a message *)

Record RedisService := {
  kv : gmap string rvalue;            (* SET / GET / DEL *)
  sets : gmap string (gset string);   (* SADD / SREM / SMEMBERS *)
  published : list (string * Message);(* PUBLISH channel payload, oldest first *)
  subscribed : bool;                  (* the "messages" subscription is up *)
  cmds : nat                          (* commands sent so far *)
}.

(** ** internal/handlers: the handler state *)

Record SocketIOHandler := {
  server : gmap string (gset string);   (* connected socket -> rooms joined *)
  redisService : RedisService;
  sessions : gmap string User;          (* session_id -> user *)
  userSessions : gmap string (list string); (* username -> []session_ids *)
  emitted : list emission;
  logged : list (level * string);
  ticks : nat                           (* clock readings so far *)
}.

Definition with_server (f : gmap string (gset string) → gmap string (gset string))
    (h : SocketIOHandler) : SocketIOHandler :=
  {| server := f (server h); redisService := redisService h;
     sessions := sessions h; userSessions := userSessions h;
     emitted := emitted h; logged := logged h; ticks := ticks h |}.

Definition with_redis (r : RedisService) (h : SocketIOHandler) : SocketIOHandler :=
  {| server := server h; redisService := r;
     sessions := sessions h; userSessions := userSessions h;
     emitted := emitted h; logged := logged h; ticks := ticks h |}.

Definition with_sessions (f : gmap string User → gmap string User)
    (h : SocketIOHandler) : SocketIOHandler :=
  {| server := server h; redisService := redisService h;
     sessions := f (sessions h); userSessions := userSessions h;
     emitted := emitted h; logged := logged h; ticks := ticks h |}.

Definition with_userSessions (f : gmap string (list string) → gmap string (list string))
    (h : SocketIOHandler) : SocketIOHandler :=
  {| server := server h; redisService := redisService h;
     sessions := sessions h; userSessions := f (userSessions h);
     emitted := emitted h; logged := logged h; ticks := ticks h |}.

(** [Emit] on some target: one more emission. *)
Definition emit (t : target) (ev : string) (d : payload) (h : SocketIOHandler)
    : SocketIOHandler :=
  {| server := server h; redisService := redisService h;
     sessions := sessions h; userSessions := userSessions h;
     emitted := emitted h ++ [Emit t ev d]; logged := logged h; ticks := ticks h |}.

(** [h.logger...Info/Error(msg)]: the fields of the entry are left out. *)
Definition log (l : level) (msg : string) (h : SocketIOHandler) : SocketIOHandler :=
  {| server := server h; redisService := redisService h;
     sessions := sessions h; userSessions := userSessions h;
     emitted := emitted h; logged := logged h ++ [(l, msg)]; ticks := ticks h |}.

(** The sockets an emission reaches, given the rooms of the transport. *)
Definition reaches (srv : gmap string (gset string)) (t : target) (sid : string) : bool :=
  match t with
  | ToClient c => bool_decide (c = sid) && bool_decide (is_Some (srv !! sid))
  | ToRoom r =>
      match srv !! sid with
      | Some rooms => bool_decide (r ∈ rooms)
      | None => false
      end
  | ToAll => bool_decide (is_Some (srv !! sid))
  end.

(** How many of the emissions [es] carrying message id [id] reach [sid]. *)
Definition message_of (d : payload) : option Message :=
  match d with
  | PMessage m | PDirect m => Some m
  | _ => None
  end.

Definition carries (id : string) (e : emission) : bool :=
  match message_of (em_data e) with
  | Some m => bool_decide (ID m = id)
  | None => false
  end.

Definition deliveries (srv : gmap string (gset string)) (es : list emission)
    (id sid : string) : nat :=
  length (filter (λ e, carries id e && reaches srv (em_target e) sid = true) es).

(** [h.userSessions[userName]]: the zero value (no sessions) for a missing key. *)
Definition devicesOf (h : SocketIOHandler) (userName : string) : list string :=
  default [] (userSessions h !! userName).

(** The position of the first [sid == sessionID] of [for i, sid := range sessions]. *)
Fixpoint index_of (sessionID : string) (l : list string) : option nat :=
  match l with
  | [] => None
  | sid :: l' =>
      if decide (sid = sessionID) then Some 0
      else S <$> index_of sessionID l'
  end.

(** ** Events *)

(** What a connected client sends. *)
Inductive client_event :=
  | EvJoin (args : list any)
  | EvJoinRoom (args : list any)
  | EvLeaveRoom (args : list any)
  | EvMessage (args : list any)
  | EvTyping (args : list any)
  | EvStopTyping (args : list any).

(** What happens to the process. *)
Inductive event :=
  | Connection (sessionID : string)
  | ClientEmit (sessionID : string) (ev : client_event)
  | Disconnect (sessionID : string) (args : list any)
  | RelayReceive (payload : option Message).

Section Handlers.

(** The n-th reading of [time.Now()], in nanoseconds since the epoch. *)
Variable clock : nat → Z.
(** Whether the n-th command sent to Redis succeeds. *)
Variable redis_ok : nat → bool.

Definition time_Now (h : SocketIOHandler) : Z * SocketIOHandler :=
  (clock (ticks h),
   {| server := server h; redisService := redisService h;
      sessions := sessions h; userSessions := userSessions h;
      emitted := emitted h; logged := logged h; ticks := S (ticks h) |}).

Definition Unix (t : Z) : Z := (t `div` 1000000000)%Z.

(** [fmt.Sprintf("%d_%d", time.Now().UnixNano(), time.Now().Unix())] *)
Definition generateMessageID (h : SocketIOHandler) : string * SocketIOHandler :=
  let '(t1, h) := time_Now h in
  let '(t2, h) := time_Now h in
  (pretty t1 +:+ "_" +:+ pretty (Unix t2), h).

(** *** redis.go *)

Definition sent (r : RedisService) : RedisService :=
  {| kv := kv r; sets := sets r; published := published r;
     subscribed := subscribed r; cmds := S (cmds r) |}.

Definition with_kv (f : gmap string rvalue → gmap string rvalue) (r : RedisService)
    : RedisService :=
  {| kv := f (kv r); sets := sets r; published := published r;
     subscribed := subscribed r; cmds := cmds r |}.

Definition with_sets (f : gmap string (gset string) → gmap string (gset string))
    (r : RedisService) : RedisService :=
  {| kv := kv r; sets := f (sets r); published := published r;
     subscribed := subscribed r; cmds := cmds r |}.

(** Go's [error]: [None] is [nil]. *)
Definition error := option string.

Definition StoreMessage (message : Message) (r : RedisService) : error * RedisService :=
  let key := "message:" +:+ ID message in
  let data := RJson message in
  if redis_ok (cmds r) then (None, with_kv (<[key := data]>) (sent r))
  else (Some "failed to store message", sent r).

Definition GetMessage (messageID : string) (r : RedisService)
    : (option Message * error) * RedisService :=
  let key := "message:" +:+ messageID in
  if redis_ok (cmds r) then
    match kv r !! key with
    | Some (RJson m) => ((Some m, None), sent r)
    | Some (RString _) => ((None, Some "failed to unmarshal message"), sent r)
    | None => ((None, Some "message not found"), sent r)
    end
  else ((None, Some "failed to get message"), sent r).

Definition StoreUserSession (userID sessionID : string) (r : RedisService)
    : error * RedisService :=
  let key := "user_session:" +:+ userID in
  if redis_ok (cmds r) then (None, with_kv (<[key := RString sessionID]>) (sent r))
  else (Some "failed to store user session", sent r).

(** A key that [StoreUserSession] writes holds a plain string; no other
    writer of the service shares the prefix of the key. *)
Definition GetUserSession (userID : string) (r : RedisService)
    : (string * error) * RedisService :=
  let key := "user_session:" +:+ userID in
  if redis_ok (cmds r) then
    match kv r !! key with
    | Some (RString sessionID) => ((sessionID, None), sent r)
    | Some (RJson _) => (("", Some "failed to get user session"), sent r)
    | None => (("", Some "user session not found"), sent r)
    end
  else (("", Some "failed to get user session"), sent r).

Definition DeleteUserSession (userID : string) (r : RedisService) : error * RedisService :=
  let key := "user_session:" +:+ userID in
  if redis_ok (cmds r) then (None, with_kv (delete key) (sent r))
  else (Some "failed to delete user session", sent r).

Definition AddUserToRoom (roomID userID : string) (r : RedisService) : error * RedisService :=
  let key := "room_members:" +:+ roomID in
  if redis_ok (cmds r) then
    (None, with_sets (λ s, <[key := default ∅ (s !! key) ∪ {[userID]}]> s) (sent r))
  else (Some "failed to add user to room", sent r).

Definition RemoveUserFromRoom (roomID userID : string) (r : RedisService)
    : error * RedisService :=
  let key := "room_members:" +:+ roomID in
  if redis_ok (cmds r) then
    (None,
     with_sets (λ s,
       match s !! key with
       | Some members =>
           if decide (members ∖ {[userID]} = ∅) then delete key s
           else <[key := members ∖ {[userID]}]> s
       | None => s
       end) (sent r))
  else (Some "failed to remove user from room", sent r).

(** A call of the service whose [error] the caller drops. *)
Definition redis_call (f : RedisService → error * RedisService) (h : SocketIOHandler)
    : SocketIOHandler :=
  with_redis (snd (f (redisService h))) h.

(** One turn of [for msg := range ch] in [SubscribeToChannel]; [None] is a
    payload that [json.Unmarshal] rejects. *)
Definition relay_receive (callback : Message → SocketIOHandler → SocketIOHandler)
    (payload : option Message) (h : SocketIOHandler) : SocketIOHandler :=
  match payload with
  | None => log ErrorLevel "Failed to unmarshal message" h
  | Some message => callback message h
  end.

(** [PublishMessage] logs through the logger it shares with the handler. *)
Definition PublishMessage (channel : string) (message : Message) (h : SocketIOHandler)
    : error * SocketIOHandler :=
  let r := redisService h in
  if redis_ok (cmds r) then
    let h := with_redis
      {| kv := kv r; sets := sets r;
         published := published r ++ [(channel, message)];
         subscribed := subscribed r; cmds := S (cmds r) |} h in
    (None, log DebugLevel "Message published to Redis" h)
  else (Some "failed to publish message", with_redis (sent r) h).

(** The head of [SubscribeToChannel]: subscribe and wait for the confirmation. *)
Definition subscribe_confirm (h : SocketIOHandler) : error * SocketIOHandler :=
  let r := redisService h in
  if redis_ok (cmds r) then
    let h := with_redis
      {| kv := kv r; sets := sets r; published := published r;
         subscribed := true; cmds := S (cmds r) |} h in
    (None, log InfoLevel "Subscribed to Redis channel" h)
  else (Some "failed to subscribe to channel", with_redis (sent r) h).

(** [SubscribeToChannel], run on the payloads that arrive on the channel. *)
Definition SubscribeToChannel (callback : Message → SocketIOHandler → SocketIOHandler)
    (incoming : list (option Message)) (h : SocketIOHandler) : error * SocketIOHandler :=
  match subscribe_confirm h with
  | (None, h) => (None, foldl (λ h payload, relay_receive callback payload h) h incoming)
  | (Some err, h) => (Some err, h)
  end.

(** [SubscribeToMessages], up to the confirmation. *)
Definition SubscribeToMessages (h : SocketIOHandler) : SocketIOHandler :=
  match subscribe_confirm h with
  | (None, h) => h
  | (Some _, h) => log ErrorLevel "Failed to subscribe to messages channel" h
  end.

(** *** handlers *)

(** [client.Join(room)] and [client.Leave(room)] of the transport. *)
Definition client_Join (sessionID room : string) (h : SocketIOHandler) : SocketIOHandler :=
  with_server (λ srv,
    match srv !! sessionID with
    | Some rooms => <[sessionID := rooms ∪ {[room]}]> srv
    | None => srv
    end) h.

Definition client_Leave (sessionID room : string) (h : SocketIOHandler) : SocketIOHandler :=
  with_server (λ srv,
    match srv !! sessionID with
    | Some rooms => <[sessionID := rooms ∖ {[room]}]> srv
    | None => srv
    end) h.

Definition sendError (client : string) (message : string) (h : SocketIOHandler)
    : SocketIOHandler :=
  emit (ToClient client) "error" (PError message) h.

Definition broadcastUserStatus (userName status : string) (h : SocketIOHandler)
    : SocketIOHandler :=
  emit ToAll "user_status" (PUserStatus userName status) h.

Definition broadcastToUserDevices (userName event : string) (data : payload)
    (excludeSessionID : string) (h : SocketIOHandler) : SocketIOHandler :=
  match userSessions h !! userName with
  | Some sessions_ =>
      foldl (λ h sessionID,
        if bool_decide (excludeSessionID ≠ "") && bool_decide (sessionID = excludeSessionID)
        then h
        else emit (ToRoom sessionID) event data h) h sessions_
  | None => h
  end.

Definition broadcastMessage (message : Message) (h : SocketIOHandler) : SocketIOHandler :=
  if bool_decide (Room message ≠ "") then
    emit (ToRoom (Room message)) "message" (PMessage message) h
  else if bool_decide (Receiver message ≠ "") then
    broadcastToUserDevices (Receiver message) "message" (PDirect message) "" h
  else
    emit ToAll "message" (PMessage message) h.

(** [subscribeToRedis]: the callback of the subscription is [broadcastMessage]. *)
Definition subscribeToRedis (h : SocketIOHandler) : SocketIOHandler :=
  SubscribeToMessages h.

(** The body of [for i := 0; i < 10; i++] in [handleMessage], [n] turns
    left to go. *)
Fixpoint handleMessage_loop (client messageType content sender roomID receiver : string)
    (n i : nat) (h : SocketIOHandler) : SocketIOHandler :=
  match n with
  | 0 => h
  | S n' =>
      let '(id, h) := generateMessageID h in
      let '(now, h) := time_Now h in
      let message :=
        {| ID := id; Type_ := messageType; Content := content; Sender := sender;
           Room := roomID; Receiver := receiver; Timestamp := now;
           Metadata := None |} in
      match StoreMessage message (redisService h) with
      | (Some err, r) =>
          let h := with_redis r h in
          let h := log ErrorLevel "Failed to store message" h in
          sendError client "Failed to send message" h
      | (None, r) =>
          let h := with_redis r h in
          let message := set_Content (Content message +:+ "Message " +:+ pretty i) message in
          let h := broadcastMessage message h in
          let h := log InfoLevel "Message sent" h in
          handleMessage_loop client messageType content sender roomID receiver n' (S i) h
      end
  end.

Definition handleMessage (client : string) (args : list any) (h : SocketIOHandler)
    : SocketIOHandler :=
  match first_map args with
  | NoArgs => sendError client "No message data" h
  | NotAMap => sendError client "Invalid message data" h
  | IsMap data =>
      let messageType := str_field data "type" in
      let content := str_field data "content" in
      let sender := str_field data "sender" in
      let roomID := str_field data "roomId" in
      let receiver := str_field data "receiver" in
      if bool_decide (content = "") || bool_decide (sender = "") then
        sendError client "Invalid message data" h
      else
        handleMessage_loop client messageType content sender roomID receiver 10 0 h
  end.

(** The ["join"] handler of [setupEventHandlers]. *)
Definition on_join (sessionID : string) (args : list any) (h : SocketIOHandler)
    : SocketIOHandler :=
  match first_map args with
  | NoArgs => sendError sessionID "No user data provided" h
  | NotAMap => sendError sessionID "Invalid user data" h
  | IsMap data =>
      let userName := str_field data "userName" in
      let deviceInfo := str_field data "deviceInfo" in
      let avatar := str_field data "avatar" in
      if bool_decide (userName = "") then sendError sessionID "User name is required" h
      else
        let deviceInfo :=
          if bool_decide (deviceInfo = "") then "Unknown Device" else deviceInfo in
        let '(now, h) := time_Now h in
        let user :=
          {| User_ID := userName; User_Name := userName; User_Avatar := avatar;
             User_Status := "online"; User_LastSeen := now;
             User_Metadata :=
               <["sessionId" := sessionID]> (<["deviceInfo" := deviceInfo]> ∅) |} in
        let h := with_sessions (<[sessionID := user]>) h in
        let h := with_userSessions (λ us,
          match us !! userName with
          | None => <[userName := []]> us
          | Some _ => us
          end) h in
        let h := with_userSessions (λ us,
          <[userName := default [] (us !! userName) ++ [sessionID]]> us) h in
        let h := redis_call (StoreUserSession userName sessionID) h in
        let h :=
          if bool_decide (length (devicesOf h userName) = 1)
          then broadcastUserStatus userName "online" h
          else h in
        let h := emit (ToClient sessionID) "joined"
          (PJoined userName userName deviceInfo "online"
             (length (devicesOf h userName))) h in
        let h := broadcastToUserDevices userName "device_connected"
          (PDeviceConnected deviceInfo sessionID (length (devicesOf h userName)))
          sessionID h in
        log InfoLevel "User joined with device" h
  end.

(** The ["join_room"] handler. *)
Definition on_join_room (sessionID : string) (args : list any) (h : SocketIOHandler)
    : SocketIOHandler :=
  match first_map args with
  | NoArgs => sendError sessionID "No room data provided" h
  | NotAMap => sendError sessionID "Invalid room data" h
  | IsMap data =>
      let roomID := str_field data "roomId" in
      let userName := str_field data "userName" in
      if bool_decide (roomID = "") || bool_decide (userName = "") then
        sendError sessionID "Invalid room or user data" h
      else
        let h := client_Join sessionID roomID h in
        let h := redis_call (AddUserToRoom roomID userName) h in
        let h := emit (ToRoom roomID) "user_joined_room" (PRoomUser userName roomID) h in
        let h := emit (ToClient sessionID) "room_joined" (PRoomJoined roomID userName) h in
        log InfoLevel "User joined room" h
  end.

(** The ["leave_room"] handler. *)
Definition on_leave_room (sessionID : string) (args : list any) (h : SocketIOHandler)
    : SocketIOHandler :=
  match first_map args with
  | NoArgs => sendError sessionID "No room data provided" h
  | NotAMap => sendError sessionID "Invalid room data" h
  | IsMap data =>
      let roomID := str_field data "roomId" in
      let userName := str_field data "userName" in
      if bool_decide (roomID = "") || bool_decide (userName = "") then
        sendError sessionID "Invalid room or user data" h
      else
        let h := client_Leave sessionID roomID h in
        let h := redis_call (RemoveUserFromRoom roomID userName) h in
        let h := emit (ToRoom roomID) "user_left_room" (PRoomUser userName roomID) h in
        log InfoLevel "User left room" h
  end.

(** The ["typing"] and ["stop_typing"] handlers, [event] being the name. *)
Definition on_typing (event : string) (args : list any) (h : SocketIOHandler)
    : SocketIOHandler :=
  match first_map args with
  | NoArgs => h
  | NotAMap => h
  | IsMap data =>
      let roomID := str_field data "roomId" in
      let userName := str_field data "userName" in
      if bool_decide (roomID ≠ "") && bool_decide (userName ≠ "") then
        emit (ToRoom roomID) event (PRoomUser userName roomID) h
      else h
  end.

(** The ["disconnect"] handler. *)
Definition on_disconnect (sessionID : string) (args : list any) (h : SocketIOHandler)
    : SocketIOHandler :=
  let h := log InfoLevel "Device disconnected" h in
  match sessions h !! sessionID with
  | Some user =>
      let userName := User_ID user in
      let h :=
        match userSessions h !! userName with
        | Some sessions_ =>
            let h :=
              match index_of sessionID sessions_ with
              | Some i =>
                  with_userSessions
                    (<[userName := take i sessions_ ++ drop (S i) sessions_]>) h
              | None => h
              end in
            if bool_decide (length (devicesOf h userName) = 0) then
              let h := with_userSessions (delete userName) h in
              let h := redis_call (DeleteUserSession userName) h in
              broadcastUserStatus userName "offline" h
            else
              broadcastToUserDevices userName "device_disconnected"
                (PDeviceDisconnected sessionID (length (devicesOf h userName))) "" h
        | None => h
        end in
      with_sessions (delete sessionID) h
  | None => h
  end.

(** The ["connection"] handler, up to the registration of the handlers of
    the new socket. *)
Definition on_connection (sessionID : string) (h : SocketIOHandler) : SocketIOHandler :=
  let h := log InfoLevel "New connection established" h in
  client_Join sessionID sessionID h.

(** [NewSocketIOHandler]: empty maps, then the subscription. *)
Definition NewSocketIOHandler : SocketIOHandler :=
  subscribeToRedis
    {| server := ∅;
       redisService :=
         {| kv := ∅; sets := ∅; published := []; subscribed := false; cmds := 0 |};
       sessions := ∅; userSessions := ∅;
       emitted := []; logged := []; ticks := 0 |}.

Definition dispatch (sessionID : string) (ev : client_event) (h : SocketIOHandler)
    : SocketIOHandler :=
  match ev with
  | EvJoin args => on_join sessionID args h
  | EvJoinRoom args => on_join_room sessionID args h
  | EvLeaveRoom args => on_leave_room sessionID args h
  | EvMessage args => handleMessage sessionID args h
  | EvTyping args => on_typing "typing" args h
  | EvStopTyping args => on_typing "stop_typing" args h
  end.

(** One event.  The transport gives a new socket an id that is not empty
    and not in use, opens it in the room of its own id before
    ["connection"], and takes a closing socket out of every room before
    ["disconnect"]; a socket that is not connected sends nothing. *)
Definition step (h : SocketIOHandler) (e : event) : SocketIOHandler :=
  match e with
  | Connection sessionID =>
      if bool_decide (sessionID = "") then h
      else
        match server h !! sessionID with
        | None => on_connection sessionID (with_server (<[sessionID := {[sessionID]}]>) h)
        | Some _ => h
        end
  | ClientEmit sessionID ev =>
      match server h !! sessionID with
      | Some _ => dispatch sessionID ev h
      | None => h
      end
  | Disconnect sessionID args =>
      match server h !! sessionID with
      | Some _ => on_disconnect sessionID args (with_server (delete sessionID) h)
      | None => h
      end
  | RelayReceive payload =>
      if subscribed (redisService h) then relay_receive broadcastMessage payload h
      else h
  end.

Definition run (es : list event) (h : SocketIOHandler) : SocketIOHandler :=
  foldl step h es.

Definition reachable (h : SocketIOHandler) : Prop :=
  ∃ es, run es NewSocketIOHandler = h.

End Handlers.

(** * The vocabulary of the properties *)

(** ** Emissions *)

(** Several emissions at once: what a handler adds to [emitted]. *)
Definition emit_all (es : list emission) (h : SocketIOHandler) : SocketIOHandler :=
  {| server := server h; redisService := redisService h;
     sessions := sessions h; userSessions := userSessions h;
     emitted := emitted h ++ es; logged := logged h; ticks := ticks h |}.

(** The sessions [broadcastToUserDevices] addresses. *)
Definition addressed (excludeSessionID : string) (l : list string) : list string :=
  filter (λ s, ¬ (excludeSessionID ≠ "" ∧ s = excludeSessionID)) l.

(** What [broadcastMessage] emits for [message] in state [h]. *)
Definition broadcast_of (h : SocketIOHandler) (message : Message) : list emission :=
  if bool_decide (Room message ≠ "") then
    [Emit (ToRoom (Room message)) "message" (PMessage message)]
  else if bool_decide (Receiver message ≠ "") then
    map (λ s, Emit (ToRoom s) "message" (PDirect message))
      (devicesOf h (Receiver message))
  else [Emit ToAll "message" (PMessage message)].

Inductive path := ViaRoom | ViaReceiver | ViaAll.


(** A handler that only talks: the registry, the rooms and the relay are as
    before, and what is emitted is ["message"] and ["error"] events. *)
Definition chat_only (h h' : SocketIOHandler) : Prop :=
  server h' = server h ∧ sessions h' = sessions h
  ∧ userSessions h' = userSessions h
  ∧ published (redisService h') = published (redisService h)
  ∧ subscribed (redisService h') = subscribed (redisService h)
  ∧ ∃ es, emitted h' = emitted h ++ es
      ∧ Forall (λ e, em_event e = "message" ∨ em_event e = "error") es.

(** The messages the loop of [handleMessage] broadcasts when every store
    succeeds: [n] turns from index [i], the clock having been read [t] times. *)
Fixpoint loop_messages (clock : nat → Z) (messageType content sender roomID receiver : string)
    (n i t : nat) : list Message :=
  match n with
  | 0 => []
  | S n' =>
      {| ID := pretty (clock t) +:+ "_" +:+ pretty (Unix (clock (S t)));
         Type_ := messageType;
         Content := content +:+ "Message " +:+ pretty i;
         Sender := sender; Receiver := receiver; Room := roomID;
         Timestamp := clock (S (S t)); Metadata := None |}
      :: loop_messages clock messageType content sender roomID receiver n' (S i) (3 + t)
  end.

(** ** Concrete states and arguments *)

Module Fixtures.

(** A clock that moves one nanosecond per reading. *)
Definition wall : nat → Z := λ n, (1700000000000000000 + Z.of_nat n)%Z.

Definition redis_up : nat → bool := λ _, true.
(** Redis answers the first [k] commands and fails from then on. *)
Definition redis_until (k : nat) : nat → bool := λ n, bool_decide (n < k).

Definition join_args (userName deviceInfo : string) : list any :=
  [AMap (<["userName" := VString userName]>
          (<["deviceInfo" := VString deviceInfo]> ∅))].

Definition room_args (roomId userName : string) : list any :=
  [AMap (<["roomId" := VString roomId]> (<["userName" := VString userName]> ∅))].

Definition message_args (content sender roomId receiver : string) : list any :=
  [AMap (<["type" := VString "text"]>
          (<["content" := VString content]>
            (<["sender" := VString sender]>
              (<["roomId" := VString roomId]>
                (<["receiver" := VString receiver]> ∅)))))].

(** alice is connected as "s1", has joined and sits in room "general". *)
Definition alice_in_general (redis_ok : nat → bool) : SocketIOHandler :=
  run wall redis_ok
    [Connection "s1";
     ClientEmit "s1" (EvJoin (join_args "alice" "phone"));
     ClientEmit "s1" (EvJoinRoom (room_args "general" "alice"))]
    (NewSocketIOHandler redis_ok).

End Fixtures.

(** What [h'] has emitted since [h]. *)
Definition emitted_since (h h' : SocketIOHandler) : list emission :=
  drop (length (emitted h)) (emitted h').

(** The content of a stored message. *)
Definition stored_content (v : rvalue) : option string :=
  match v with
  | RJson m => Some (Content m)
  | RString _ => None
  end.

(** ** The claims on the store and on the relay, as the specification has them *)

(** C2 as the specification has it, for a call during which the store
    fails: the message is delivered all the same and no ["error"] goes back
    to the sender. *)
Definition store_failure_absorbed (clock : nat → Z) (redis_ok : nat → bool)
    (client : string) (args : list any) (h : SocketIOHandler) : Prop :=
  let h' := handleMessage clock redis_ok client args h in
  (∃ e, e ∈ emitted_since h h' ∧ em_event e = "message")
  ∧ (∀ e, e ∈ emitted_since h h' → em_event e ≠ "error").

(** What the store holds after the messages [ms] have been stored as the
    client sent them, with [content] and without the number of the turn. *)
Definition stored_after (content : string) (ms : list Message)
    (kv0 : gmap string rvalue) : gmap string rvalue :=
  foldl (λ kv m, <["message:" +:+ ID m := RJson (set_Content content m)]> kv) kv0 ms.

(** The same envelope arrives twice on the subscription. *)
Definition relay_twice (clock : nat → Z) (redis_ok : nat → bool) (message : Message)
    (h : SocketIOHandler) : SocketIOHandler :=
  run clock redis_ok [RelayReceive (Some message); RelayReceive (Some message)] h.

(** C8 as the specification has it: of the two arrivals, every socket sees
    the message at most once. *)
Definition relay_deduplicated (clock : nat → Z) (redis_ok : nat → bool)
    (message : Message) (h : SocketIOHandler) : Prop :=
  ∀ sid,
    deliveries (server h) (emitted_since h (relay_twice clock redis_ok message h))
      (ID message) sid ≤ 1.

Definition hello_general : Message :=
  {| ID := "1700000000000000000_1700000000"; Type_ := TextMessage; Content := "hello";
     Sender := "bob"; Receiver := ""; Room := "general";
     Timestamp := 1700000000000000000; Metadata := None |}.

(** ** The target of a message *)




(** ** Presence *)

Definition online_event (userName : string) : emission :=
  Emit ToAll "user_status" (PUserStatus userName "online").

Definition offline_event (userName : string) : emission :=
  Emit ToAll "user_status" (PUserStatus userName "offline").

(** The three events that tell about presence. *)
Definition presence_name (ev : string) : Prop :=
  ev = "user_status" ∨ ev = "device_connected" ∨ ev = "device_disconnected".

(** [e] is an accepted ["join"] of [userName], sent by the connected socket
    [sessionID]. *)
Definition joins (h : SocketIOHandler) (e : event) (sessionID userName : string) : Prop :=
  ∃ args data,
    e = ClientEmit sessionID (EvJoin args)
    ∧ is_Some (server h !! sessionID)
    ∧ first_map args = IsMap data
    ∧ str_field data "userName" = userName
    ∧ userName ≠ "".

(** [e] is the ["disconnect"] of the connected socket [sessionID], a session
    of [userName]. *)
Definition leaves (h : SocketIOHandler) (e : event) (sessionID userName : string) : Prop :=
  ∃ args user,
    e = Disconnect sessionID args
    ∧ is_Some (server h !! sessionID)
    ∧ sessions h !! sessionID = Some user
    ∧ User_ID user = userName.

(** A step that leaves the registry alone and tells nothing about presence. *)
Definition quiet (h h' : SocketIOHandler) : Prop :=
  sessions h' = sessions h
  ∧ userSessions h' = userSessions h
  ∧ (server h !! "" = None → server h' !! "" = None)
  ∧ subscribed (redisService h') = subscribed (redisService h)
  ∧ published (redisService h') = published (redisService h)
  ∧ ∃ es, emitted h' = emitted h ++ es
      ∧ Forall (λ e, ¬ presence_name (em_event e)) es.

(** What holds of the registry in every state the process gets to: no
    socket has the empty id, no identity has an empty device list, and every
    session is on the device list of its identity. *)
Definition registry_ok (h : SocketIOHandler) : Prop :=
  server h !! "" = None
  ∧ (∀ u l, userSessions h !! u = Some l → l ≠ [])
  ∧ (∀ s user, sessions h !! s = Some user → s ∈ devicesOf h (User_ID user)).

(** [len(h.userSessions[userName])] *)
Definition deviceCount (h : SocketIOHandler) (userName : string) : nat :=
  length (devicesOf h userName).




Module ScenarioA.
Import Fixtures.

(** alice has joined from two devices, "s1" first. *)
Definition two_devices : SocketIOHandler :=
  run wall redis_up
    [Connection "s1"; ClientEmit "s1" (EvJoin (join_args "alice" "phone"));
     Connection "s2"; ClientEmit "s2" (EvJoin (join_args "alice" "laptop"))]
    (NewSocketIOHandler redis_up).

End ScenarioA.

Module Listener.
Import Fixtures.



End Listener.


Module TwoDevices.
Import Fixtures.

(** alice has joined as "s1"; a second socket "s2" is connected. *)
Definition before : SocketIOHandler :=
  run wall redis_up
    [Connection "s1"; ClientEmit "s1" (EvJoin (join_args "alice" "phone"));
     Connection "s2"]
    (NewSocketIOHandler redis_up).


End TwoDevices.

(** ** Replaying joins and leaves *)

(** The operations on the registry: ["join"] of a session as an identity and
    ["disconnect"] of a session. *)
Inductive registry_op :=
  | RJoin (sessionID userName : string)
  | RLeave (sessionID : string).

Global Instance registry_op_eq_dec : EqDecision registry_op.
Proof. solve_decision. Defined.

Section Replay.

Variable clock : nat → Z.
Variable redis_ok : nat → bool.

Definition apply_op (h : SocketIOHandler) (op : registry_op) : SocketIOHandler :=
  match op with
  | RJoin sessionID userName =>
      on_join clock redis_ok sessionID [AMap {["userName" := VString userName]}] h
  | RLeave sessionID => on_disconnect redis_ok sessionID [] h
  end.

Definition replay (ops : list registry_op) (h : SocketIOHandler) : SocketIOHandler :=
  foldl apply_op h ops.

End Replay.

(** From the words of the specification: the sessions that joined for
    [userName] and have not left, in join order.  A join counts when no leave
    of its session comes after it. *)
Fixpoint joined_not_left (userName : string) (ops : list registry_op) : list string :=
  match ops with
  | [] => []
  | RJoin s u :: rest =>
      if decide (u = userName ∧ RLeave s ∉ rest)
      then s :: joined_not_left userName rest
      else joined_not_left userName rest
  | RLeave _ :: rest => joined_not_left userName rest
  end.

(** Every join is by a named identity and by a session that has not joined
    yet or has left since. *)
Definition single_join (ops : list registry_op) : Prop :=
  ∀ ops1 s u ops2,
    ops = ops1 ++ RJoin s u :: ops2 →
    u ≠ "" ∧ ∀ u', s ∉ joined_not_left u' ops1.

(** The registry of [h] is the replay of [ops]. *)
Definition tracks (ops : list registry_op) (h : SocketIOHandler) : Prop :=
  (∀ u, devicesOf h u = joined_not_left u ops)
  ∧ (∀ u l, userSessions h !! u = Some l → l ≠ [])
  ∧ (∀ s user, sessions h !! s = Some user →
       s ∈ joined_not_left (User_ID user) ops)
  ∧ (∀ u s, s ∈ joined_not_left u ops →
       ∃ user, sessions h !! s = Some user ∧ User_ID user = u)
  ∧ (∀ u, NoDup (joined_not_left u ops)).

(** * More of the code *)

(** ** redis.go: the members of a room *)

(** [GetRoomMembers]: SMEMBERS gives the members in no particular order; a
    key that is not there is the empty set. *)
Definition GetRoomMembers (redis_ok : nat → bool) (roomID : string) (r : RedisService)
    : (list string * error) * RedisService :=
  let key := "room_members:" +:+ roomID in
  if redis_ok (cmds r) then ((elements (default ∅ (sets r !! key)), None), sent r)
  else (([], Some "failed to get room members"), sent r).

(** The answers of the three readers of the service. *)
Definition fetched (redis_ok : nat → bool) (messageID : string) (r : RedisService)
    : option Message * error :=
  (GetMessage redis_ok messageID r).1.

Definition session_of (redis_ok : nat → bool) (userID : string) (r : RedisService)
    : string * error :=
  (GetUserSession redis_ok userID r).1.

Definition members_of (redis_ok : nat → bool) (roomID : string) (r : RedisService)
    : list string :=
  (GetRoomMembers redis_ok roomID r).1.1.

(** ** redis.go: messages as JSON text *)





(** ** redis.go: the subscription *)

(** The payloads that [json.Unmarshal] rejects. *)
Definition rejected (incoming : list (option Message)) : nat :=
  length (filter (λ p, p = None) incoming).

(** ** What of the handler does not live in Redis *)

(** The rooms, the registry, the emissions and the clock readings. *)
Definition view (h : SocketIOHandler)
    : gmap string (gset string) * gmap string User * gmap string (list string)
      * list emission * nat :=
  (server h, sessions h, userSessions h, emitted h, ticks h).


(** [h] with another Redis service and another log. *)
Definition swap (r : RedisService) (l : list (level * string)) (h : SocketIOHandler)
    : SocketIOHandler :=
  {| server := server h; redisService := r; sessions := sessions h;
     userSessions := userSessions h; emitted := emitted h; logged := l;
     ticks := ticks h |}.

(** ** handlers: the payload checks *)

(** The arguments a client event comes with. *)
Definition args_of (ev : client_event) : list any :=
  match ev with
  | EvJoin args | EvJoinRoom args | EvLeaveRoom args
  | EvMessage args | EvTyping args | EvStopTyping args => args
  end.

(** The check each handler makes of its payload before it does anything:
    the first argument is a map, and the fields the handler requires are
    strings that are not empty. *)
Definition accepted (ev : client_event) : bool :=
  match first_map (args_of ev) with
  | IsMap data =>
      match ev with
      | EvJoin _ => bool_decide (str_field data "userName" ≠ "")
      | EvJoinRoom _ | EvLeaveRoom _ | EvTyping _ | EvStopTyping _ =>
          bool_decide (str_field data "roomId" ≠ "")
          && bool_decide (str_field data "userName" ≠ "")
      | EvMessage _ =>
          bool_decide (str_field data "content" ≠ "")
          && bool_decide (str_field data "sender" ≠ "")
      end
  | _ => false
  end.

(** The typing events have no error answer. *)
Definition is_typing (ev : client_event) : bool :=
  match ev with
  | EvTyping _ | EvStopTyping _ => true
  | _ => false
  end.

(** ** handlers: [GetOnlineUsers] *)

(** One entry of the map [GetOnlineUsers] returns: "deviceCount", "devices"
    (session id, device info, last seen) and "status". *)
Record OnlineUser := {
  ou_deviceCount : nat;
  ou_devices : list (string * string * Z);
  ou_status : string
}.

Definition GetOnlineUsers (h : SocketIOHandler) : gmap string OnlineUser :=
  (λ sessions_ : list string,
     {| ou_deviceCount := length sessions_;
        ou_devices :=
          omap (λ sessionID,
                  match sessions h !! sessionID with
                  | Some user =>
                      Some (sessionID, default "" (User_Metadata user !! "deviceInfo"),
                            User_LastSeen user)
                  | None => None
                  end) sessions_;
        ou_status := "online" |}) <$> userSessions h.

(** ** Counting emissions *)

Global Instance FileMetadata_eq_dec : EqDecision FileMetadata.
Proof. solve_decision. Defined.
Global Instance Message_eq_dec : EqDecision Message.
Proof. solve_decision. Defined.
Global Instance payload_eq_dec : EqDecision payload.
Proof. solve_decision. Defined.
Global Instance target_eq_dec : EqDecision target.
Proof. solve_decision. Defined.
Global Instance emission_eq_dec : EqDecision emission.
Proof. solve_decision. Defined.

(** How often [e] is among [es]. *)
Definition occurrences (e : emission) (es : list emission) : nat :=
  length (filter (λ x, x = e) es).

(** ** What holds of every session *)

(** The user record of session [s] is the one ["join"] builds, and the
    socket of the session is connected. *)
Definition session_ok (h : SocketIOHandler) (s : string) (user : User) : Prop :=
  is_Some (server h !! s)
  ∧ User_ID user ≠ ""
  ∧ User_Name user = User_ID user
  ∧ User_Status user = "online"
  ∧ User_Metadata user !! "sessionId" = Some s
  ∧ (∃ d, User_Metadata user !! "deviceInfo" = Some d ∧ d ≠ "").

Definition sessions_ok (h : SocketIOHandler) : Prop :=
  (∀ s user, sessions h !! s = Some user → session_ok h s user)
  ∧ (∀ u l, userSessions h !! u = Some l → u ≠ "").

(** ** Presence over a whole run *)

(** One more "online" than "offline" has been broadcast for [u] exactly when
    [u] has a device. *)
Definition balanced (h : SocketIOHandler) (u : string) : Prop :=
  occurrences (online_event u) (emitted h)
  = occurrences (offline_event u) (emitted h)
    + (if decide (devicesOf h u = []) then 0 else 1).

(** ** Stored messages *)

(** What the store holds under key [k]: a message to [receiver] with the
    content as it was sent. *)
Definition holds_for (content receiver k : string) (h : SocketIOHandler) : Prop :=
  ∃ m, kv (redisService h) !! k = Some (RJson m)
       ∧ Content m = content ∧ Receiver m = receiver.

(** ** More concrete states *)

Module TwoInGeneral.
Import Fixtures.

(** alice sits in room "general" with two devices, "s1" and "s2". *)
Definition both : SocketIOHandler :=
  run wall redis_up
    [Connection "s1"; ClientEmit "s1" (EvJoin (join_args "alice" "phone"));
     ClientEmit "s1" (EvJoinRoom (room_args "general" "alice"));
     Connection "s2"; ClientEmit "s2" (EvJoin (join_args "alice" "laptop"));
     ClientEmit "s2" (EvJoinRoom (room_args "general" "alice"))]
    (NewSocketIOHandler redis_up).

Definition leave_general : gmap string value :=
  <["roomId" := VString "general"]> (<["userName" := VString "alice"]> ∅).

End TwoInGeneral.

(** ** internal/config *)

Module config.

Record ServerConfig := { Port : Z; Host : string; Env : string }.
Record RedisConfig := { Addr : string; Password : string; DB : Z }.
(** The two durations are in nanoseconds. *)
Record SocketIOConfig := { CORSOrigins : string; PingTimeout : Z; PingInterval : Z }.
Record UploadConfig := { MaxFileSize : Z; UploadDir : string; BaseURL : string }.
Record LoggingConfig := { Level : string; Format : string }.

Record Config := {
  Server : ServerConfig;
  Redis : RedisConfig;
  SocketIO : SocketIOConfig;
  Upload : UploadConfig;
  Logging : LoggingConfig
}.

(** [&Config{}] *)
Definition zero : Config :=
  {| Server := {| Port := 0; Host := ""; Env := "" |};
     Redis := {| Addr := ""; Password := ""; DB := 0 |};
     SocketIO := {| CORSOrigins := ""; PingTimeout := 0; PingInterval := 0 |};
     Upload := {| MaxFileSize := 0; UploadDir := ""; BaseURL := "" |};
     Logging := {| Level := ""; Format := "" |} |}.

Definition with_Server (f : ServerConfig → ServerConfig) (c : Config) : Config :=
  {| Server := f (Server c); Redis := Redis c; SocketIO := SocketIO c;
     Upload := Upload c; Logging := Logging c |}.
Definition with_Redis (f : RedisConfig → RedisConfig) (c : Config) : Config :=
  {| Server := Server c; Redis := f (Redis c); SocketIO := SocketIO c;
     Upload := Upload c; Logging := Logging c |}.
Definition with_SocketIO (f : SocketIOConfig → SocketIOConfig) (c : Config) : Config :=
  {| Server := Server c; Redis := Redis c; SocketIO := f (SocketIO c);
     Upload := Upload c; Logging := Logging c |}.
Definition with_Upload (f : UploadConfig → UploadConfig) (c : Config) : Config :=
  {| Server := Server c; Redis := Redis c; SocketIO := SocketIO c;
     Upload := f (Upload c); Logging := Logging c |}.
Definition with_Logging (f : LoggingConfig → LoggingConfig) (c : Config) : Config :=
  {| Server := Server c; Redis := Redis c; SocketIO := SocketIO c;
     Upload := Upload c; Logging := f (Logging c) |}.

Definition set_Port (v : Z) : Config → Config :=
  with_Server (λ s, {| Port := v; Host := Host s; Env := Env s |}).
Definition set_Host (v : string) : Config → Config :=
  with_Server (λ s, {| Port := Port s; Host := v; Env := Env s |}).
Definition set_Env (v : string) : Config → Config :=
  with_Server (λ s, {| Port := Port s; Host := Host s; Env := v |}).
Definition set_Addr (v : string) : Config → Config :=
  with_Redis (λ r, {| Addr := v; Password := Password r; DB := DB r |}).
Definition set_Password (v : string) : Config → Config :=
  with_Redis (λ r, {| Addr := Addr r; Password := v; DB := DB r |}).
Definition set_DB (v : Z) : Config → Config :=
  with_Redis (λ r, {| Addr := Addr r; Password := Password r; DB := v |}).
Definition set_CORSOrigins (v : string) : Config → Config :=
  with_SocketIO (λ s,
    {| CORSOrigins := v; PingTimeout := PingTimeout s; PingInterval := PingInterval s |}).
Definition set_PingTimeout (v : Z) : Config → Config :=
  with_SocketIO (λ s,
    {| CORSOrigins := CORSOrigins s; PingTimeout := v; PingInterval := PingInterval s |}).
Definition set_PingInterval (v : Z) : Config → Config :=
  with_SocketIO (λ s,
    {| CORSOrigins := CORSOrigins s; PingTimeout := PingTimeout s; PingInterval := v |}).
Definition set_MaxFileSize (v : Z) : Config → Config :=
  with_Upload (λ u, {| MaxFileSize := v; UploadDir := UploadDir u; BaseURL := BaseURL u |}).
Definition set_UploadDir (v : string) : Config → Config :=
  with_Upload (λ u, {| MaxFileSize := MaxFileSize u; UploadDir := v; BaseURL := BaseURL u |}).
Definition set_BaseURL (v : string) : Config → Config :=
  with_Upload (λ u, {| MaxFileSize := MaxFileSize u; UploadDir := UploadDir u; BaseURL := v |}).
Definition set_Level (v : string) : Config → Config :=
  with_Logging (λ l, {| Level := v; Format := Format l |}).
Definition set_Format (v : string) : Config → Config :=
  with_Logging (λ l, {| Level := Level l; Format := v |}).

(** [time.Second], in nanoseconds. *)
Definition Second : Z := 1000000000.

(** *** strconv *)

(** The value of a decimal digit. *)
Definition digit (c : Ascii.ascii) : option Z :=
  let n := Z.of_nat (Ascii.nat_of_ascii c) in
  if bool_decide (48 ≤ n ≤ 57)%Z then Some (n - 48)%Z else None.

Fixpoint digits (acc : Z) (s : string) : option Z :=
  match s with
  | EmptyString => Some acc
  | String c s' =>
      match digit c with
      | Some d => digits (10 * acc + d)%Z s'
      | None => None
      end
  end.

(** [strconv.Atoi], and [strconv.ParseInt(s, 10, 64)], of the 64-bit
    platform: an optional sign, then decimal digits, at least one, and a
    value that fits [int64]; [None] is the error. *)
Definition Atoi (s : string) : option Z :=
  match s with
  | EmptyString => None
  | String c rest =>
      let neg := bool_decide (String c "" = "-") in
      let body := if neg || bool_decide (String c "" = "+") then rest else s in
      match body with
      | EmptyString => None
      | _ =>
          match digits 0 body with
          | Some v =>
              let v := if neg then (- v)%Z else v in
              if bool_decide (- 2 ^ 63 ≤ v ≤ 2 ^ 63 - 1)%Z then Some v else None
          | None => None
          end
      end
  end.

(** [strconv.Itoa] *)
Definition Itoa (n : Z) : string := pretty n.

(** [os.Getenv]: the empty string for a variable that is not set. *)
Definition Getenv (env : gmap string string) (key : string) : string :=
  default "" (env !! key).

(** *** config.go *)

(** [if v := os.Getenv(key); v != "" { set(v) }] *)
Definition env_string (env : gmap string string) (key : string)
    (set : string → Config → Config) (cfg : Config) : Config :=
  let v := Getenv env key in
  if bool_decide (v ≠ "") then set v cfg else cfg.

(** [if v := os.Getenv(key); v != "" { if n, err := Atoi(v); err == nil { set(n) } }] *)
Definition env_int (env : gmap string string) (key : string)
    (set : Z → Config → Config) (cfg : Config) : Config :=
  let v := Getenv env key in
  if bool_decide (v ≠ "") then
    match Atoi v with
    | Some n => set n cfg
    | None => cfg
    end
  else cfg.

Definition loadFromEnv (env : gmap string string) (cfg : Config) : Config :=
  let cfg := env_int env "PORT" set_Port cfg in
  let cfg := env_string env "HOST" set_Host cfg in
  let cfg := env_string env "ENV" set_Env cfg in
  let cfg := env_string env "REDIS_ADDR" set_Addr cfg in
  let cfg := env_string env "REDIS_PASSWORD" set_Password cfg in
  let cfg := env_int env "REDIS_DB" set_DB cfg in
  let cfg := env_string env "SOCKET_IO_CORS_ORIGINS" set_CORSOrigins cfg in
  let cfg := env_int env "MAX_FILE_SIZE" set_MaxFileSize cfg in
  let cfg := env_string env "UPLOAD_DIR" set_UploadDir cfg in
  let cfg := env_string env "LOG_LEVEL" set_Level cfg in
  env_string env "LOG_FORMAT" set_Format cfg.

(** [if c.f == "" { c.f = d }] and [if c.f == 0 { c.f = d }] *)
Definition default_string (get : Config → string) (set : string → Config → Config)
    (d : string) (c : Config) : Config :=
  if bool_decide (get c = "") then set d c else c.

Definition default_int (get : Config → Z) (set : Z → Config → Config)
    (d : Z) (c : Config) : Config :=
  if bool_decide (get c = 0%Z) then set d c else c.

Definition validate (c : Config) : Config * error :=
  let c := if bool_decide (Port (Server c) ≤ 0)%Z then set_Port 8080 c else c in
  let c := default_string (λ c, Host (Server c)) set_Host "localhost" c in
  let c := default_string (λ c, Env (Server c)) set_Env "development" c in
  let c := default_string (λ c, Addr (Redis c)) set_Addr "localhost:6379" c in
  let c := default_string (λ c, CORSOrigins (SocketIO c)) set_CORSOrigins "*" c in
  let c := default_int (λ c, PingTimeout (SocketIO c)) set_PingTimeout (60 * Second) c in
  let c := default_int (λ c, PingInterval (SocketIO c)) set_PingInterval (25 * Second) c in
  let c := default_int (λ c, MaxFileSize (Upload c)) set_MaxFileSize 10485760 c in
  let c := default_string (λ c, UploadDir (Upload c)) set_UploadDir "uploads/" c in
  let c := default_string (λ c, BaseURL (Upload c)) set_BaseURL "/uploads" c in
  let c := default_string (λ c, Level (Logging c)) set_Level "info" c in
  let c := default_string (λ c, Format (Logging c)) set_Format "json" c in
  (c, None).

(** [Load].  [file] is what [loadFromFile] leaves in the fresh [Config] and
    the error it returns; the warning of a failed read goes to the log, which
    is the last component. *)
Definition Load (file : Config * error) (env : gmap string string)
    : option Config * error * list (level * string) :=
  let '(cfg, err) := file in
  let warned :=
    match err with
    | Some _ => [(WarnLevel, "Failed to load config file, using defaults")]
    | None => []
    end in
  let cfg := loadFromEnv env cfg in
  match validate cfg with
  | (_, Some e) => (None, Some e, warned)
  | (cfg, None) => (Some cfg, None, warned)
  end.

Definition GetServerAddress (c : Config) : string :=
  Host (Server c) +:+ ":" +:+ Itoa (Port (Server c)).

Definition IsDevelopment (c : Config) : bool :=
  bool_decide (Env (Server c) = "development").

Definition IsProduction (c : Config) : bool :=
  bool_decide (Env (Server c) = "production").

(** Every field that [validate] looks at is set. *)
Definition complete (c : Config) : Prop :=
  (0 < Port (Server c))%Z
  ∧ Host (Server c) ≠ "" ∧ Env (Server c) ≠ ""
  ∧ Addr (Redis c) ≠ ""
  ∧ CORSOrigins (SocketIO c) ≠ ""
  ∧ PingTimeout (SocketIO c) ≠ 0%Z ∧ PingInterval (SocketIO c) ≠ 0%Z
  ∧ MaxFileSize (Upload c) ≠ 0%Z
  ∧ UploadDir (Upload c) ≠ "" ∧ BaseURL (Upload c) ≠ ""
  ∧ Level (Logging c) ≠ "" ∧ Format (Logging c) ≠ "".

(** The variables that [loadFromEnv] reads as strings: the name, the field
    it sets and the default [validate] gives that field. *)
Definition string_fields : list (string * (Config → string) * string) :=
  [("HOST", λ c, Host (Server c), "localhost");
   ("ENV", λ c, Env (Server c), "development");
   ("REDIS_ADDR", λ c, Addr (Redis c), "localhost:6379");
   ("REDIS_PASSWORD", λ c, Password (Redis c), "");
   ("SOCKET_IO_CORS_ORIGINS", λ c, CORSOrigins (SocketIO c), "*");
   ("UPLOAD_DIR", λ c, UploadDir (Upload c), "uploads/");
   ("LOG_LEVEL", λ c, Level (Logging c), "info");
   ("LOG_FORMAT", λ c, Format (Logging c), "json")].

(** The first of the strings that is not empty. *)
Fixpoint first_set (l : list string) : string :=
  match l with
  | [] => ""
  | s :: l' => if bool_decide (s = "") then first_set l' else s
  end.

End config.


(** ** File uploads *)

(** [filepath.Ext] where the separator is [/]: walking back from the end of
    the path, the suffix that starts at the first dot met before a separator. *)
Fixpoint ext_scan (rev_path suffix : list Ascii.ascii) : list Ascii.ascii :=
  match rev_path with
  | [] => []
  | c :: rest =>
      if bool_decide (String c "" = "/") then []
      else if bool_decide (String c "" = ".") then c :: suffix
      else ext_scan rest (c :: suffix)
  end.

Definition Ext (path : string) : string :=
  String.string_of_list_ascii (ext_scan (reverse (String.list_ascii_of_string path)) []).

(** [strings.TrimSuffix] *)
Definition TrimSuffix (s suffix : string) : string :=
  let l := String.list_ascii_of_string s in
  let x := String.list_ascii_of_string suffix in
  if bool_decide (x `suffix_of` l)
  then String.string_of_list_ascii (take (length l - length x) l)
  else s.

(** [s[:n]]: it panics, here [None], on a string shorter than [n]. *)
Definition slice_to (n : nat) (s : string) : option string :=
  if bool_decide (n ≤ String.length s) then Some (String.substring 0 n s) else None.

(** One call of [os.WriteFile], or of [SaveUploadedFile], and whether it
    succeeded. *)
Record disk_write := DiskWrite {
  dw_path : string;
  dw_data : list Byte.byte;
  dw_ok : bool
}.

(** [*multipart.FileHeader] *)
Record FileHeader := {
  Filename : string;
  file_content : list Byte.byte
}.

Definition Size (file : FileHeader) : Z := Z.of_nat (length (file_content file)).

(** What [c.JSON] answers. *)
Inductive response :=
  | StatusBadRequest (error : string)
  | StatusInternalServerError (error : string)
  | StatusOK (fileURL fileName : string) (fileSize : Z).

Section Upload.

Variable clock : nat → Z.
Variable redis_ok : nat → bool.
(** [base64.StdEncoding.DecodeString]; [None] is its error. *)
Variable DecodeString : string → option (list Byte.byte).
(** [filepath.Join] *)
Variable Join : string → string → string.
(** Whether the n-th write to the disk succeeds. *)
Variable write_ok : nat → bool.

(** The socket handler of ["file_upload"].  [cfg] is the [config] field of
    the handler, [written] the writes to the disk so far; [None] is a panic. *)
Definition handleFileUpload (cfg : config.Config) (client : string) (args : list any)
    (written : list disk_write) (h : SocketIOHandler)
    : option (list disk_write * SocketIOHandler) :=
  match first_map args with
  | NoArgs => Some (written, sendError client "No file data" h)
  | NotAMap => Some (written, sendError client "Invalid file data" h)
  | IsMap data =>
      let fileName := str_field data "fileName" in
      let fileData := str_field data "fileData" in
      let fileType := str_field data "fileType" in
      let sender := str_field data "sender" in
      let roomID := str_field data "roomId" in
      if bool_decide (fileName = "") || bool_decide (fileData = "")
         || bool_decide (sender = "") then
        Some (written, sendError client "Invalid file data" h)
      else
        match DecodeString fileData with
        | None =>
            let h := log ErrorLevel "Failed to decode file data" h in
            Some (written, sendError client "Invalid file data" h)
        | Some decodedData =>
            let size := Z.of_nat (length decodedData) in
            let max := config.MaxFileSize (config.Upload cfg) in
            if bool_decide (size > max)%Z then
              Some (written,
                    sendError client
                      ("File too large, max size is " +:+ pretty max +:+ " bytes") h)
            else
              let '(now, h) := time_Now clock h in
              let timestamp := Unix now in
              let ext := Ext fileName in
              let baseName := TrimSuffix fileName ext in
              let '(id, h) := generateMessageID clock h in
              match slice_to 8 id with
              | None => None
              | Some id8 =>
                  let uniqueFileName :=
                    baseName +:+ "_" +:+ pretty timestamp +:+ "_" +:+ id8 +:+ ext in
                  let filePath := Join (config.UploadDir (config.Upload cfg)) uniqueFileName in
                  let ok := write_ok (length written) in
                  let written := written ++ [DiskWrite filePath decodedData ok] in
                  if negb ok then
                    let h := log ErrorLevel "Failed to save file" h in
                    Some (written, sendError client "Failed to save file" h)
                  else
                    let fileURL :=
                      config.BaseURL (config.Upload cfg) +:+ "/" +:+ uniqueFileName in
                    let '(id, h) := generateMessageID clock h in
                    let '(now, h) := time_Now clock h in
                    let message :=
                      {| ID := id; Type_ := FileMessage;
                         Content := "File: " +:+ fileName; Sender := sender;
                         Room := roomID; Receiver := ""; Timestamp := now;
                         Metadata :=
                           Some {| FileName := fileName; FileURL := fileURL;
                                   FileType := fileType; FileSize := size |} |} in
                    match StoreMessage redis_ok message (redisService h) with
                    | (Some err, r) =>
                        let h := with_redis r h in
                        let h := log ErrorLevel "Failed to store file message" h in
                        Some (written, sendError client "Failed to send file" h)
                    | (None, r) =>
                        let h := with_redis r h in
                        let h := broadcastMessage message h in
                        Some (written, log InfoLevel "File uploaded and message sent" h)
                    end
              end
        end
  end.

(** The HTTP handler [HandleFileUpload].  [form] is what
    [c.FormFile("file")] finds. *)
Definition HandleFileUpload (cfg : config.Config) (form : option FileHeader)
    (written : list disk_write) (h : SocketIOHandler)
    : option (response * list disk_write * SocketIOHandler) :=
  match form with
  | None => Some (StatusBadRequest "No file uploaded", written, h)
  | Some file =>
      if bool_decide (Size file > config.MaxFileSize (config.Upload cfg))%Z then
        Some (StatusBadRequest "File too large", written, h)
      else
        let '(now, h) := time_Now clock h in
        let timestamp := Unix now in
        let ext := Ext (Filename file) in
        let baseName := TrimSuffix (Filename file) ext in
        let '(id, h) := generateMessageID clock h in
        match slice_to 8 id with
        | None => None
        | Some id8 =>
            let uniqueFileName :=
              baseName +:+ "_" +:+ pretty timestamp +:+ "_" +:+ id8 +:+ ext in
            let filePath := Join (config.UploadDir (config.Upload cfg)) uniqueFileName in
            let ok := write_ok (length written) in
            let written := written ++ [DiskWrite filePath (file_content file) ok] in
            if negb ok then
              let h := log ErrorLevel "Failed to save uploaded file" h in
              Some (StatusInternalServerError "Failed to save file", written, h)
            else
              let fileURL :=
                config.BaseURL (config.Upload cfg) +:+ "/" +:+ uniqueFileName in
              Some (StatusOK fileURL (Filename file) (Size file), written, h)
        end
  end.

End Upload.

(** A clock that has left the first hundredth of a second of 1970 behind:
    its readings have at least eight digits. *)
Definition clock_past_epoch (clock : nat → Z) : Prop := ∀ n, (10 ^ 7 ≤ clock n)%Z.

(** The rooms and the two maps of the handler. *)
Definition registry (h : SocketIOHandler)
    : gmap string (gset string) * gmap string User * gmap string (list string) :=
  (server h, sessions h, userSessions h).

(** What [broadcastMessage] does with a message that has no receiver. *)
Definition to_room_or_all (m : Message) : emission :=
  Emit (if bool_decide (Room m ≠ "") then ToRoom (Room m) else ToAll) "message" (PMessage m).

Definition error_to (client : string) (e : emission) : Prop :=
  ∃ msg, e = Emit (ToClient client) "error" (PError msg).

Module UploadFixtures.

(** A decoder that knows the encoding of one file. *)
Definition decode_hello (s : string) : option (list Byte.byte) :=
  if bool_decide (s = "aGVsbG8=") then Some (String.list_byte_of_string "hello") else None.

(** Joining a directory that ends in a separator with a clean name. *)
Definition join_plain (dir name : string) : string := dir +:+ name.

Definition disk_up : nat → bool := λ _, true.

Definition upload_data (fileName fileData sender roomId : string) : gmap string value :=
  <["fileName" := VString fileName]>
    (<["fileData" := VString fileData]>
      (<["fileType" := VString "text/plain"]>
        (<["sender" := VString sender]>
          (<["roomId" := VString roomId]> ∅)))).

Definition upload_args (fileName fileData sender roomId : string) : list any :=
  [AMap (upload_data fileName fileData sender roomId)].

(** The configuration of a process started with no file and no variable. *)
Definition defaults : config.Config := (config.validate config.zero).1.

End UploadFixtures.

(** ** main.go: the routes that read Redis *)

(** What a route answers with [c.JSON]. *)
Inductive api_response :=
  | ApiError (status : Z) (error : string)
  | ApiMembers (members : list string)        (* 200 {"members": members} *)
  | ApiMessage (message : option Message).    (* 200 and the message, [None] is nil *)

(** [GET /api/rooms/:roomId/members] *)
Definition api_room_members (redis_ok : nat → bool) (roomID : string) (r : RedisService)
    : api_response * RedisService :=
  match GetRoomMembers redis_ok roomID r with
  | ((_, Some err), r) => (ApiError 500 err, r)
  | ((members, None), r) => (ApiMembers members, r)
  end.

(** [GET /api/messages/:messageId] *)
Definition api_message (redis_ok : nat → bool) (messageID : string) (r : RedisService)
    : api_response * RedisService :=
  match GetMessage redis_ok messageID r with
  | ((_, Some _), r) => (ApiError 404 "Message not found", r)
  | ((message, None), r) => (ApiMessage message, r)
  end.

(** The members Redis holds of a room. *)
Definition room_set (h : SocketIOHandler) (room : string) : gset string :=
  default ∅ (sets (redisService h) !! ("room_members:" +:+ room)).

Definition is_leave_room (e : event) : bool :=
  match e with
  | ClientEmit _ (EvLeaveRoom _) => true
  | _ => false
  end.

(** * Properties *)

(** ** Emissions of the helpers *)

Lemma emit_all_nil h : emit_all [] h = h.
Proof. destruct h; unfold emit_all; simpl. by rewrite app_nil_r. Qed.

Lemma emit_all_app es1 es2 h : emit_all es2 (emit_all es1 h) = emit_all (es1 ++ es2) h.
Proof. unfold emit_all; simpl. by rewrite app_assoc. Qed.

Lemma emit_emit_all t ev d h : emit t ev d h = emit_all [Emit t ev d] h.
Proof. reflexivity. Qed.

Lemma addressed_none l : addressed "" l = l.
Proof.
  unfold addressed. induction l as [|s l IH]; [done|].
  rewrite filter_cons_True; [by rewrite IH | intros [? _]; done].
Qed.


Lemma broadcastToUserDevices_emit_all userName event data ex h :
  broadcastToUserDevices userName event data ex h =
  emit_all (map (λ s, Emit (ToRoom s) event data) (addressed ex (devicesOf h userName))) h.
Proof.
  unfold broadcastToUserDevices, devicesOf.
  destruct (userSessions h !! userName) as [l|]; simpl; [|by rewrite emit_all_nil].
  revert h. induction l as [|s l IH]; intros h; simpl.
  - by rewrite emit_all_nil.
  - unfold addressed. rewrite IH.
    destruct (decide (ex ≠ "" ∧ s = ex)) as [[H1 H2]|Hn].
    + rewrite filter_cons_False by (intros Hn; by apply Hn).
      rewrite (bool_decide_eq_true_2 _ H1), (bool_decide_eq_true_2 _ H2). done.
    + rewrite filter_cons_True by done.
      assert (bool_decide (ex ≠ "") && bool_decide (s = ex) = false) as ->.
      { apply andb_false_iff. rewrite !bool_decide_eq_false. 
        destruct (decide (ex ≠ "")) as [Hex|Hex]; [right|by left].
        intros ->. by apply Hn. }
      rewrite emit_emit_all, emit_all_app. done.
Qed.

Lemma broadcastMessage_emit_all message h :
  broadcastMessage message h = emit_all (broadcast_of h message) h.
Proof.
  unfold broadcastMessage, broadcast_of.
  repeat case_bool_decide; try done.
  by rewrite broadcastToUserDevices_emit_all, addressed_none.
Qed.

(** ** The path of a message *)



(** ** [handleMessage] *)

Lemma handleMessage_loop_S clock redis_ok client messageType content sender roomID
    receiver n i h :
  handleMessage_loop clock redis_ok client messageType content sender roomID receiver
    (S n) i h =
  let '(id, h) := generateMessageID clock h in
  let '(now, h) := time_Now clock h in
  let message :=
    {| ID := id; Type_ := messageType; Content := content; Sender := sender;
       Room := roomID; Receiver := receiver; Timestamp := now; Metadata := None |} in
  match StoreMessage redis_ok message (redisService h) with
  | (Some err, r) =>
      sendError client "Failed to send message"
        (log ErrorLevel "Failed to store message" (with_redis r h))
  | (None, r) =>
      handleMessage_loop clock redis_ok client messageType content sender roomID receiver
        n (S i)
        (log InfoLevel "Message sent"
           (broadcastMessage
              (set_Content (content +:+ "Message " +:+ pretty i) message)
              (with_redis r h)))
  end.
Proof. reflexivity. Qed.

Lemma chat_only_refl h : chat_only h h.
Proof.
  unfold chat_only. split_and!; try done.
  exists []. by rewrite app_nil_r.
Qed.

Lemma chat_only_trans h1 h2 h3 : chat_only h1 h2 → chat_only h2 h3 → chat_only h1 h3.
Proof.
  intros (A1 & A2 & A3 & A4 & A5 & es & A6 & A7) (B1 & B2 & B3 & B4 & B5 & es' & B6 & B7).
  unfold chat_only. split_and!; try congruence.
  exists (es ++ es'). split; [by rewrite B6, A6, app_assoc|by apply Forall_app].
Qed.

Ltac events_ok :=
  repeat (apply List.Forall_cons; [first [by left | by right]|]); apply List.Forall_nil.

Lemma broadcast_of_events h message :
  Forall (λ e, em_event e = "message" ∨ em_event e = "error") (broadcast_of h message).
Proof.
  unfold broadcast_of. repeat case_bool_decide; [events_ok| |events_ok].
  apply Forall_map, Forall_forall. intros; by left.
Qed.

Lemma broadcastMessage_chat_only message h : chat_only h (broadcastMessage message h).
Proof.
  rewrite broadcastMessage_emit_all. unfold chat_only; simpl. split_and!; try done.
  eexists; split; [done|apply broadcast_of_events].
Qed.

Lemma handleMessage_loop_chat_only clock redis_ok client messageType content sender
    roomID receiver n : ∀ i h,
  chat_only h
    (handleMessage_loop clock redis_ok client messageType content sender roomID
       receiver n i h).
Proof.
  induction n as [|n IH]; intros i h; [apply chat_only_refl|].
  rewrite handleMessage_loop_S. unfold generateMessageID, time_Now, StoreMessage.
  cbn [redisService cmds].
  destruct (redis_ok (cmds (redisService h))).
  - eapply chat_only_trans; [|apply IH].
    eapply chat_only_trans; [|unfold chat_only; cbn; split_and!; try done;
      exists []; by rewrite app_nil_r].
    eapply chat_only_trans; [|apply broadcastMessage_chat_only].
    unfold chat_only; cbn. split_and!; try done. exists []. by rewrite app_nil_r.
  - unfold chat_only; cbn. split_and!; try done.
    eexists; split; [done|]. events_ok.
Qed.

Lemma handleMessage_chat_only clock redis_ok client args h :
  chat_only h (handleMessage clock redis_ok client args h).
Proof.
  unfold handleMessage.
  destruct (first_map args) as [| |data].
  1,2: unfold chat_only; cbn; split_and!; try done;
       eexists; split; [done|]; events_ok.
  destruct (bool_decide _ || bool_decide _).
  - unfold chat_only; cbn; split_and!; try done.
    eexists; split; [done|]; events_ok.
  - apply handleMessage_loop_chat_only.
Qed.

(** C3: whatever a client sends as ["message"], on whatever state, the
    handler publishes nothing on Redis: the publications after the call are
    the publications before it. *)
Theorem handleMessage_publishes_nothing (clock : nat → Z) (redis_ok : nat → bool)
    (client : string) (args : list any) (h : SocketIOHandler) :
  published (redisService (handleMessage clock redis_ok client args h))
  = published (redisService h).
Proof. by destruct (handleMessage_chat_only clock redis_ok client args h) as (_&_&_&?&_). Qed.

(** C4: a ["message"] whose content or sender is empty gets one ["error"]
    event, sent to the client that sent it and reaching nobody else; nothing
    else is emitted, no command goes to Redis, and the registry, the store,
    the rooms and the log are as before. *)
Theorem handleMessage_invalid (clock : nat → Z) (redis_ok : nat → bool)
    (client : string) (args : list any) (data : gmap string value)
    (h : SocketIOHandler) :
  first_map args = IsMap data →
  str_field data "content" = "" ∨ str_field data "sender" = "" →
  let h' := handleMessage clock redis_ok client args h in
  emitted h' = emitted h ++ [Emit (ToClient client) "error" (PError "Invalid message data")]
  ∧ (∀ sid, reaches (server h') (ToClient client) sid = true → sid = client)
  ∧ sessions h' = sessions h
  ∧ userSessions h' = userSessions h
  ∧ redisService h' = redisService h
  ∧ server h' = server h
  ∧ logged h' = logged h.
Proof.
  intros Hargs Hempty h'. subst h'. unfold handleMessage. rewrite Hargs.
  assert (bool_decide (str_field data "content" = "")
          || bool_decide (str_field data "sender" = "") = true) as ->.
  { apply orb_true_iff. rewrite !bool_decide_eq_true. done. }
  cbn. split_and!; try done.
  intros sid Hr. apply andb_true_iff in Hr as [Hr _].
  by apply bool_decide_eq_true in Hr.
Qed.

(** ** Concrete runs *)

(** C1, at a valid message "hi" from alice to room "general" with Redis
    up: the handler emits ten ["message"] events, none with the content
    "hi"; the socket in the room is reached ten times; ten messages are
    stored. *)
Theorem handleMessage_ten_messages :
  let h := Fixtures.alice_in_general Fixtures.redis_up in
  let h' := handleMessage Fixtures.wall Fixtures.redis_up "s1"
              (Fixtures.message_args "hi" "alice" "general" "") h in
  map (λ e, (em_event e, Content <$> message_of (em_data e))) (emitted_since h h')
  = [("message", Some "hiMessage 0"); ("message", Some "hiMessage 1");
     ("message", Some "hiMessage 2"); ("message", Some "hiMessage 3");
     ("message", Some "hiMessage 4"); ("message", Some "hiMessage 5");
     ("message", Some "hiMessage 6"); ("message", Some "hiMessage 7");
     ("message", Some "hiMessage 8"); ("message", Some "hiMessage 9")]
  ∧ length (filter (λ e, reaches (server h') (em_target e) "s1" = true)
              (emitted_since h h')) = 10
  ∧ size (filter (λ kv, stored_content kv.2 = Some "hi") (kv (redisService h'))) = 10.
Proof. vm_compute. done. Qed.

Lemma emitted_since_app h h' es : emitted h' = emitted h ++ es → emitted_since h h' = es.
Proof. intros H. unfold emitted_since. rewrite H. apply drop_app_length. Qed.

(** With Redis up for the [n] stores, the loop broadcasts [n] messages, the
    one of turn [i] with "Message i" after the content. *)
Lemma handleMessage_loop_stored clock redis_ok client messageType content sender roomID
    receiver n : ∀ i h,
  (∀ j, j < n → redis_ok (cmds (redisService h) + j) = true) →
  emitted (handleMessage_loop clock redis_ok client messageType content sender roomID
             receiver n i h)
  = emitted h
    ++ flat_map (broadcast_of h)
         (loop_messages clock messageType content sender roomID receiver n i (ticks h)).
Proof.
  induction n as [|n IH]; intros i h Hup; [cbn; by rewrite app_nil_r|].
  rewrite handleMessage_loop_S. unfold generateMessageID, time_Now, StoreMessage.
  cbn [redisService cmds].
  pose proof (Hup 0 (Nat.lt_0_succ n)) as H0. rewrite Nat.add_0_r in H0. rewrite H0.
  rewrite broadcastMessage_emit_all.
  match goal with |- emitted (handleMessage_loop _ _ _ _ _ _ _ _ _ _ ?h1) = _ =>
    set (hn := h1) end.
  rewrite (IH (S i) hn).
  - cbn [loop_messages flat_map]. rewrite app_assoc. reflexivity.
  - intros j Hj. cbn. rewrite <- Nat.add_succ_r. apply Hup. lia.
Qed.

Lemma loop_messages_length clock messageType content sender roomID receiver n : ∀ i t,
  length (loop_messages clock messageType content sender roomID receiver n i t) = n.
Proof. induction n as [|n IH]; intros i t; cbn; [done|by rewrite IH]. Qed.

Lemma loop_messages_content clock messageType content sender roomID receiver n : ∀ i t k m,
  loop_messages clock messageType content sender roomID receiver n i t !! k = Some m →
  Content m = content +:+ "Message " +:+ pretty (i + k).
Proof.
  induction n as [|n IH]; intros i t k m; cbn; [done|].
  destruct k as [|k]; cbn.
  - intros [= <-]. cbn. by rewrite Nat.add_0_r.
  - intros H. apply IH in H. by rewrite Nat.add_succ_r.
Qed.

Lemma loop_messages_fields clock messageType content sender roomID receiver n : ∀ i t m,
  m ∈ loop_messages clock messageType content sender roomID receiver n i t →
  Room m = roomID ∧ Receiver m = receiver ∧ Sender m = sender.
Proof.
  induction n as [|n IH]; intros i t m; cbn; [by intros ?%not_elem_of_nil|].
  intros [->|H]%elem_of_cons; [done|]. by eapply IH.
Qed.

(** For every valid ["message"] with Redis up for ten stores, what the
    handler emits is the broadcast of ten messages, the k-th with the content
    followed by "Message k". *)
Lemma handleMessage_broadcasts_ten clock redis_ok client args data h :
  first_map args = IsMap data →
  str_field data "content" ≠ "" →
  str_field data "sender" ≠ "" →
  (∀ j, j < 10 → redis_ok (cmds (redisService h) + j) = true) →
  ∃ ms, length ms = 10
    ∧ (∀ k m, ms !! k = Some m →
         Content m = str_field data "content" +:+ "Message " +:+ pretty k)
    ∧ emitted_since h (handleMessage clock redis_ok client args h)
      = flat_map (broadcast_of h) ms.
Proof.
  intros Hargs Hc Hs Hup. unfold handleMessage. rewrite Hargs.
  rewrite (bool_decide_eq_false_2 _ Hc), (bool_decide_eq_false_2 _ Hs). cbn [orb].
  exists (loop_messages clock (str_field data "type") (str_field data "content")
            (str_field data "sender") (str_field data "roomId")
            (str_field data "receiver") 10 0 (ticks h)).
  split; [apply loop_messages_length|]. split.
  - intros k m H. apply loop_messages_content in H. exact H.
  - apply emitted_since_app. by apply handleMessage_loop_stored.
Qed.

(** C4 at a message with empty content from alice. *)
Lemma handleMessage_invalid_witness :
  let h := Fixtures.alice_in_general Fixtures.redis_up in
  let h' := handleMessage Fixtures.wall Fixtures.redis_up "s1"
              (Fixtures.message_args "" "alice" "general" "") h in
  emitted h' = emitted h ++ [Emit (ToClient "s1") "error" (PError "Invalid message data")]
  ∧ (∀ sid, reaches (server h') (ToClient "s1") sid = true → sid = "s1")
  ∧ sessions h' = sessions h
  ∧ userSessions h' = userSessions h
  ∧ redisService h' = redisService h
  ∧ server h' = server h
  ∧ logged h' = logged h.
Proof.
  apply (handleMessage_invalid Fixtures.wall Fixtures.redis_up "s1"
           (Fixtures.message_args "" "alice" "general" "")
           (<["type" := VString "text"]>
             (<["content" := VString ""]>
               (<["sender" := VString "alice"]>
                 (<["roomId" := VString "general"]>
                   (<["receiver" := VString ""]> ∅)))))).
  - reflexivity.
  - left. reflexivity.
Defined.

(** ** The target of a message *)




(** ** A store that fails *)

(** C2 fails: Redis goes down after alice has joined room "general"; her
    message "hi" to the room is not delivered and she gets an ["error"]. *)
Lemma store_failure_not_absorbed :
  let h := Fixtures.alice_in_general (Fixtures.redis_until 3) in
  Fixtures.redis_until 3 (cmds (redisService h)) = false
  ∧ ¬ store_failure_absorbed Fixtures.wall (Fixtures.redis_until 3) "s1"
        (Fixtures.message_args "hi" "alice" "general" "") h.
Proof.
  split; [reflexivity|]. intros (Hyes & Hno).
  apply (Hno (Emit (ToClient "s1") "error" (PError "Failed to send message"))).
  - vm_compute. apply list_elem_of_here.
  - reflexivity.
Qed.

(** The loop when the store of turn [k] fails after [k] stores that
    succeeded. *)
Lemma handleMessage_loop_fails clock redis_ok client messageType content sender roomID
    receiver : ∀ k n i h,
  k < n →
  (∀ j, j < k → redis_ok (cmds (redisService h) + j) = true) →
  redis_ok (cmds (redisService h) + k) = false →
  let h' := handleMessage_loop clock redis_ok client messageType content sender roomID
              receiver n i h in
  let before := loop_messages clock messageType content sender roomID receiver k i
                  (ticks h) in
  emitted h' = emitted h ++ flat_map (broadcast_of h) before
                 ++ [Emit (ToClient client) "error" (PError "Failed to send message")]
  ∧ logged h' = logged h ++ replicate k (InfoLevel, "Message sent")
                  ++ [(ErrorLevel, "Failed to store message")]
  ∧ kv (redisService h') = stored_after content before (kv (redisService h))
  ∧ cmds (redisService h') = cmds (redisService h) + k + 1
  ∧ sets (redisService h') = sets (redisService h)
  ∧ published (redisService h') = published (redisService h)
  ∧ sessions h' = sessions h
  ∧ userSessions h' = userSessions h
  ∧ server h' = server h.
Proof.
  induction k as [|k IH]; intros n i h Hk Hup Hdown; (destruct n as [|n]; [lia|]);
    rewrite handleMessage_loop_S; unfold generateMessageID, time_Now, StoreMessage;
    cbn [redisService cmds].
  - rewrite Nat.add_0_r in Hdown. rewrite Hdown. cbn. rewrite Nat.add_0_r.
    split_and!; try done. lia.
  - pose proof (Hup 0 (Nat.lt_0_succ k)) as H0. rewrite Nat.add_0_r in H0. rewrite H0.
    rewrite broadcastMessage_emit_all.
    match goal with |- context [handleMessage_loop _ _ _ _ _ _ _ _ _ _ ?h1] =>
      set (hn := h1) end.
    destruct (IH n (S i) hn) as (E1 & E2 & E3 & E4 & E5 & E6 & E7 & E8 & E9).
    + lia.
    + intros j Hj. cbn. rewrite <- Nat.add_succ_r. apply Hup. lia.
    + cbn. rewrite <- Nat.add_succ_r. exact Hdown.
    + rewrite E1, E2, E3, E4, E5, E6, E7, E8, E9. cbn.
      rewrite <- !app_assoc. split_and!; try done. lia.
Qed.

(** C2 as the code has it: when the store of a valid message fails, the
    handler logs the failure, sends one ["error"] event ("Failed to send
    message") to the client that sent the message, and returns.  The store
    that fails may be any of the ten of the call, the one of turn [k]: the
    message of that turn and of the turns after it is neither stored nor
    broadcast; what the [k] turns before it stored and broadcast stays, and
    that is all the call stores and emits.  The registry is as before. *)
Theorem handleMessage_store_failure (clock : nat → Z) (redis_ok : nat → bool)
    (client : string) (args : list any) (data : gmap string value)
    (h : SocketIOHandler) (k : nat) :
  first_map args = IsMap data →
  str_field data "content" ≠ "" →
  str_field data "sender" ≠ "" →
  k < 10 →
  (∀ j, j < k → redis_ok (cmds (redisService h) + j) = true) →
  redis_ok (cmds (redisService h) + k) = false →
  let h' := handleMessage clock redis_ok client args h in
  let before :=
    loop_messages clock (str_field data "type") (str_field data "content")
      (str_field data "sender") (str_field data "roomId") (str_field data "receiver")
      k 0 (ticks h) in
  emitted h' = emitted h ++ flat_map (broadcast_of h) before
                 ++ [Emit (ToClient client) "error" (PError "Failed to send message")]
  ∧ logged h' = logged h ++ replicate k (InfoLevel, "Message sent")
                  ++ [(ErrorLevel, "Failed to store message")]
  ∧ kv (redisService h')
    = stored_after (str_field data "content") before (kv (redisService h))
  ∧ cmds (redisService h') = cmds (redisService h) + k + 1
  ∧ published (redisService h') = published (redisService h)
  ∧ sessions h' = sessions h
  ∧ userSessions h' = userSessions h
  ∧ server h' = server h.
Proof.
  intros Hargs Hc Hs Hk Hup Hdown h'. subst h'. unfold handleMessage. rewrite Hargs.
  rewrite (bool_decide_eq_false_2 _ Hc), (bool_decide_eq_false_2 _ Hs).
  cbn [orb].
  destruct (handleMessage_loop_fails clock redis_ok client (str_field data "type")
              (str_field data "content") (str_field data "sender")
              (str_field data "roomId") (str_field data "receiver") k 10 0 h Hk Hup Hdown)
    as (E1 & E2 & E3 & E4 & _ & E6 & E7 & E8 & E9).
  by split_and!.
Qed.

Lemma handleMessage_store_failure_witness :
  let data : gmap string value :=
    <["type" := VString "text"]>
      (<["content" := VString "hi"]>
        (<["sender" := VString "alice"]>
          (<["roomId" := VString "general"]>
            (<["receiver" := VString ""]> ∅)))) in
  let h := Fixtures.alice_in_general (Fixtures.redis_until 6) in
  let h' := handleMessage Fixtures.wall (Fixtures.redis_until 6) "s1"
              (Fixtures.message_args "hi" "alice" "general" "") h in
  let before :=
    loop_messages Fixtures.wall (str_field data "type") (str_field data "content")
      (str_field data "sender") (str_field data "roomId") (str_field data "receiver")
      3 0 (ticks h) in
  emitted h' = emitted h ++ flat_map (broadcast_of h) before
                 ++ [Emit (ToClient "s1") "error" (PError "Failed to send message")]
  ∧ logged h' = logged h ++ replicate 3 (InfoLevel, "Message sent")
                  ++ [(ErrorLevel, "Failed to store message")]
  ∧ kv (redisService h')
    = stored_after (str_field data "content") before (kv (redisService h))
  ∧ cmds (redisService h') = cmds (redisService h) + 3 + 1
  ∧ published (redisService h') = published (redisService h)
  ∧ sessions h' = sessions h
  ∧ userSessions h' = userSessions h
  ∧ server h' = server h.
Proof.
  intros data h.
  apply (handleMessage_store_failure Fixtures.wall (Fixtures.redis_until 6) "s1"
           (Fixtures.message_args "hi" "alice" "general" "") data h 3).
  - reflexivity.
  - vm_compute. discriminate.
  - vm_compute. discriminate.
  - lia.
  - intros j Hj. destruct j as [|[|[|j]]]; [reflexivity..|lia].
  - reflexivity.
Defined.

(** ** The relay subscriber *)

(** C8 fails: alice, connected as "s1" and in room "general", gets the
    message with the one id twice. *)
Lemma relay_not_deduplicated :
  let h := Fixtures.alice_in_general Fixtures.redis_up in
  subscribed (redisService h) = true
  ∧ is_Some (server h !! "s1")
  ∧ ¬ relay_deduplicated Fixtures.wall Fixtures.redis_up hello_general h.
Proof.
  split; [reflexivity|]. split; [by eexists|].
  intros H. specialize (H "s1"). vm_compute in H. lia.
Qed.

Lemma deliveries_app srv es1 es2 id sid :
  deliveries srv (es1 ++ es2) id sid = deliveries srv es1 id sid + deliveries srv es2 id sid.
Proof. unfold deliveries. by rewrite filter_app, length_app. Qed.

Lemma broadcast_of_emit_all h es message :
  broadcast_of (emit_all es h) message = broadcast_of h message.
Proof. reflexivity. Qed.

(** C8 as the code has it: the subscriber hands every envelope it receives
    to [broadcastMessage] and keeps no record of message ids, so the same
    envelope received twice is broadcast twice, and every socket gets it
    twice as often as from one arrival. *)
Theorem relay_twice_delivers_twice (clock : nat → Z) (redis_ok : nat → bool)
    (message : Message) (h : SocketIOHandler) :
  subscribed (redisService h) = true →
  let h' := relay_twice clock redis_ok message h in
  emitted h' = emitted h ++ broadcast_of h message ++ broadcast_of h message
  ∧ server h' = server h
  ∧ ∀ sid,
      deliveries (server h) (emitted_since h h') (ID message) sid
      = 2 * deliveries (server h) (broadcast_of h message) (ID message) sid.
Proof.
  intros Hsub h'.
  assert (emitted h' = emitted h ++ broadcast_of h message ++ broadcast_of h message
          ∧ server h' = server h) as [Hem Hsrv].
  { subst h'. unfold relay_twice, run. cbn [foldl step]. rewrite Hsub.
    cbn [relay_receive]. rewrite broadcastMessage_emit_all.
    cbn [redisService emit_all]. rewrite Hsub.
    rewrite broadcastMessage_emit_all, broadcast_of_emit_all, emit_all_app. done. }
  split_and!; try done.
  intros sid. rewrite (emitted_since_app _ _ _ Hem), deliveries_app. lia.
Qed.

Lemma relay_twice_delivers_twice_witness :
  let h := Fixtures.alice_in_general Fixtures.redis_up in
  let h' := relay_twice Fixtures.wall Fixtures.redis_up hello_general h in
  emitted h' = emitted h ++ broadcast_of h hello_general ++ broadcast_of h hello_general
  ∧ server h' = server h
  ∧ ∀ sid,
      deliveries (server h) (emitted_since h h') (ID hello_general) sid
      = 2 * deliveries (server h) (broadcast_of h hello_general) (ID hello_general) sid.
Proof.
  apply (relay_twice_delivers_twice Fixtures.wall Fixtures.redis_up hello_general
           (Fixtures.alice_in_general Fixtures.redis_up)).
  reflexivity.
Defined.

(** ** The registry *)

Lemma index_of_Some sessionID l i :
  index_of sessionID l = Some i → l !! i = Some sessionID.
Proof.
  revert i. induction l as [|s l IH]; intros i; simpl; [done|].
  case_decide as Hs; [intros [= <-]; by subst|].
  destruct (index_of sessionID l) as [j|]; simpl; [|done].
  intros [= <-]. by apply IH.
Qed.

Lemma index_of_None sessionID l : index_of sessionID l = None ↔ sessionID ∉ l.
Proof.
  induction l as [|s l IH]; simpl.
  - split; [intros _; apply not_elem_of_nil|done].
  - rewrite not_elem_of_cons. case_decide as Hs.
    + split; [done|]. intros [Hne _]. by destruct Hne.
    + destruct (index_of sessionID l); simpl.
      * split; [done|]. intros [_ Hn]. by apply IH in Hn.
      * split; [|done]. intros _. split; [done|]. by apply IH.
Qed.

Lemma index_of_elem sessionID l :
  sessionID ∈ l → ∃ i, index_of sessionID l = Some i.
Proof.
  intros Hin. destruct (index_of sessionID l) as [i|] eqn:E; [by exists i|].
  by apply index_of_None in E.
Qed.

(** A session other than the removed one stays. *)
Lemma elem_of_delete_other (l : list string) i s x :
  l !! i = Some s → x ∈ l → x ≠ s → x ∈ delete i l.
Proof.
  intros Hi Hx Hne. apply delete_Permutation in Hi.
  rewrite Hi in Hx. apply elem_of_cons in Hx as [->|Hx]; done.
Qed.

Lemma append_session (us : gmap string (list string)) userName sessionID :
  let us1 := match us !! userName with
             | None => <[userName := []]> us
             | Some _ => us
             end in
  <[userName := default [] (us1 !! userName) ++ [sessionID]]> us1
  = <[userName := default [] (us !! userName) ++ [sessionID]]> us.
Proof.
  simpl. destruct (us !! userName) as [l|] eqn:E; [by rewrite E|].
  by rewrite lookup_insert_eq, insert_insert_eq.
Qed.

(** What an accepted ["join"] does. *)
Lemma on_join_accepted clock redis_ok sessionID args data h :
  first_map args = IsMap data →
  str_field data "userName" ≠ "" →
  let userName := str_field data "userName" in
  let l := devicesOf h userName ++ [sessionID] in
  let h' := on_join clock redis_ok sessionID args h in
  userSessions h' = <[userName := l]> (userSessions h)
  ∧ (∃ user, sessions h' = <[sessionID := user]> (sessions h) ∧ User_ID user = userName)
  ∧ server h' = server h
  ∧ redisService h' = (StoreUserSession redis_ok userName sessionID (redisService h)).2
  ∧ ∃ deviceInfo,
      emitted h' = emitted h
        ++ (if bool_decide (length l = 1) then [online_event userName] else [])
        ++ [Emit (ToClient sessionID) "joined"
              (PJoined userName userName deviceInfo "online" (length l))]
        ++ map (λ s, Emit (ToRoom s) "device_connected"
                       (PDeviceConnected deviceInfo sessionID (length l)))
             (addressed sessionID l).
Proof.
  intros Hargs Hu userName l h'. subst h'. unfold on_join. rewrite Hargs.
  fold userName. rewrite (bool_decide_eq_false_2 _ Hu).
  cbn [time_Now].
  set (deviceInfo := if bool_decide (str_field data "deviceInfo" = "")
                     then "Unknown Device" else str_field data "deviceInfo").
  set (h0 := redis_call _ (with_userSessions _ (with_userSessions _ (with_sessions _ _)))).
  assert (userSessions h0 = <[userName := l]> (userSessions h)) as Hus
    by (cbn; apply append_session).
  assert (devicesOf h0 userName = l) as Hdev
    by (unfold devicesOf; by rewrite Hus, lookup_insert_eq).
  assert (∃ user, sessions h0 = <[sessionID := user]> (sessions h)
                  ∧ User_ID user = userName) as Hse by (eexists; split; reflexivity).
  assert (server h0 = server h) as Hsrv by reflexivity.
  assert (redisService h0
          = (StoreUserSession redis_ok userName sessionID (redisService h)).2) as Hre
    by reflexivity.
  assert (emitted h0 = emitted h) as Hem by reflexivity.
  clearbody h0. rewrite Hdev.
  rewrite broadcastToUserDevices_emit_all.
  destruct (bool_decide (length l = 1)); cbn; unfold devicesOf; cbn;
    fold (devicesOf h0 userName); rewrite Hdev, Hem.
  all: split_and!; try done; exists deviceInfo; by rewrite <- ?app_assoc.
Qed.

(** What ["disconnect"] does for a session of the registry. *)
Lemma on_disconnect_known redis_ok sessionID args h user l i :
  sessions h !! sessionID = Some user →
  userSessions h !! User_ID user = Some l →
  index_of sessionID l = Some i →
  let userName := User_ID user in
  let l' := delete i l in
  let h' := on_disconnect redis_ok sessionID args h in
  sessions h' = delete sessionID (sessions h)
  ∧ server h' = server h
  ∧ (l' = [] →
       userSessions h' = delete userName (userSessions h)
       ∧ emitted h' = emitted h ++ [offline_event userName]
       ∧ redisService h' = (DeleteUserSession redis_ok userName (redisService h)).2)
  ∧ (l' ≠ [] →
       userSessions h' = <[userName := l']> (userSessions h)
       ∧ emitted h' = emitted h
           ++ map (λ s, Emit (ToRoom s) "device_disconnected"
                          (PDeviceDisconnected sessionID (length l'))) l'
       ∧ redisService h' = redisService h).
Proof.
  intros Hs Hl Hi userName l' h'. subst h'. unfold on_disconnect.
  set (h1 := log InfoLevel "Device disconnected" h).
  assert (sessions h1 = sessions h) as E1 by reflexivity.
  assert (userSessions h1 = userSessions h) as E2 by reflexivity.
  assert (server h1 = server h) as E3 by reflexivity.
  assert (emitted h1 = emitted h) as E4 by reflexivity.
  assert (redisService h1 = redisService h) as E5 by reflexivity.
  clearbody h1. rewrite E1, Hs. fold userName. fold userName in Hl.
  rewrite E2, Hl, Hi. rewrite <- delete_take_drop. fold l'.
  set (h0 := with_userSessions _ _).
  assert (devicesOf h0 userName = l') as Hdev
    by (unfold devicesOf; cbn; by rewrite lookup_insert_eq).
  rewrite Hdev. rewrite broadcastToUserDevices_emit_all, Hdev, addressed_none.
  destruct l' as [|s l''] eqn:E.
  - rewrite bool_decide_eq_true_2 by done. subst h0. cbn.
    rewrite ?E1, ?E2, ?E3, ?E4, ?E5.
    split; [done|]. split; [done|]. split; [intros _|done].
    by rewrite delete_insert_eq.
  - rewrite bool_decide_eq_false_2 by done. subst h0. cbn.
    rewrite ?E1, ?E2, ?E3, ?E4, ?E5.
    split; [done|]. split; [done|]. split; [done|intros _]. done.
Qed.

Lemma on_disconnect_unknown redis_ok sessionID args h :
  sessions h !! sessionID = None →
  on_disconnect redis_ok sessionID args h = log InfoLevel "Device disconnected" h.
Proof. intros Hs. unfold on_disconnect. cbn [sessions log]. by rewrite Hs. Qed.

(** ** Presence *)

Ltac no_presence :=
  repeat (apply List.Forall_cons;
          [intros [?|[?|?]]; discriminate|]); apply List.Forall_nil.

Ltac quiet_by_computation :=
  unfold quiet; cbn; split_and!; try done;
  first [ by (exists []; rewrite app_nil_r)
        | eexists; split; [rewrite <- ?app_assoc; reflexivity|no_presence] ].

Lemma chat_only_quiet h h' : chat_only h h' → quiet h h'.
Proof.
  intros (A1 & A2 & A3 & A4 & A5 & es & A6 & A7).
  unfold quiet. split_and!; try done; [by rewrite A1|].
  exists es. split; [done|]. eapply Forall_impl; [exact A7|].
  intros e [E|E] [?|[?|?]]; congruence.
Qed.

Lemma client_Join_no_empty sessionID room h :
  server h !! "" = None → server (client_Join sessionID room h) !! "" = None.
Proof.
  intros H. cbn. destruct (server h !! sessionID) eqn:E; [|done].
  rewrite lookup_insert_ne; [done|]. intros ->. congruence.
Qed.

Lemma client_Leave_no_empty sessionID room h :
  server h !! "" = None → server (client_Leave sessionID room h) !! "" = None.
Proof.
  intros H. cbn. destruct (server h !! sessionID) eqn:E; [|done].
  rewrite lookup_insert_ne; [done|]. intros ->. congruence.
Qed.

Lemma on_join_room_quiet redis_ok sessionID args h :
  quiet h (on_join_room redis_ok sessionID args h).
Proof.
  unfold on_join_room. destruct (first_map args) as [| |data]; try quiet_by_computation.
  destruct (bool_decide _ || bool_decide _); [quiet_by_computation|].
  unfold quiet. split_and!; try done.
  - apply client_Join_no_empty.
  - cbn. unfold AddUserToRoom. by destruct (redis_ok _).
  - cbn. unfold AddUserToRoom. by destruct (redis_ok _).
  - cbn. eexists. split; [rewrite <- ?app_assoc; reflexivity|no_presence].
Qed.

Lemma on_leave_room_quiet redis_ok sessionID args h :
  quiet h (on_leave_room redis_ok sessionID args h).
Proof.
  unfold on_leave_room. destruct (first_map args) as [| |data]; try quiet_by_computation.
  destruct (bool_decide _ || bool_decide _); [quiet_by_computation|].
  unfold quiet. split_and!; try done.
  - apply client_Leave_no_empty.
  - cbn. unfold RemoveUserFromRoom. by destruct (redis_ok _).
  - cbn. unfold RemoveUserFromRoom. by destruct (redis_ok _).
  - cbn. eexists. split; [rewrite <- ?app_assoc; reflexivity|no_presence].
Qed.

Lemma on_typing_quiet event args h :
  ¬ presence_name event → quiet h (on_typing event args h).
Proof.
  intros Hev. unfold on_typing.
  destruct (first_map args) as [| |data]; try quiet_by_computation.
  destruct (bool_decide _ && bool_decide _); [|quiet_by_computation].
  unfold quiet; cbn. split_and!; try done.
  eexists. split; [done|]. by apply List.Forall_cons.
Qed.

Lemma on_join_rejected clock redis_ok sessionID args h :
  (∀ data, first_map args = IsMap data → str_field data "userName" = "") →
  quiet h (on_join clock redis_ok sessionID args h).
Proof.
  intros Hrej. unfold on_join.
  destruct (first_map args) as [| |data]; try quiet_by_computation.
  rewrite (bool_decide_eq_true_2 _ (Hrej data eq_refl)). quiet_by_computation.
Qed.

Lemma relay_receive_quiet payload h : quiet h (relay_receive broadcastMessage payload h).
Proof.
  destruct payload as [message|]; [|quiet_by_computation].
  apply chat_only_quiet, broadcastMessage_chat_only.
Qed.

(** Every step is quiet, an accepted ["join"], or the ["disconnect"] of a
    session of the registry. *)
Lemma step_cases clock redis_ok h e :
  let h' := step clock redis_ok h e in
  (quiet h h' ∧ (∀ s u, ¬ joins h e s u) ∧ (∀ s u, ¬ leaves h e s u))
  ∨ (∃ s u args, joins h e s u ∧ e = ClientEmit s (EvJoin args)
       ∧ h' = on_join clock redis_ok s args h)
  ∨ (∃ s u args, leaves h e s u ∧ e = Disconnect s args
       ∧ h' = on_disconnect redis_ok s args (with_server (delete s) h)).
Proof.
  destruct e as [sid|sid ev|sid args|payload]; cbn.
  - left. split; [|split; intros s u (?&?&?&_); done].
    case_bool_decide as Hsid; [quiet_by_computation|].
    destruct (server h !! sid) eqn:E; [quiet_by_computation|].
    unfold quiet; cbn. rewrite lookup_insert_eq. cbn.
    split_and!; try done.
    + intros H. rewrite lookup_insert_ne, lookup_insert_ne; done.
    + exists []. by rewrite app_nil_r.
  - destruct (server h !! sid) as [rooms|] eqn:E.
    2: { left. split; [quiet_by_computation|].
         split; intros s u (?&?&He&Hc&_); [|done].
         injection He as <- _. rewrite E in Hc. by destruct Hc. }
    destruct ev as [args|args|args|args|args|args]; cbn.
    + destruct (first_map args) as [| |data] eqn:Ea.
      1,2: left; split; [apply on_join_rejected; intros; congruence|];
           split; intros s u (?&?&He&_&Hf&_); [|done];
           injection He as <- <-; congruence.
      destruct (decide (str_field data "userName" = "")) as [Hu|Hu].
      * left. split; [apply on_join_rejected; intros; congruence|].
        split; [intros s u (?&d&He&_&Hf&Hd&Hne)|intros s u (?&?&?&_); done].
        injection He as <- <-. congruence.
      * right; left. exists sid, (str_field data "userName"), args.
        split; [|done]. exists args, data. by rewrite E.
    + left. split; [apply on_join_room_quiet|split; intros s u (?&?&?&_); done].
    + left. split; [apply on_leave_room_quiet|split; intros s u (?&?&?&_); done].
    + left. split; [apply chat_only_quiet, handleMessage_chat_only
                   |split; intros s u (?&?&?&_); done].
    + left. split; [apply on_typing_quiet; intros [?|[?|?]]; done
                   |split; intros s u (?&?&?&_); done].
    + left. split; [apply on_typing_quiet; intros [?|[?|?]]; done
                   |split; intros s u (?&?&?&_); done].
  - destruct (server h !! sid) as [rooms|] eqn:E.
    2: { left. split; [quiet_by_computation|].
         split; intros s u (?&?&He&Hc&_); [done|].
         injection He as <- _. rewrite E in Hc. by destruct Hc. }
    destruct (sessions h !! sid) as [user|] eqn:Es.
    + right; right. exists sid, (User_ID user), args.
      split; [|done]. exists args, user. by rewrite E.
    + left. rewrite on_disconnect_unknown by done.
      split.
      * unfold quiet; cbn. split_and!; try done.
        -- intros H. destruct (decide (sid = "")) as [->|?];
             [by rewrite lookup_delete_eq|by rewrite lookup_delete_ne].
        -- exists []. by rewrite app_nil_r.
      * split; intros s u (?&?&He&_&Hs&_); [done|].
        injection He as <- _. congruence.
  - left. split; [|split; intros s u (?&?&?&_); done].
    destruct (subscribed (redisService h)); [apply relay_receive_quiet|quiet_by_computation].
Qed.

Lemma devicesOf_elem h u s :
  s ∈ devicesOf h u → ∃ l, userSessions h !! u = Some l ∧ s ∈ l.
Proof.
  unfold devicesOf. destruct (userSessions h !! u) as [l|]; simpl.
  - intros; by exists l.
  - intros H. by apply not_elem_of_nil in H.
Qed.

Lemma devicesOf_insert h h' u l u' :
  userSessions h' = <[u := l]> (userSessions h) →
  devicesOf h' u' = if decide (u = u') then l else devicesOf h u'.
Proof.
  intros H. unfold devicesOf. rewrite H, lookup_insert.
  by destruct (decide (u = u')).
Qed.

Lemma devicesOf_delete h h' u u' :
  userSessions h' = delete u (userSessions h) →
  devicesOf h' u' = if decide (u = u') then [] else devicesOf h u'.
Proof.
  intros H. unfold devicesOf. rewrite H, lookup_delete.
  by destruct (decide (u = u')).
Qed.

Lemma registry_ok_new redis_ok : registry_ok (NewSocketIOHandler redis_ok).
Proof.
  unfold NewSocketIOHandler, subscribeToRedis, SubscribeToMessages, subscribe_confirm.
  cbn. destruct (redis_ok 0); cbn; (split; [done|split; [intros ?? H|intros ?? H]; done]).
Qed.

(** The facts of a ["disconnect"] of a session of the registry. *)
Lemma leave_facts redis_ok h s args user :
  registry_ok h →
  sessions h !! s = Some user →
  let u := User_ID user in
  let h' := on_disconnect redis_ok s args (with_server (delete s) h) in
  ∃ l i, userSessions h !! u = Some l ∧ l !! i = Some s
    ∧ devicesOf h u = l
    ∧ sessions h' = delete s (sessions h)
    ∧ server h' = delete s (server h)
    ∧ (delete i l = [] →
         userSessions h' = delete u (userSessions h)
         ∧ emitted h' = emitted h ++ [offline_event u])
    ∧ (delete i l ≠ [] →
         userSessions h' = <[u := delete i l]> (userSessions h)
         ∧ emitted h' = emitted h
             ++ map (λ s', Emit (ToRoom s') "device_disconnected"
                             (PDeviceDisconnected s (length (delete i l))))
                  (delete i l)).
Proof.
  intros (_ & _ & I2) Hs u h'.
  destruct (devicesOf_elem _ _ _ (I2 _ _ Hs)) as (l & Hl & Hin).
  destruct (index_of_elem _ _ Hin) as [i Hi].
  exists l, i. split; [done|]. split; [by apply index_of_Some|].
  split; [unfold devicesOf, u; by rewrite Hl|].
  destruct (on_disconnect_known redis_ok s args (with_server (delete s) h) user l i
              Hs Hl Hi) as (A1 & A2 & A3 & A4).
  split; [done|]. split; [done|]. split.
  - intros E. by destruct (A3 E) as (? & ? & _).
  - intros E. by destruct (A4 E) as (? & ? & _).
Qed.

Lemma registry_ok_step clock redis_ok h e :
  registry_ok h → registry_ok (step clock redis_ok h e).
Proof.
  intros Hok. pose proof Hok as (I0 & I1 & I2).
  destruct (step_cases clock redis_ok h e)
    as [(Hq & _)|[(s & u & args & Hj & -> & ->)|(s & u & args & Hl & -> & ->)]].
  - destruct Hq as (Q1 & Q2 & Q3 & _).
    unfold registry_ok, devicesOf. rewrite Q1, Q2. split; [by apply Q3|done].
  - destruct Hj as (args' & data & [= <-] & _ & Hf & Hd & Hne). subst u.
    destruct (on_join_accepted clock redis_ok s args data h Hf Hne)
      as (Hus & (user & Hse & Hid) & Hsrv & _).
    split; [by rewrite Hsrv|]. split.
    + intros u l. rewrite Hus, lookup_insert. case_decide.
      * intros [= <-]. by destruct (devicesOf h _).
      * apply I1.
    + intros s' user'. rewrite Hse, lookup_insert, (devicesOf_insert _ _ _ _ _ Hus).
      case_decide as Hs.
      * intros [= <-]. rewrite Hid, decide_True by done. set_solver.
      * intros H. apply I2 in H. case_decide as Hu; [|done].
        rewrite <- Hu in H. set_solver.
  - destruct Hl as (args' & user & [= <-] & _ & Hs & Hid). subst u.
    destruct (leave_facts redis_ok h s args user Hok Hs)
      as (l & i & Hl & Hi & Hdev & Hse & Hsrv & Hempty & Hrest).
    split; [|split].
    + rewrite Hsrv. destruct (decide (s = "")) as [->|?];
        [by rewrite lookup_delete_eq|by rewrite lookup_delete_ne].
    + intros u l0. destruct (decide (delete i l = [])) as [E|E].
      * destruct (Hempty E) as [-> _]. rewrite lookup_delete.
        case_decide; [done|apply I1].
      * destruct (Hrest E) as [-> _]. rewrite lookup_insert.
        case_decide; [by intros [= <-]|apply I1].
    + intros s' user'. rewrite Hse, lookup_delete. case_decide as Hne; [done|].
      intros H. pose proof (I2 _ _ H) as Hin.
      destruct (decide (User_ID user = User_ID user')) as [Hu|Hu].
      * rewrite <- Hu in *. rewrite Hdev in Hin.
        assert (s' ∈ delete i l) as Hin'
          by (eapply elem_of_delete_other; [exact Hi|done|congruence]).
        assert (delete i l ≠ []) as E by (intros E; rewrite E in Hin'; set_solver).
        destruct (Hrest E) as [Hus _].
        rewrite (devicesOf_insert _ _ _ _ _ Hus), decide_True; done.
      * destruct (decide (delete i l = [])) as [E|E].
        -- destruct (Hempty E) as [Hus _].
           rewrite (devicesOf_delete _ _ _ _ Hus), decide_False; done.
        -- destruct (Hrest E) as [Hus _].
           rewrite (devicesOf_insert _ _ _ _ _ Hus), decide_False; done.
Qed.














(** The device list is [s1, s2]; when "s1" disconnects one device is left,
    "s2" is told and nobody is told that alice is offline. *)
Example scenario_a_device_left :
  devicesOf ScenarioA.two_devices "alice" = ["s1"; "s2"]
  ∧ emitted_since ScenarioA.two_devices
        (step Fixtures.wall Fixtures.redis_up ScenarioA.two_devices (Disconnect "s1" []))
    = [Emit (ToRoom "s2") "device_disconnected" (PDeviceDisconnected "s1" 1)].
Proof. split; reflexivity. Qed.


(** ** The session record in Redis *)



(** ** Replaying joins and leaves *)

(** C5, at a socket that sends ["join"] twice and then disconnects: nothing
    that joined is left, and yet "s1" stays on the device list of alice, who
    is never said to be offline. *)
Theorem rejoin_leaves_stale_device :
  let ops := [RJoin "s1" "alice"; RJoin "s1" "alice"; RLeave "s1"] in
  let h := replay Fixtures.wall Fixtures.redis_up ops
             (NewSocketIOHandler Fixtures.redis_up) in
  joined_not_left "alice" ops = []
  ∧ devicesOf h "alice" = ["s1"]
  ∧ sessions h = ∅
  ∧ (offline_event "alice" ∉ emitted h)
  ∧ userSessions
      (run Fixtures.wall Fixtures.redis_up
         [Connection "s1";
          ClientEmit "s1" (EvJoin (Fixtures.join_args "alice" "phone"));
          ClientEmit "s1" (EvJoin (Fixtures.join_args "alice" "phone"));
          Disconnect "s1" []]
         (NewSocketIOHandler Fixtures.redis_up))
    = {["alice" := ["s1"]]}.
Proof.
  split_and!; try reflexivity.
  vm_compute. intros H.
  repeat (apply elem_of_cons in H as [H|H]; [discriminate|]).
  by apply not_elem_of_nil in H.
Qed.

Lemma single_join_snoc ops op : single_join (ops ++ [op]) → single_join ops.
Proof.
  intros H ops1 s u ops2 ->. apply (H ops1 s u (ops2 ++ [op])).
  by rewrite <- app_assoc.
Qed.

Lemma joined_not_left_join u ops s u' :
  joined_not_left u (ops ++ [RJoin s u'])
  = joined_not_left u ops ++ (if decide (u' = u) then [s] else []).
Proof.
  induction ops as [|[s0 u0|s0] ops IH]; simpl.
  - destruct (decide (u' = u)) as [->|Hne].
    + rewrite decide_True; [done|]. split; [done|apply not_elem_of_nil].
    + rewrite decide_False; [done|]. by intros [? _].
  - rewrite IH.
    destruct (decide (u0 = u ∧ RLeave s0 ∉ ops)) as [[-> Hn]|Hn].
    + rewrite decide_True; [done|]. split; [done|].
      rewrite elem_of_app, list_elem_of_singleton. by intros [?|?].
    + rewrite decide_False; [done|]. intros [-> Hn']. apply Hn. split; [done|].
      intros Hin. apply Hn'. apply elem_of_app. by left.
  - apply IH.
Qed.

Lemma joined_not_left_leave u ops s :
  joined_not_left u (ops ++ [RLeave s]) = filter (λ s', s' ≠ s) (joined_not_left u ops).
Proof.
  induction ops as [|[s0 u0|s0] ops IH]; simpl; [done| |apply IH].
  rewrite IH.
  destruct (decide (u0 = u ∧ RLeave s0 ∉ ops)) as [[-> Hn]|Hn].
  - destruct (decide (s0 = s)) as [->|Hne].
    + rewrite decide_False, filter_cons_False; [done|by intros ?|].
      intros [_ Hn']. apply Hn'. apply elem_of_app. right. apply list_elem_of_here.
    + rewrite decide_True, filter_cons_True; [done|done|]. split; [done|].
      rewrite elem_of_app, list_elem_of_singleton. intros [?|[= ?]]; done.
  - rewrite decide_False; [done|]. intros [-> Hn']. apply Hn. split; [done|].
    intros Hin. apply Hn'. apply elem_of_app. by left.
Qed.

Lemma filter_absent (l : list string) s : s ∉ l → filter (λ s', s' ≠ s) l = l.
Proof.
  induction l as [|x l IH]; [done|]. rewrite not_elem_of_cons. intros [Hne Hn].
  rewrite filter_cons_True by done. by rewrite IH.
Qed.

Lemma delete_filter (l : list string) i s :
  NoDup l → l !! i = Some s → delete i l = filter (λ s', s' ≠ s) l.
Proof.
  revert i. induction l as [|x l IH]; intros i Hnd Hi; [done|].
  apply NoDup_cons in Hnd as [Hx Hnd]. destruct i as [|i]; simpl in *.
  - injection Hi as ->. rewrite filter_cons_False by (by intros ?).
    by rewrite filter_absent.
  - rewrite filter_cons_True.
    + f_equal. by apply IH.
    + intros ->. apply Hx. by eapply list_elem_of_lookup_2.
Qed.

Lemma str_field_singleton k s : str_field {[k := VString s]} k = s.
Proof. unfold str_field. by rewrite lookup_singleton_eq. Qed.

Lemma tracks_join clock redis_ok ops h s u :
  u ≠ "" → (∀ u', s ∉ joined_not_left u' ops) →
  tracks ops h → tracks (ops ++ [RJoin s u]) (apply_op clock redis_ok h (RJoin s u)).
Proof.
  intros Hu Hfresh (T1 & T2 & T3 & T4 & T5). cbn [apply_op].
  set (args := [AMap {["userName" := VString u]}]).
  destruct (on_join_accepted clock redis_ok s args {["userName" := VString u]} h eq_refl)
    as (Hus & (user & Hse & Hid) & _); [by rewrite str_field_singleton|].
  rewrite str_field_singleton in Hus, Hid.
  unfold tracks. split_and!.
  - intros u'. rewrite (devicesOf_insert _ _ _ _ _ Hus), joined_not_left_join.
    case_decide as E; [subst u'; by rewrite T1|]. by rewrite T1, app_nil_r.
  - intros u' l. rewrite Hus, lookup_insert. case_decide.
    + intros [= <-]. by destruct (devicesOf h u).
    + apply T2.
  - intros s' user'. rewrite Hse, lookup_insert, joined_not_left_join.
    case_decide as E.
    + intros [= <-]. rewrite Hid, decide_True by done. set_solver.
    + intros H. apply elem_of_app. left. by apply T3.
  - intros u' s'. rewrite joined_not_left_join, elem_of_app. intros [H|H].
    + destruct (T4 _ _ H) as (user' & Hs' & Hid'). exists user'.
      rewrite Hse, lookup_insert_ne; [done|]. intros <-. by destruct (Hfresh u').
    + case_decide as E; [|by apply not_elem_of_nil in H].
      apply list_elem_of_singleton in H. subst. exists user.
      by rewrite Hse, lookup_insert_eq.
  - intros u'. rewrite joined_not_left_join. apply NoDup_app. split; [apply T5|].
    split; [|case_decide; [apply NoDup_singleton|apply NoDup_nil_2]].
    intros x Hx. case_decide; [|apply not_elem_of_nil].
    rewrite list_elem_of_singleton. intros ->. by destruct (Hfresh u').
Qed.

Lemma tracks_leave redis_ok ops h s :
  tracks ops h → tracks (ops ++ [RLeave s]) (on_disconnect redis_ok s [] h).
Proof.
  intros (T1 & T2 & T3 & T4 & T5).
  assert (∀ u u' s', s' ∈ joined_not_left u ops → s' ∈ joined_not_left u' ops → u = u')
    as Hdisj.
  { intros u u' s' H H'. destruct (T4 _ _ H) as (x & Hx & <-).
    destruct (T4 _ _ H') as (x' & Hx' & <-). congruence. }
  destruct (sessions h !! s) as [user|] eqn:Hs.
  - pose proof (T3 _ _ Hs) as Hin. rewrite <- T1 in Hin.
    destruct (devicesOf_elem _ _ _ Hin) as (l & Hl & Hin').
    assert (devicesOf h (User_ID user) = l) as Hdev
      by (unfold devicesOf; by rewrite Hl).
    destruct (index_of_elem _ _ Hin') as [i Hi].
    pose proof (index_of_Some _ _ _ Hi) as Hi'.
    assert (NoDup l) as Hnd by (rewrite <- Hdev, T1; apply T5).
    destruct (on_disconnect_known redis_ok s [] h user l i Hs Hl Hi)
      as (A1 & _ & A3 & A4).
    rewrite (delete_filter _ _ _ Hnd Hi') in A3, A4.
    set (h' := on_disconnect redis_ok s [] h) in *.
    assert (∀ u, devicesOf h' u = filter (λ s', s' ≠ s) (joined_not_left u ops)) as Hd.
    { intros u. destruct (decide (filter (λ s', s' ≠ s) l = [])) as [E|E].
      - destruct (A3 E) as (Hus & _). rewrite (devicesOf_delete _ _ _ _ Hus).
        case_decide as Eu; [subst u; by rewrite <- T1, Hdev, E|].
        rewrite T1, filter_absent; [done|]. intros H. apply Eu.
        apply (Hdisj _ _ s); [by rewrite <- T1|done].
      - destruct (A4 E) as (Hus & _). rewrite (devicesOf_insert _ _ _ _ _ Hus).
        case_decide as Eu; [subst u; by rewrite <- T1, Hdev|].
        rewrite T1, filter_absent; [done|]. intros H. apply Eu.
        apply (Hdisj _ _ s); [by rewrite <- T1|done]. }
    unfold tracks. split_and!.
    + intros u. by rewrite joined_not_left_leave.
    + intros u l0. destruct (decide (filter (λ s', s' ≠ s) l = [])) as [E|E].
      * destruct (A3 E) as (-> & _). rewrite lookup_delete.
        case_decide; [done|apply T2].
      * destruct (A4 E) as (-> & _). rewrite lookup_insert.
        case_decide; [by intros [= <-]|apply T2].
    + intros s' user'. rewrite A1, lookup_delete, joined_not_left_leave.
      case_decide as E; [done|]. intros H. apply list_elem_of_filter.
      split; [done|by apply T3].
    + intros u s'. rewrite joined_not_left_leave, list_elem_of_filter.
      intros [Hne H]. destruct (T4 _ _ H) as (x & Hx & Hid). exists x.
      by rewrite A1, lookup_delete_ne.
    + intros u. rewrite joined_not_left_leave. apply NoDup_filter, T5.
  - rewrite on_disconnect_unknown by done.
    assert (∀ u, filter (λ s', s' ≠ s) (joined_not_left u ops) = joined_not_left u ops)
      as Hf.
    { intros u. apply filter_absent. intros H.
      destruct (T4 _ _ H) as (x & Hx & _). congruence. }
    unfold tracks. setoid_rewrite joined_not_left_leave. setoid_rewrite Hf.
    split_and!; done.
Qed.

(** X14: when every join is by a session that is not in the registry, the
    replay agrees with the specification: after any such sequence of joins
    and leaves from the empty registry, the device list of every identity is
    the list of the sessions that joined for it and have not left, in join
    order. *)
Lemma devicesOf_replay clock redis_ok ops u :
  single_join ops →
  devicesOf (replay clock redis_ok ops (NewSocketIOHandler redis_ok)) u
  = joined_not_left u ops.
Proof.
  intros Hwf.
  enough (tracks ops (replay clock redis_ok ops (NewSocketIOHandler redis_ok))) as H
    by apply H.
  induction ops as [|op ops IH] using rev_ind.
  - unfold tracks. cbn.
    destruct (registry_ok_new redis_ok) as (_ & I1 & _).
    assert (userSessions (NewSocketIOHandler redis_ok) = ∅
            ∧ sessions (NewSocketIOHandler redis_ok) = ∅) as [E1 E2].
    { unfold NewSocketIOHandler, subscribeToRedis, SubscribeToMessages, subscribe_confirm.
      cbn. by destruct (redis_ok 0). }
    unfold devicesOf. rewrite E1, E2. split_and!.
    + done.
    + intros ? ?. by rewrite lookup_empty.
    + intros ? ?. by rewrite lookup_empty.
    + intros ? s' H. by apply not_elem_of_nil in H.
    + intros _. apply NoDup_nil_2.
  - unfold replay. rewrite foldl_snoc. fold (replay clock redis_ok ops).
    specialize (IH (single_join_snoc _ _ Hwf)).
    destruct op as [s u'|s].
    + destruct (Hwf ops s u' [] eq_refl) as [Hu Hfr]. by apply tracks_join.
    + by apply tracks_leave.
Qed.

(** A leave for a session that is not in the registry changes nothing in
    it, and after a leave the session is not in the registry: a second leave
    changes nothing. *)
Lemma leave_unknown_is_noop redis_ok s args h :
  sessions h !! s = None →
  let h' := on_disconnect redis_ok s args h in
  sessions h' = sessions h ∧ userSessions h' = userSessions h
  ∧ emitted h' = emitted h ∧ redisService h' = redisService h.
Proof. intros Hs. cbn. by rewrite on_disconnect_unknown. Qed.

(** ** Nothing is published *)

Lemma step_publishes_nothing clock redis_ok h e :
  registry_ok h →
  published (redisService (step clock redis_ok h e)) = published (redisService h).
Proof.
  intros Hok.
  destruct (step_cases clock redis_ok h e)
    as [(Hq & _)|[(s & u & args & Hj & -> & ->)|(s & u & args & Hl & -> & ->)]].
  - by destruct Hq as (_ & _ & _ & _ & ? & _).
  - destruct Hj as (args' & data & [= <-] & _ & Hf & Hd & Hne). subst u.
    destruct (on_join_accepted clock redis_ok s args data h Hf Hne)
      as (_ & _ & _ & -> & _).
    unfold StoreUserSession. by destruct (redis_ok _).
  - destruct Hl as (args' & user & [= <-] & _ & Hs & Hid). subst u.
    destruct Hok as (_ & _ & I2).
    destruct (devicesOf_elem _ _ _ (I2 _ _ Hs)) as (l & Hl & Hin).
    destruct (index_of_elem _ _ Hin) as [i Hi].
    destruct (on_disconnect_known redis_ok s args (with_server (delete s) h) user l i
                Hs Hl Hi) as (_ & _ & A3 & A4).
    destruct (decide (delete i l = [])) as [E|E].
    + destruct (A3 E) as (_ & _ & ->). cbn. unfold DeleteUserSession.
      by destruct (redis_ok _).
    + by destruct (A4 E) as (_ & _ & ->).
Qed.

(** In no state the process gets to has anything been published on Redis:
    no handler calls [PublishMessage]. *)
Lemma nothing_is_published clock redis_ok h :
  reachable clock redis_ok h → published (redisService h) = [].
Proof.
  intros [es <-].
  assert (∀ h0, registry_ok h0 →
            published (redisService (run clock redis_ok es h0))
            = published (redisService h0)) as Hrun.
  { induction es as [|e es IH]; intros h0 Hok; [done|]. cbn.
    unfold run in IH. rewrite IH by (by apply registry_ok_step).
    by apply step_publishes_nothing. }
  rewrite Hrun by apply registry_ok_new.
  unfold NewSocketIOHandler, subscribeToRedis, SubscribeToMessages, subscribe_confirm.
  cbn. by destruct (redis_ok 0).
Qed.


(** * More properties *)

(** ** The Redis service *)


Lemma session_key_inj a b : "user_session:" +:+ a = "user_session:" +:+ b → a = b.
Proof. cbn. intros H. by simplify_eq. Qed.

Lemma room_key_inj a b : "room_members:" +:+ a = "room_members:" +:+ b → a = b.
Proof. cbn. intros H. by simplify_eq. Qed.

Lemma message_key_not_session a b : "message:" +:+ a ≠ "user_session:" +:+ b.
Proof. cbn. discriminate. Qed.



(** X2: with Redis up, the session stored for a user is read back; after
    [DeleteUserSession] the read says "user session not found"; the sessions
    of the other users and every stored message are as before, through both
    calls. *)
Theorem user_session_store_get_delete (redis_ok : nat → bool) (userID sessionID : string)
    (r : RedisService) :
  (∀ n, redis_ok n = true) →
  let r1 := (StoreUserSession redis_ok userID sessionID r).2 in
  let r2 := (DeleteUserSession redis_ok userID r1).2 in
  session_of redis_ok userID r1 = (sessionID, None)
  ∧ session_of redis_ok userID r2 = ("", Some "user session not found")
  ∧ (∀ u, u ≠ userID →
       session_of redis_ok u r1 = session_of redis_ok u r
       ∧ session_of redis_ok u r2 = session_of redis_ok u r)
  ∧ (∀ id, fetched redis_ok id r1 = fetched redis_ok id r
           ∧ fetched redis_ok id r2 = fetched redis_ok id r).
Proof.
  intros Hup r1 r2. subst r1 r2.
  unfold fetched, session_of, StoreUserSession, DeleteUserSession, GetMessage,
    GetUserSession. rewrite ?Hup. cbn -[String.append]. rewrite ?Hup.
  split_and!.
  - by rewrite lookup_insert_eq.
  - by rewrite lookup_delete_eq.
  - intros u Hne.
    assert ("user_session:" +:+ userID ≠ "user_session:" +:+ u) as Hk
      by (intros H; by apply session_key_inj in H).
    rewrite lookup_delete_ne, !lookup_insert_ne by done.
    by destruct (kv r !! _) as [[|]|].
  - intros id.
    assert ("user_session:" +:+ userID ≠ "message:" +:+ id) as Hk
      by (intros H; by destruct (message_key_not_session id userID)).
    rewrite lookup_delete_ne, !lookup_insert_ne by done.
    by destruct (kv r !! _) as [[|]|].
Qed.

Lemma user_session_store_get_delete_witness :
  let r := redisService (Fixtures.alice_in_general Fixtures.redis_up) in
  let r1 := (StoreUserSession Fixtures.redis_up "bob" "s7" r).2 in
  let r2 := (DeleteUserSession Fixtures.redis_up "bob" r1).2 in
  session_of Fixtures.redis_up "bob" r1 = ("s7", None)
  ∧ session_of Fixtures.redis_up "bob" r2 = ("", Some "user session not found")
  ∧ (∀ u, u ≠ "bob" →
       session_of Fixtures.redis_up u r1 = session_of Fixtures.redis_up u r
       ∧ session_of Fixtures.redis_up u r2 = session_of Fixtures.redis_up u r)
  ∧ (∀ id, fetched Fixtures.redis_up id r1 = fetched Fixtures.redis_up id r
           ∧ fetched Fixtures.redis_up id r2 = fetched Fixtures.redis_up id r).
Proof.
  apply (user_session_store_get_delete Fixtures.redis_up "bob" "s7"
           (redisService (Fixtures.alice_in_general Fixtures.redis_up))).
  reflexivity.
Defined.

(** X3: with Redis up, [AddUserToRoom] makes the user a member of the room
    and of no other room, adding twice is adding once, and
    [RemoveUserFromRoom] after it leaves the members the room had before,
    the user not among them. *)
Theorem room_members_add_remove (redis_ok : nat → bool) (roomID userID : string)
    (r : RedisService) :
  (∀ n, redis_ok n = true) →
  let r1 := (AddUserToRoom redis_ok roomID userID r).2 in
  let r2 := (RemoveUserFromRoom redis_ok roomID userID r1).2 in
  (∀ v, v ∈ members_of redis_ok roomID r1 ↔ v = userID ∨ v ∈ members_of redis_ok roomID r)
  ∧ sets (AddUserToRoom redis_ok roomID userID r1).2 = sets r1
  ∧ (∀ v, v ∈ members_of redis_ok roomID r2 ↔ v ≠ userID ∧ v ∈ members_of redis_ok roomID r)
  ∧ (∀ room v, room ≠ roomID →
       (v ∈ members_of redis_ok room r1 ↔ v ∈ members_of redis_ok room r)
       ∧ (v ∈ members_of redis_ok room r2 ↔ v ∈ members_of redis_ok room r))
  ∧ kv r2 = kv r.
Proof.
  intros Hup r1 r2. subst r1 r2.
  unfold members_of, GetRoomMembers, AddUserToRoom, RemoveUserFromRoom.
  rewrite ?Hup. cbn -[String.append]. rewrite ?Hup. cbn -[String.append].
  set (key := "room_members:" +:+ roomID).
  set (old := default ∅ (sets r !! key)).
  rewrite !lookup_insert_eq. cbn -[String.append].
  assert (∀ room, room ≠ roomID → key ≠ "room_members:" +:+ room) as Hk
    by (intros room Hne H; by apply room_key_inj in H).
  split_and!.
  - intros v. rewrite !elem_of_elements. set_solver.
  - rewrite insert_insert_eq. f_equal. set_solver.
  - intros v. case_decide as E.
    + rewrite lookup_delete_eq. cbn. rewrite !elem_of_elements. set_solver.
    + rewrite lookup_insert_eq. cbn. rewrite !elem_of_elements. set_solver.
  - intros room v Hne. specialize (Hk room Hne). split.
    + by rewrite lookup_insert_ne.
    + case_decide; [by rewrite lookup_delete_ne, lookup_insert_ne
                   |by rewrite !lookup_insert_ne].
  - done.
Qed.

Lemma room_members_add_remove_witness :
  let r := redisService (Fixtures.alice_in_general Fixtures.redis_up) in
  let r1 := (AddUserToRoom Fixtures.redis_up "general" "bob" r).2 in
  let r2 := (RemoveUserFromRoom Fixtures.redis_up "general" "bob" r1).2 in
  (∀ v, v ∈ members_of Fixtures.redis_up "general" r1 ↔
        v = "bob" ∨ v ∈ members_of Fixtures.redis_up "general" r)
  ∧ sets (AddUserToRoom Fixtures.redis_up "general" "bob" r1).2 = sets r1
  ∧ (∀ v, v ∈ members_of Fixtures.redis_up "general" r2 ↔
          v ≠ "bob" ∧ v ∈ members_of Fixtures.redis_up "general" r)
  ∧ (∀ room v, room ≠ "general" →
       (v ∈ members_of Fixtures.redis_up room r1 ↔ v ∈ members_of Fixtures.redis_up room r)
       ∧ (v ∈ members_of Fixtures.redis_up room r2 ↔
            v ∈ members_of Fixtures.redis_up room r))
  ∧ kv r2 = kv r.
Proof.
  apply (room_members_add_remove Fixtures.redis_up "general" "bob"
           (redisService (Fixtures.alice_in_general Fixtures.redis_up))).
  reflexivity.
Defined.

(** ** The subscription *)

Lemma relay_receive_all incoming : ∀ h,
  let h' := foldl (λ h payload, relay_receive broadcastMessage payload h) h incoming in
  emitted h' = emitted h ++ flat_map (broadcast_of h) (omap id incoming)
  ∧ logged h' = logged h
      ++ replicate (rejected incoming) (ErrorLevel, "Failed to unmarshal message")
  ∧ userSessions h' = userSessions h ∧ sessions h' = sessions h
  ∧ server h' = server h ∧ redisService h' = redisService h.
Proof.
  induction incoming as [|[m|] incoming IH]; intros h; cbn -[rejected].
  - by rewrite !app_nil_r.
  - destruct (IH (broadcastMessage m h)) as (E1 & E2 & E3 & E4 & E5 & E6).
    rewrite E1, E2, E3, E4, E5, E6. rewrite broadcastMessage_emit_all. cbn -[rejected].
    split_and!; try done.
    all: try (rewrite <- app_assoc; reflexivity).
    all: unfold rejected; by rewrite filter_cons_False.
  - destruct (IH (log ErrorLevel "Failed to unmarshal message" h))
      as (E1 & E2 & E3 & E4 & E5 & E6).
    rewrite E1, E2, E3, E4, E5, E6. cbn -[rejected]. split_and!; try done.
    unfold rejected. rewrite filter_cons_True by done. cbn.
    by rewrite <- app_assoc.
Qed.

(** X4: when the subscription is confirmed, [SubscribeToChannel] with
    [broadcastMessage] as callback broadcasts every payload that decodes,
    once and in the order of arrival; a payload that does not decode costs
    one log entry and does not stop the loop; the registry, the rooms and the
    store are not touched. *)
Theorem SubscribeToChannel_broadcasts_decodable (redis_ok : nat → bool)
    (incoming : list (option Message)) (h : SocketIOHandler) :
  redis_ok (cmds (redisService h)) = true →
  let out := SubscribeToChannel redis_ok broadcastMessage incoming h in
  out.1 = None
  ∧ emitted out.2 = emitted h ++ flat_map (broadcast_of h) (omap id incoming)
  ∧ logged out.2 = logged h ++ [(InfoLevel, "Subscribed to Redis channel")]
      ++ replicate (rejected incoming) (ErrorLevel, "Failed to unmarshal message")
  ∧ userSessions out.2 = userSessions h ∧ sessions out.2 = sessions h
  ∧ server out.2 = server h
  ∧ kv (redisService out.2) = kv (redisService h)
  ∧ published (redisService out.2) = published (redisService h).
Proof.
  intros Hup out. subst out. unfold SubscribeToChannel, subscribe_confirm.
  rewrite Hup. cbn [fst snd].
  match goal with |- context [foldl _ ?h0 incoming] => set (h1 := h0) end.
  destruct (relay_receive_all incoming h1) as (E1 & E2 & E3 & E4 & E5 & E6).
  rewrite E1, E2, E3, E4, E5, E6. cbn. split_and!; try done.
  by rewrite <- app_assoc.
Qed.

Lemma SubscribeToChannel_broadcasts_decodable_witness :
  let h := Fixtures.alice_in_general Fixtures.redis_up in
  let incoming := [Some hello_general; None; Some hello_general] in
  let out := SubscribeToChannel Fixtures.redis_up broadcastMessage incoming h in
  out.1 = None
  ∧ emitted out.2 = emitted h ++ flat_map (broadcast_of h) (omap id incoming)
  ∧ logged out.2 = logged h ++ [(InfoLevel, "Subscribed to Redis channel")]
      ++ replicate (rejected incoming) (ErrorLevel, "Failed to unmarshal message")
  ∧ userSessions out.2 = userSessions h ∧ sessions out.2 = sessions h
  ∧ server out.2 = server h
  ∧ kv (redisService out.2) = kv (redisService h)
  ∧ published (redisService out.2) = published (redisService h).
Proof.
  apply (SubscribeToChannel_broadcasts_decodable Fixtures.redis_up
           [Some hello_general; None; Some hello_general]
           (Fixtures.alice_in_general Fixtures.redis_up)).
  reflexivity.
Defined.

(** ** Redis and the rest of the handler *)


Lemma view_of_swap r l h : view (swap r l h) = view h.
Proof. reflexivity. Qed.







(** ** Payloads that are turned down *)

(** X6: an event whose payload does not pass the check of its handler
    changes nothing: no room, no registry entry, no Redis command, no clock
    reading, no log entry.  The client that sent it gets one ["error"] event
    and nobody else gets anything; for ["typing"] and ["stop_typing"] there
    is no answer at all. *)
Theorem rejected_event_changes_nothing (clock : nat → Z) (redis_ok : nat → bool)
    (sessionID : string) (ev : client_event) (h : SocketIOHandler) :
  accepted ev = false →
  ∃ es, dispatch clock redis_ok sessionID ev h = emit_all es h
    ∧ (is_typing ev = true → es = [])
    ∧ (is_typing ev = false →
         ∃ message, es = [Emit (ToClient sessionID) "error" (PError message)]).
Proof.
  unfold accepted. intros Hrej.
  destruct ev as [args|args|args|args|args|args]; cbn [dispatch args_of is_typing] in *.
  - unfold on_join. destruct (first_map args) as [| |data].
    + eexists. split; [reflexivity|]. split; [done|]. intros _. by eexists.
    + eexists. split; [reflexivity|]. split; [done|]. intros _. by eexists.
    + apply bool_decide_eq_false in Hrej. apply dec_stable in Hrej.
      rewrite (bool_decide_eq_true_2 _ Hrej).
      eexists. split; [reflexivity|]. split; [done|]. intros _. by eexists.
  - unfold on_join_room. destruct (first_map args) as [| |data].
    1,2: eexists; (split; [reflexivity|]); split; [done|]; intros _; by eexists.
    assert (bool_decide (str_field data "roomId" = "")
            || bool_decide (str_field data "userName" = "") = true) as ->.
    { apply andb_false_iff in Hrej. apply orb_true_iff.
      destruct Hrej as [H|H]; [left|right]; apply bool_decide_eq_false in H;
        apply dec_stable in H; by apply bool_decide_eq_true. }
    eexists; (split; [reflexivity|]); split; [done|]; intros _; by eexists.
  - unfold on_leave_room. destruct (first_map args) as [| |data].
    1,2: eexists; (split; [reflexivity|]); split; [done|]; intros _; by eexists.
    assert (bool_decide (str_field data "roomId" = "")
            || bool_decide (str_field data "userName" = "") = true) as ->.
    { apply andb_false_iff in Hrej. apply orb_true_iff.
      destruct Hrej as [H|H]; [left|right]; apply bool_decide_eq_false in H;
        apply dec_stable in H; by apply bool_decide_eq_true. }
    eexists; (split; [reflexivity|]); split; [done|]; intros _; by eexists.
  - unfold handleMessage. destruct (first_map args) as [| |data].
    1,2: eexists; (split; [reflexivity|]); split; [done|]; intros _; by eexists.
    assert (bool_decide (str_field data "content" = "")
            || bool_decide (str_field data "sender" = "") = true) as ->.
    { apply andb_false_iff in Hrej. apply orb_true_iff.
      destruct Hrej as [H|H]; [left|right]; apply bool_decide_eq_false in H;
        apply dec_stable in H; by apply bool_decide_eq_true. }
    eexists; (split; [reflexivity|]); split; [done|]; intros _; by eexists.
  - exists []. rewrite emit_all_nil. split; [|done].
    unfold on_typing. destruct (first_map args) as [| |data]; try done.
    by rewrite Hrej.
  - exists []. rewrite emit_all_nil. split; [|done].
    unfold on_typing. destruct (first_map args) as [| |data]; try done.
    by rewrite Hrej.
Qed.

Lemma rejected_event_changes_nothing_witness :
  ∃ es, dispatch Fixtures.wall Fixtures.redis_up "s1"
          (EvJoinRoom (Fixtures.room_args "" "alice"))
          (Fixtures.alice_in_general Fixtures.redis_up)
        = emit_all es (Fixtures.alice_in_general Fixtures.redis_up)
    ∧ (is_typing (EvJoinRoom (Fixtures.room_args "" "alice")) = true → es = [])
    ∧ (is_typing (EvJoinRoom (Fixtures.room_args "" "alice")) = false →
         ∃ message, es = [Emit (ToClient "s1") "error" (PError message)]).
Proof.
  apply (rejected_event_changes_nothing Fixtures.wall Fixtures.redis_up "s1"
           (EvJoinRoom (Fixtures.room_args "" "alice"))
           (Fixtures.alice_in_general Fixtures.redis_up)).
  reflexivity.
Defined.

(** ** Sessions *)

Lemma on_join_user clock redis_ok s args data h :
  first_map args = IsMap data →
  str_field data "userName" ≠ "" →
  ∃ user, sessions (on_join clock redis_ok s args h) = <[s := user]> (sessions h)
    ∧ User_ID user = str_field data "userName"
    ∧ User_Name user = User_ID user
    ∧ User_Status user = "online"
    ∧ User_Metadata user !! "sessionId" = Some s
    ∧ (∃ d, User_Metadata user !! "deviceInfo" = Some d ∧ d ≠ "").
Proof.
  intros Hf Hu. unfold on_join. rewrite Hf, (bool_decide_eq_false_2 _ Hu).
  cbn [time_Now]. rewrite broadcastToUserDevices_emit_all.
  eexists. split.
  - cbn. case_bool_decide; reflexivity.
  - cbn. split_and!; try done.
    case_bool_decide as Hd; eexists; (split; [reflexivity|]); done.
Qed.

Lemma dispatch_server_dom clock redis_ok s ev h s' :
  is_Some (server (dispatch clock redis_ok s ev h) !! s') ↔ is_Some (server h !! s').
Proof.
  destruct ev as [args|args|args|args|args|args]; cbn [dispatch].
  - unfold on_join. destruct (first_map args) as [| |data]; try done.
    case_bool_decide; [done|]. cbn [time_Now].
    rewrite broadcastToUserDevices_emit_all. cbn. by case_bool_decide.
  - unfold on_join_room. destruct (first_map args) as [| |data]; try done.
    destruct (_ || _); [done|]. cbn.
    destruct (server h !! s) as [rooms|] eqn:E; [|done].
    rewrite lookup_insert. case_decide; [subst; by rewrite E|done].
  - unfold on_leave_room. destruct (first_map args) as [| |data]; try done.
    destruct (_ || _); [done|]. cbn.
    destruct (server h !! s) as [rooms|] eqn:E; [|done].
    rewrite lookup_insert. case_decide; [subst; by rewrite E|done].
  - by destruct (handleMessage_chat_only clock redis_ok s args h) as (-> & _).
  - unfold on_typing. destruct (first_map args) as [| |data]; try done.
    by destruct (_ && _).
  - unfold on_typing. destruct (first_map args) as [| |data]; try done.
    by destruct (_ && _).
Qed.

Lemma session_ok_dom h h' s user :
  (∀ s', is_Some (server h !! s') → is_Some (server h' !! s')) →
  session_ok h s user → session_ok h' s user.
Proof. intros Hd (A & B). split; [by apply Hd|done]. Qed.

Lemma step_keeps_connected clock redis_ok h e s' :
  registry_ok h →
  is_Some (server h !! s') →
  (∀ args, e ≠ Disconnect s' args) →
  is_Some (server (step clock redis_ok h e) !! s').
Proof.
  intros Hok Hs' Hne. destruct e as [sid|sid ev|sid args|p]; cbn [step].
  - case_bool_decide; [done|]. destruct (server h !! sid) eqn:E; [done|].
    cbn. rewrite lookup_insert_eq. rewrite lookup_insert. case_decide; [by eexists|].
    rewrite lookup_insert_ne by done. done.
  - destruct (server h !! sid); [|done]. by apply dispatch_server_dom.
  - destruct (server h !! sid) eqn:E; [|done].
    assert (sid ≠ s') as Hn by (intros ->; by destruct (Hne args)).
    destruct (sessions h !! sid) as [user|] eqn:Es.
    + destruct (leave_facts redis_ok h sid args user Hok Es)
        as (_ & _ & _ & _ & _ & _ & -> & _). by rewrite lookup_delete_ne.
    + rewrite on_disconnect_unknown by done. cbn. by rewrite lookup_delete_ne.
  - destruct (subscribed _); [|done]. destruct p as [m|]; [|done].
    cbn [relay_receive]. by destruct (broadcastMessage_chat_only m h) as (-> & _).
Qed.

Lemma sessions_ok_step clock redis_ok h e :
  registry_ok h → sessions_ok h → sessions_ok (step clock redis_ok h e).
Proof.
  intros Hok [S1 S2].
  destruct (step_cases clock redis_ok h e)
    as [(Hq & _ & Hnl)|[(s & u & args & Hj & He & E)|(s & u & args & Hl & He & E)]].
  - destruct Hq as (Q1 & Q2 & _). split.
    + intros s user Hs. rewrite Q1 in Hs. pose proof (S1 _ _ Hs) as Hso.
      destruct Hso as (Hc & Hrest). split; [|done].
      apply step_keeps_connected; [done|done|].
      intros args ->. apply (Hnl s (User_ID user)). by exists args, user.
    + intros u l. rewrite Q2. apply S2.
  - rewrite E. destruct Hj as (args' & data & He' & Hc & Hf & Hd & Hne).
    rewrite He in He'. injection He' as <-. subst u.
    destruct (on_join_accepted clock redis_ok s args data h Hf Hne)
      as (Hus & _ & Hsrv & _).
    destruct (on_join_user clock redis_ok s args data h Hf Hne)
      as (user & Hse & Hid & Hrest).
    split.
    + intros s0 user0. rewrite Hse, lookup_insert. case_decide as Hs0.
      * intros [= <-]. subst s0. split; [by rewrite Hsrv|].
        split; [by rewrite Hid|done].
      * intros H0. destruct (S1 _ _ H0) as (Hc0 & Hrest0). split; [by rewrite Hsrv|done].
    + intros u l. rewrite Hus, lookup_insert. case_decide; [by subst|apply S2].
  - rewrite E. destruct Hl as (args' & user & He' & Hc & Hs & Hid).
    rewrite He in He'. injection He' as <-. subst u.
    destruct (leave_facts redis_ok h s args user Hok Hs)
      as (l & i & Hl & Hi & Hdev & Hse & Hsrv & Hempty & Hrest).
    split.
    + intros s0 user0. rewrite Hse, lookup_delete. case_decide as Hs0; [done|].
      intros H0. destruct (S1 _ _ H0) as (Hc0 & Hrest0). split; [|done].
      by rewrite Hsrv, lookup_delete_ne.
    + intros u l0. destruct (decide (delete i l = [])) as [El|El].
      * destruct (Hempty El) as [-> _]. rewrite lookup_delete.
        case_decide; [done|apply S2].
      * destruct (Hrest El) as [-> _]. rewrite lookup_insert.
        case_decide; [|apply S2]. intros _. subst u. by destruct (S1 _ _ Hs) as (_ & ? & _).
Qed.

Lemma sessions_ok_new redis_ok : sessions_ok (NewSocketIOHandler redis_ok).
Proof.
  unfold NewSocketIOHandler, subscribeToRedis, SubscribeToMessages, subscribe_confirm.
  cbn. destruct (redis_ok 0); cbn; (split; intros ?? H; done).
Qed.

Lemma reachable_sessions_ok clock redis_ok h :
  reachable clock redis_ok h → registry_ok h ∧ sessions_ok h.
Proof.
  intros [es <-].
  assert (∀ h0, registry_ok h0 → sessions_ok h0 →
            registry_ok (run clock redis_ok es h0)
            ∧ sessions_ok (run clock redis_ok es h0)) as Hrun.
  { induction es as [|e es IH]; intros h0 H1 H2; [done|]. cbn.
    apply IH; [by apply registry_ok_step|by apply sessions_ok_step]. }
  apply Hrun; [apply registry_ok_new|apply sessions_ok_new].
Qed.

(** X7: in every state the process gets to, a session of the registry
    belongs to a connected socket, is on the device list of its identity,
    and its user record is the one ["join"] builds: a name that is not empty
    and is also the id, status "online", the session id and a device
    description that is not empty in the metadata.  No identity is kept with
    an empty device list or under the empty name. *)
Theorem registry_invariant (clock : nat → Z) (redis_ok : nat → bool)
    (h : SocketIOHandler) :
  reachable clock redis_ok h →
  (∀ s user, sessions h !! s = Some user →
     is_Some (server h !! s)
     ∧ s ∈ devicesOf h (User_ID user)
     ∧ User_ID user ≠ ""
     ∧ User_Name user = User_ID user
     ∧ User_Status user = "online"
     ∧ User_Metadata user !! "sessionId" = Some s
     ∧ (∃ d, User_Metadata user !! "deviceInfo" = Some d ∧ d ≠ ""))
  ∧ (∀ u l, userSessions h !! u = Some l → l ≠ [] ∧ u ≠ "").
Proof.
  intros Hr. destruct (reachable_sessions_ok _ _ _ Hr) as [(_ & I1 & I2) [S1 S2]].
  split.
  - intros s user Hs. destruct (S1 _ _ Hs) as (A & B & C & D & E & F).
    split_and!; try done. by apply I2.
  - intros u l Hl. split; [by eapply I1|by eapply S2].
Qed.

Lemma registry_invariant_witness :
  (∀ s user, sessions ScenarioA.two_devices !! s = Some user →
     is_Some (server ScenarioA.two_devices !! s)
     ∧ s ∈ devicesOf ScenarioA.two_devices (User_ID user)
     ∧ User_ID user ≠ ""
     ∧ User_Name user = User_ID user
     ∧ User_Status user = "online"
     ∧ User_Metadata user !! "sessionId" = Some s
     ∧ (∃ d, User_Metadata user !! "deviceInfo" = Some d ∧ d ≠ ""))
  ∧ (∀ u l, userSessions ScenarioA.two_devices !! u = Some l → l ≠ [] ∧ u ≠ "").
Proof.
  apply (registry_invariant Fixtures.wall Fixtures.redis_up ScenarioA.two_devices).
  eexists. reflexivity.
Defined.

(** ** Presence over a whole run *)

Lemma occurrences_app e es1 es2 :
  occurrences e (es1 ++ es2) = occurrences e es1 + occurrences e es2.
Proof. unfold occurrences. by rewrite filter_app, length_app. Qed.

Lemma occurrences_cons e x es :
  occurrences e (x :: es) = (if decide (x = e) then 1 else 0) + occurrences e es.
Proof.
  unfold occurrences. case_decide.
  - by rewrite filter_cons_True.
  - by rewrite filter_cons_False.
Qed.

Lemma occurrences_nil e : occurrences e [] = 0.
Proof. done. Qed.

Ltac count_singletons :=
  rewrite ?occurrences_cons, ?occurrences_nil;
  repeat (case_decide; try done;
          try (unfold online_event, offline_event in *; congruence));
  cbn; try lia.

Lemma occurrences_none e es : e ∉ es → occurrences e es = 0.
Proof.
  intros Hn. unfold occurrences. induction es as [|x es IH]; [done|].
  apply not_elem_of_cons in Hn as [Hne Hn].
  rewrite filter_cons_False by (by intros ->). by apply IH.
Qed.

Lemma occurrences_quiet e es :
  presence_name (em_event e) →
  Forall (λ x, ¬ presence_name (em_event x)) es → occurrences e es = 0.
Proof.
  intros He Hes. apply occurrences_none. intros Hin.
  rewrite Forall_forall in Hes. by apply (Hes e).
Qed.

Lemma occurrences_other_event e (f : string → emission) l :
  (∀ s, em_event (f s) ≠ em_event e) → occurrences e (map f l) = 0.
Proof.
  intros Hf. apply occurrences_none. intros Hin.
  apply list_elem_of_fmap in Hin as (s & -> & _). by destruct (Hf s).
Qed.

Lemma balanced_step clock redis_ok h e u :
  registry_ok h → balanced h u → balanced (step clock redis_ok h e) u.
Proof.
  intros Hok Hb. unfold balanced in *.
  destruct (step_cases clock redis_ok h e)
    as [(Hq & _)|[(s & u0 & args & Hj & He & E)|(s & u0 & args & Hl & He & E)]].
  - destruct Hq as (_ & Q2 & _ & _ & _ & es & -> & Hes).
    rewrite !occurrences_app.
    rewrite !(occurrences_quiet _ es) by (done || by left).
    unfold devicesOf in *. rewrite Q2. lia.
  - rewrite E. destruct Hj as (args' & data & He' & Hc & Hf & Hd & Hne).
    rewrite He in He'. injection He' as <-. subst u0.
    destruct (on_join_accepted clock redis_ok s args data h Hf Hne)
      as (Hus & _ & _ & _ & d & ->).
    rewrite (devicesOf_insert _ _ _ _ _ Hus).
    rewrite !occurrences_app, !(occurrences_other_event _ _ _) by done.
    set (l := devicesOf h (str_field data "userName")) in *.
    rewrite length_app. cbn [length].
    destruct (decide (str_field data "userName" = u)) as [Eu|Eu].
    + subst l. rewrite Eu in *. set (l := devicesOf h u) in *.
      rewrite decide_False by (by destruct l).
      destruct l as [|x l'].
      * rewrite decide_True in Hb by done. cbn [length Nat.add].
        rewrite (bool_decide_eq_true_2 (1 = 1)) by done. count_singletons.
      * rewrite decide_False in Hb by done.
        rewrite bool_decide_eq_false_2 by (cbn; lia). count_singletons.
    + case_bool_decide; count_singletons.
  - rewrite E. destruct Hl as (args' & user & He' & Hc & Hs & Hid).
    rewrite He in He'. injection He' as <-. subst u0.
    destruct (leave_facts redis_ok h s args user Hok Hs)
      as (l & i & Hl & Hi & Hdev & _ & _ & Hempty & Hrest).
    assert (l ≠ []) as Hl0 by (intros ->; done).
    destruct (decide (delete i l = [])) as [El|El].
    + destruct (Hempty El) as [Hus ->]. rewrite (devicesOf_delete _ _ _ _ Hus).
      rewrite !occurrences_app. destruct (decide (User_ID user = u)) as [Eu|Eu].
      * rewrite <- Eu in *. rewrite Hdev in Hb. rewrite decide_False in Hb by done.
        rewrite decide_True by done. count_singletons.
      * count_singletons.
    + destruct (Hrest El) as [Hus ->]. rewrite (devicesOf_insert _ _ _ _ _ Hus).
      rewrite !occurrences_app, !(occurrences_other_event _ _ _) by done.
      destruct (decide (User_ID user = u)) as [Eu|Eu]; [|lia].
      rewrite <- Eu in *. rewrite Hdev in Hb. rewrite decide_False in Hb by done.
      rewrite decide_False by done. lia.
Qed.

Lemma reachable_balanced clock redis_ok h u :
  reachable clock redis_ok h → balanced h u.
Proof.
  intros [es <-].
  assert (∀ h0, registry_ok h0 → balanced h0 u →
            balanced (run clock redis_ok es h0) u) as Hrun.
  { induction es as [|e es IH]; intros h0 H1 H2; [done|]. cbn.
    apply IH; [by apply registry_ok_step|by apply balanced_step]. }
  apply Hrun; [apply registry_ok_new|].
  unfold balanced, NewSocketIOHandler, subscribeToRedis, SubscribeToMessages,
    subscribe_confirm.
  cbn. by destruct (redis_ok 0).
Qed.

(** X8: in every state the process gets to and for every identity, the
    "online" broadcasts are as many as the "offline" broadcasts when the
    identity has no device on its list, and one more when it has: the two
    alternate, "online" first, and the last one tells whether the identity
    has a device. *)
Theorem presence_balance (clock : nat → Z) (redis_ok : nat → bool)
    (h : SocketIOHandler) (u : string) :
  reachable clock redis_ok h →
  occurrences (online_event u) (emitted h)
  = occurrences (offline_event u) (emitted h)
    + (if decide (devicesOf h u = []) then 0 else 1).
Proof. apply reachable_balanced. Qed.

Lemma presence_balance_witness :
  occurrences (online_event "alice") (emitted ScenarioA.two_devices)
  = occurrences (offline_event "alice") (emitted ScenarioA.two_devices)
    + (if decide (devicesOf ScenarioA.two_devices "alice" = []) then 0 else 1).
Proof.
  apply (presence_balance Fixtures.wall Fixtures.redis_up ScenarioA.two_devices "alice").
  eexists. reflexivity.
Defined.

(** ** [GetOnlineUsers] *)

Lemma omap_length_le {A B} (f : A → option B) (l : list A) :
  length (omap f l) ≤ length l.
Proof. induction l as [|x l IH]; cbn; [done|]. destruct (f x); cbn; lia. Qed.

(** X9: in every state the process gets to, [GetOnlineUsers] lists an
    identity exactly when one more "online" than "offline" has been broadcast
    for it.  A listed identity has status "online", a device count of at
    least one that is the length of its device list, and at most as many
    devices as the count; every device shown is a session of the registry on
    that device list, with a device description that is not empty. *)
Theorem GetOnlineUsers_matches_presence (clock : nat → Z) (redis_ok : nat → bool)
    (h : SocketIOHandler) (u : string) :
  reachable clock redis_ok h →
  (GetOnlineUsers h !! u = None ↔
     occurrences (online_event u) (emitted h) = occurrences (offline_event u) (emitted h))
  ∧ ∀ o, GetOnlineUsers h !! u = Some o →
      occurrences (online_event u) (emitted h)
      = S (occurrences (offline_event u) (emitted h))
      ∧ ou_status o = "online"
      ∧ ou_deviceCount o = length (devicesOf h u)
      ∧ 1 ≤ ou_deviceCount o
      ∧ length (ou_devices o) ≤ ou_deviceCount o
      ∧ ∀ s d t, (s, d, t) ∈ ou_devices o →
          s ∈ devicesOf h u ∧ is_Some (sessions h !! s) ∧ d ≠ "".
Proof.
  intros Hr. pose proof (reachable_balanced _ _ _ u Hr) as Hb.
  destruct (reachable_sessions_ok _ _ _ Hr) as [(_ & I1 & _) [S1 _]].
  unfold balanced, devicesOf in Hb. unfold GetOnlineUsers, devicesOf.
  rewrite lookup_fmap. destruct (userSessions h !! u) as [l|] eqn:El; cbn in *.
  - specialize (I1 _ _ El). rewrite decide_False in Hb by done. split.
    + split; [done|lia].
    + intros o [= <-]. cbn. split_and!; try done.
      * lia.
      * destruct l; [done|cbn; lia].
      * apply omap_length_le.
      * intros s d t Hin. apply list_elem_of_omap in Hin as (s' & Hs' & Hf).
        destruct (sessions h !! s') as [user|] eqn:Es; [|done].
        injection Hf as -> <- <-. split; [done|]. split; [by eexists|].
        destruct (S1 _ _ Es) as (_ & _ & _ & _ & _ & d & -> & Hd). done.
  - rewrite decide_True in Hb by done. split; [split; [lia|done]|done].
Qed.

Lemma GetOnlineUsers_matches_presence_witness :
  (GetOnlineUsers ScenarioA.two_devices !! "alice" = None ↔
     occurrences (online_event "alice") (emitted ScenarioA.two_devices)
     = occurrences (offline_event "alice") (emitted ScenarioA.two_devices))
  ∧ ∀ o, GetOnlineUsers ScenarioA.two_devices !! "alice" = Some o →
      occurrences (online_event "alice") (emitted ScenarioA.two_devices)
      = S (occurrences (offline_event "alice") (emitted ScenarioA.two_devices))
      ∧ ou_status o = "online"
      ∧ ou_deviceCount o = length (devicesOf ScenarioA.two_devices "alice")
      ∧ 1 ≤ ou_deviceCount o
      ∧ length (ou_devices o) ≤ ou_deviceCount o
      ∧ ∀ s d t, (s, d, t) ∈ ou_devices o →
          s ∈ devicesOf ScenarioA.two_devices "alice"
          ∧ is_Some (sessions ScenarioA.two_devices !! s) ∧ d ≠ "".
Proof.
  apply (GetOnlineUsers_matches_presence Fixtures.wall Fixtures.redis_up
           ScenarioA.two_devices "alice").
  eexists. reflexivity.
Defined.

(** ** Disconnecting twice *)

Lemma on_disconnect_sessions redis_ok s args h :
  sessions (on_disconnect redis_ok s args h) = delete s (sessions h).
Proof.
  unfold on_disconnect. cbn [sessions userSessions log].
  destruct (sessions h !! s) as [user|] eqn:Es; [|by rewrite delete_id].
  destruct (userSessions h !! User_ID user) as [l0|]; [|reflexivity].
  destruct (index_of s l0) as [i|].
  all: rewrite !broadcastToUserDevices_emit_all; cbn;
       case_bool_decide; reflexivity.
Qed.

(** X10: whatever the state, after the ["disconnect"] handler has run for a
    session the session is not in the registry, the other sessions are as
    they were, and running the handler for it once more changes nothing
    but the log. *)
Theorem disconnect_twice (redis_ok : nat → bool) (s : string) (args args' : list any)
    (h : SocketIOHandler) :
  let h1 := on_disconnect redis_ok s args h in
  sessions h1 !! s = None
  ∧ (∀ s', s' ≠ s → sessions h1 !! s' = sessions h !! s')
  ∧ on_disconnect redis_ok s args' h1 = log InfoLevel "Device disconnected" h1.
Proof.
  intros h1. subst h1.
  assert (sessions (on_disconnect redis_ok s args h) !! s = None) as Hs
    by (rewrite on_disconnect_sessions; apply lookup_delete_eq).
  split; [done|]. split.
  - intros s' Hne. rewrite on_disconnect_sessions. by apply lookup_delete_ne.
  - by apply on_disconnect_unknown.
Qed.

(** ** Rooms *)

(** X11: a connected socket that sends ["join_room"] with a room and a user
    name is in the room afterwards, whatever Redis answers: the room is told
    "user_joined_room", which reaches the socket itself, and the socket is
    told "room_joined".  When it then sends ["leave_room"] it is out of the
    room, also when the room is its own private room, and the
    "user_left_room" that the room is told does not reach it.  The rooms of
    the other sockets and the registry are as before. *)
Theorem join_room_then_leave_room (redis_ok : nat → bool) (s : string)
    (data : gmap string value) (h : SocketIOHandler) :
  is_Some (server h !! s) →
  str_field data "roomId" ≠ "" →
  str_field data "userName" ≠ "" →
  let room := str_field data "roomId" in
  let name := str_field data "userName" in
  let h1 := on_join_room redis_ok s [AMap data] h in
  let h2 := on_leave_room redis_ok s [AMap data] h1 in
  reaches (server h1) (ToRoom room) s = true
  ∧ emitted h1 = emitted h
      ++ [Emit (ToRoom room) "user_joined_room" (PRoomUser name room);
          Emit (ToClient s) "room_joined" (PRoomJoined room name)]
  ∧ reaches (server h2) (ToRoom room) s = false
  ∧ emitted h2 = emitted h1 ++ [Emit (ToRoom room) "user_left_room" (PRoomUser name room)]
  ∧ (∀ s', s' ≠ s → server h1 !! s' = server h !! s' ∧ server h2 !! s' = server h !! s')
  ∧ sessions h2 = sessions h ∧ userSessions h2 = userSessions h.
Proof.
  intros [rooms Hc] Hr Hn room name h1 h2. subst h1 h2.
  unfold on_join_room, on_leave_room. cbn [first_map].
  fold room name. rewrite (bool_decide_eq_false_2 _ Hr), (bool_decide_eq_false_2 _ Hn).
  cbn. rewrite Hc. cbn. rewrite ?lookup_insert_eq. cbn. rewrite ?lookup_insert_eq.
  split_and!; try done.
  - apply bool_decide_eq_true. set_solver.
  - by rewrite <- app_assoc.
  - apply bool_decide_eq_false. set_solver.
  - intros s' Hne. by rewrite ?lookup_insert_ne by done.
Qed.

Lemma join_room_then_leave_room_witness :
  let h := Fixtures.alice_in_general Fixtures.redis_up in
  let data : gmap string value :=
    <["roomId" := VString "dev"]> (<["userName" := VString "alice"]> ∅) in
  let room := str_field data "roomId" in
  let name := str_field data "userName" in
  let h1 := on_join_room Fixtures.redis_up "s1" [AMap data] h in
  let h2 := on_leave_room Fixtures.redis_up "s1" [AMap data] h1 in
  reaches (server h1) (ToRoom room) "s1" = true
  ∧ emitted h1 = emitted h
      ++ [Emit (ToRoom room) "user_joined_room" (PRoomUser name room);
          Emit (ToClient "s1") "room_joined" (PRoomJoined room name)]
  ∧ reaches (server h2) (ToRoom room) "s1" = false
  ∧ emitted h2 = emitted h1 ++ [Emit (ToRoom room) "user_left_room" (PRoomUser name room)]
  ∧ (∀ s', s' ≠ "s1" → server h1 !! s' = server h !! s' ∧ server h2 !! s' = server h !! s')
  ∧ sessions h2 = sessions h ∧ userSessions h2 = userSessions h.
Proof.
  apply (join_room_then_leave_room Fixtures.redis_up "s1"
           (<["roomId" := VString "dev"]> (<["userName" := VString "alice"]> ∅))
           (Fixtures.alice_in_general Fixtures.redis_up)).
  - vm_compute. by eexists.
  - vm_compute. discriminate.
  - vm_compute. discriminate.
Defined.

(** X12: the members Redis keeps of a room are user names, the rooms of the
    transport hold sockets.  When a socket sends ["leave_room"] under a user
    name and Redis is up, the name is no member of the room in Redis any
    more, while every other socket that is in the room, a second device of
    the same user among them, is still reached by what the room is told. *)
Theorem leave_room_forgets_other_devices (redis_ok : nat → bool) (s1 s2 : string)
    (data : gmap string value) (h : SocketIOHandler) :
  (∀ n, redis_ok n = true) →
  str_field data "roomId" ≠ "" →
  str_field data "userName" ≠ "" →
  s1 ≠ s2 →
  reaches (server h) (ToRoom (str_field data "roomId")) s2 = true →
  let h' := on_leave_room redis_ok s1 [AMap data] h in
  (str_field data "userName"
     ∉ members_of redis_ok (str_field data "roomId") (redisService h'))
  ∧ reaches (server h') (ToRoom (str_field data "roomId")) s2 = true.
Proof.
  intros Hup Hr Hn Hne Hreach h'. subst h'.
  unfold on_leave_room. cbn [first_map].
  rewrite (bool_decide_eq_false_2 _ Hr), (bool_decide_eq_false_2 _ Hn).
  cbn -[String.append members_of]. split.
  - unfold members_of, GetRoomMembers, RemoveUserFromRoom.
    rewrite ?Hup. cbn -[String.append]. rewrite ?Hup. cbn -[String.append].
    destruct (sets (redisService h) !! _) as [members|] eqn:E.
    + case_decide.
      * rewrite lookup_delete_eq. cbn. set_solver.
      * rewrite lookup_insert_eq. cbn. rewrite elem_of_elements. set_solver.
    + rewrite E. cbn. set_solver.
  - destruct (server h !! s1); [|done]. by rewrite lookup_insert_ne.
Qed.

Lemma leave_room_forgets_other_devices_witness :
  let h' := on_leave_room Fixtures.redis_up "s1" [AMap TwoInGeneral.leave_general]
              TwoInGeneral.both in
  (str_field TwoInGeneral.leave_general "userName"
     ∉ members_of Fixtures.redis_up (str_field TwoInGeneral.leave_general "roomId")
         (redisService h'))
  ∧ reaches (server h') (ToRoom (str_field TwoInGeneral.leave_general "roomId")) "s2"
    = true.
Proof.
  apply (leave_room_forgets_other_devices Fixtures.redis_up "s1" "s2"
           TwoInGeneral.leave_general TwoInGeneral.both).
  - reflexivity.
  - vm_compute. discriminate.
  - vm_compute. discriminate.
  - discriminate.
  - reflexivity.
Defined.

(** ** A direct message to nobody *)

Lemma handleMessage_loop_keeps clock redis_ok client messageType content sender roomID
    receiver k n : ∀ i h,
  holds_for content receiver k h →
  holds_for content receiver k
    (handleMessage_loop clock redis_ok client messageType content sender roomID
       receiver n i h).
Proof.
  induction n as [|n IH]; intros i h Hk; [done|].
  rewrite handleMessage_loop_S. unfold generateMessageID, time_Now, StoreMessage.
  cbn [redisService cmds]. destruct (redis_ok (cmds (redisService h))).
  - apply IH. rewrite broadcastMessage_emit_all. unfold holds_for in *.
    cbn -[String.append]. destruct Hk as (m & Hm & Hc & Hr).
    match goal with |- context [<[?key := RJson ?msg]> _] =>
      destruct (decide (key = k)) as [<-|Hne];
      [exists msg; by rewrite lookup_insert_eq
      |exists m; by rewrite lookup_insert_ne] end.
  - exact Hk.
Qed.

Lemma handleMessage_loop_holds clock redis_ok client messageType content sender roomID
    receiver n : ∀ i h m,
  (∀ j, j < n → redis_ok (cmds (redisService h) + j) = true) →
  m ∈ loop_messages clock messageType content sender roomID receiver n i (ticks h) →
  holds_for content receiver ("message:" +:+ ID m)
    (handleMessage_loop clock redis_ok client messageType content sender roomID
       receiver n i h).
Proof.
  induction n as [|n IH]; intros i h m Hup; cbn [loop_messages];
    [by intros ?%not_elem_of_nil|].
  intros Hin. rewrite handleMessage_loop_S.
  unfold generateMessageID, time_Now, StoreMessage. cbn [redisService cmds].
  pose proof (Hup 0 (Nat.lt_0_succ n)) as H0. rewrite Nat.add_0_r in H0. rewrite H0.
  apply elem_of_cons in Hin as [->|Hin].
  - apply handleMessage_loop_keeps. rewrite broadcastMessage_emit_all.
    unfold holds_for. cbn -[String.append]. eexists.
    rewrite lookup_insert_eq. done.
  - rewrite broadcastMessage_emit_all. apply IH; [|exact Hin].
    intros j Hj. cbn. rewrite <- Nat.add_succ_r. apply Hup. lia.
Qed.

Lemma flat_map_all_nil {A B} (f : A → list B) (l : list A) :
  Forall (λ x, f x = []) l → flat_map f l = [].
Proof. induction 1 as [|x l Hx _ IH]; cbn; [done|]. by rewrite Hx, IH. Qed.

(** X13: a valid ["message"] with no room and with a receiver who has no
    device on the list is stored (Redis being up) and then goes nowhere: the
    handler emits nothing, neither to the receiver nor as an "error" to the
    sender, and the registry is as before. *)
Theorem direct_message_to_absent_receiver (clock : nat → Z) (redis_ok : nat → bool)
    (client : string) (args : list any) (data : gmap string value)
    (h : SocketIOHandler) :
  first_map args = IsMap data →
  str_field data "content" ≠ "" →
  str_field data "sender" ≠ "" →
  str_field data "roomId" = "" →
  str_field data "receiver" ≠ "" →
  devicesOf h (str_field data "receiver") = [] →
  (∀ j, j < 10 → redis_ok (cmds (redisService h) + j) = true) →
  let h' := handleMessage clock redis_ok client args h in
  emitted h' = emitted h
  ∧ sessions h' = sessions h ∧ userSessions h' = userSessions h
  ∧ ∃ id, holds_for (str_field data "content") (str_field data "receiver")
            ("message:" +:+ id) h'.
Proof.
  intros Hargs Hc Hs Hroom Hrcv Hdev Hup h'.
  destruct (handleMessage_chat_only clock redis_ok client args h)
    as (_ & E2 & E3 & _).
  fold h' in E2, E3. split_and!; try done.
  - subst h'. unfold handleMessage. rewrite Hargs.
    rewrite (bool_decide_eq_false_2 _ Hc), (bool_decide_eq_false_2 _ Hs). cbn [orb].
    rewrite handleMessage_loop_stored by done.
    rewrite flat_map_all_nil; [by rewrite app_nil_r|].
    apply Forall_forall. intros m Hm. apply loop_messages_fields in Hm as (Hr & Hv & _).
    unfold broadcast_of. rewrite Hr, Hroom, Hv.
    rewrite bool_decide_eq_false_2 by (by intros ?).
    rewrite (bool_decide_eq_true_2 _ Hrcv). by rewrite Hdev.
  - subst h'. unfold handleMessage. rewrite Hargs.
    rewrite (bool_decide_eq_false_2 _ Hc), (bool_decide_eq_false_2 _ Hs). cbn [orb].
    eexists. apply handleMessage_loop_holds; [done|]. cbn [loop_messages].
    apply list_elem_of_here.
Qed.

Lemma direct_message_to_absent_receiver_witness :
  let h := Fixtures.alice_in_general Fixtures.redis_up in
  let data : gmap string value :=
    <["content" := VString "hi"]>
      (<["sender" := VString "alice"]> (<["receiver" := VString "bob"]> ∅)) in
  let h' := handleMessage Fixtures.wall Fixtures.redis_up "s1" [AMap data] h in
  emitted h' = emitted h
  ∧ sessions h' = sessions h ∧ userSessions h' = userSessions h
  ∧ ∃ id, holds_for (str_field data "content") (str_field data "receiver")
            ("message:" +:+ id) h'.
Proof.
  apply (direct_message_to_absent_receiver Fixtures.wall Fixtures.redis_up "s1"
           [AMap (<["content" := VString "hi"]>
                    (<["sender" := VString "alice"]> (<["receiver" := VString "bob"]> ∅)))]
           (<["content" := VString "hi"]>
              (<["sender" := VString "alice"]> (<["receiver" := VString "bob"]> ∅)))
           (Fixtures.alice_in_general Fixtures.redis_up)).
  - reflexivity.
  - vm_compute. discriminate.
  - vm_compute. discriminate.
  - reflexivity.
  - vm_compute. discriminate.
  - reflexivity.
  - reflexivity.
Defined.

(** ** The replay, at a concrete sequence *)

Lemma devicesOf_replay_witness :
  devicesOf
    (replay Fixtures.wall Fixtures.redis_up
       [RJoin "s1" "alice"; RJoin "s2" "alice"; RLeave "s1"]
       (NewSocketIOHandler Fixtures.redis_up)) "alice"
  = joined_not_left "alice" [RJoin "s1" "alice"; RJoin "s2" "alice"; RLeave "s1"].
Proof.
  apply (devicesOf_replay Fixtures.wall Fixtures.redis_up
           [RJoin "s1" "alice"; RJoin "s2" "alice"; RLeave "s1"] "alice").
  intros ops1 s u ops2 H.
  destruct ops1 as [|o1 [|o2 [|o3 [|o4 ops1]]]]; simplify_eq/=.
  - split; [done|]. intros u'. apply not_elem_of_nil.
  - split; [done|]. intros u'. case_decide.
    + rewrite list_elem_of_singleton. discriminate.
    + apply not_elem_of_nil.
Defined.

(** ** internal/config *)

Lemma digit_pretty_N_char (d : N) :
  (d < 10)%N → config.digit (pretty_N_char d) = Some (Z.of_N d).
Proof.
  intros H.
  assert (d = 0 ∨ d = 1 ∨ d = 2 ∨ d = 3 ∨ d = 4 ∨ d = 5 ∨ d = 6 ∨ d = 7 ∨ d = 8 ∨ d = 9)%N
    as Hd by lia.
  repeat destruct Hd as [->|Hd]; try subst d; reflexivity.
Qed.

Lemma digits_pretty_N_go (x : N) :
  ∃ k : Z, (0 ≤ k)%Z ∧ ∀ s acc,
    config.digits acc (pretty_N_go x s) = config.digits (acc * 10 ^ k + Z.of_N x)%Z s.
Proof.
  induction (N.lt_wf_0 x) as [x _ IH].
  destruct (decide (x = 0%N)) as [->|Hx].
  - exists 0%Z. split; [done|]. intros s acc. rewrite pretty_N_go_0. f_equal. lia.
  - destruct (IH (x `div` 10)%N) as (k & Hk & IHk).
    { apply N.div_lt; lia. }
    exists (k + 1)%Z. split; [lia|]. intros s acc.
    rewrite pretty_N_go_step by lia. rewrite IHk. cbn [config.digits].
    rewrite digit_pretty_N_char by (apply N.mod_lt; lia).
    f_equal. rewrite Z.pow_add_r by lia.
    pose proof (N.div_mod x 10 ltac:(lia)) as Hdm.
    assert (Z.of_N x = 10 * Z.of_N (x `div` 10) + Z.of_N (x `mod` 10))%Z as -> by lia.
    lia.
Qed.

Lemma digits_pretty_pos (p : positive) :
  config.digits 0 (pretty (Npos p)) = Some (Zpos p).
Proof.
  unfold pretty, pretty_N. rewrite decide_False by done.
  destruct (digits_pretty_N_go (Npos p)) as (k & _ & Hk).
  rewrite Hk. reflexivity.
Qed.

Lemma digits_first (acc v : Z) (c : Ascii.ascii) (s : string) :
  config.digits acc (String c s) = Some v →
  String c "" ≠ "-" ∧ String c "" ≠ "+".
Proof.
  cbn [config.digits]. destruct (config.digit c) as [d|] eqn:Hd; [|done].
  intros _. split; intros [= ->]; discriminate Hd.
Qed.

Lemma pretty_pos_nonempty (p : positive) : pretty (Npos p) ≠ "".
Proof.
  intros H. pose proof (digits_pretty_pos p) as Hd. rewrite H in Hd. discriminate Hd.
Qed.

(** [strconv.Atoi] reads back what [strconv.Itoa] prints. *)
Lemma Atoi_Itoa (n : Z) :
  (- 2 ^ 63 ≤ n ≤ 2 ^ 63 - 1)%Z → config.Atoi (config.Itoa n) = Some n.
Proof.
  intros Hn. unfold config.Itoa, pretty, pretty_Z. destruct n as [|p|p];
    try change (pretty p) with (pretty (Npos p)).
  - reflexivity.
  - pose proof (digits_pretty_pos p) as Hd. pose proof (pretty_pos_nonempty p) as Hne.
    destruct (pretty (Npos p)) as [|c s] eqn:Hs; [done|].
    destruct (digits_first _ _ _ _ Hd) as [Hm Hp].
    unfold config.Atoi. cbv beta iota zeta.
    rewrite (bool_decide_eq_false_2 _ Hm), (bool_decide_eq_false_2 _ Hp).
    cbn [orb]. rewrite Hd. by rewrite bool_decide_eq_true_2.
  - pose proof (digits_pretty_pos p) as Hd. pose proof (pretty_pos_nonempty p) as Hne.
    lazy beta iota zeta delta [String.append config.Atoi].
    rewrite bool_decide_eq_true_2 by done. cbn [orb].
    destruct (pretty (Npos p)) as [|c s] eqn:Hs; [done|].
    rewrite Hd. rewrite bool_decide_eq_true_2 by lia. reflexivity.
Qed.

Lemma Itoa_nonempty (n : Z) : config.Itoa n ≠ "".
Proof.
  unfold config.Itoa, pretty, pretty_Z. destruct n as [|p|p]; [done| |done].
  apply (pretty_pos_nonempty p).
Qed.

Lemma env_string_set (get : config.Config → string) (set : string → config.Config → config.Config)
    (env : gmap string string) (key : string) (c : config.Config) :
  (∀ c, set (get c) c = c) →
  config.env_string env key set c
  = set (if bool_decide (config.Getenv env key ≠ "") then config.Getenv env key else get c) c.
Proof. intros H. unfold config.env_string. by case_bool_decide. Qed.

Lemma env_int_set (get : config.Config → Z) (set : Z → config.Config → config.Config)
    (env : gmap string string) (key : string) (c : config.Config) :
  (∀ c, set (get c) c = c) →
  config.env_int env key set c
  = set (if bool_decide (config.Getenv env key ≠ "")
         then default (get c) (config.Atoi (config.Getenv env key)) else get c) c.
Proof.
  intros H. unfold config.env_int. case_bool_decide; [|done].
  destruct (config.Atoi _); cbn; [done|by rewrite H].
Qed.

Lemma default_string_set (get : config.Config → string)
    (set : string → config.Config → config.Config) (d : string) (c : config.Config) :
  (∀ c, set (get c) c = c) →
  config.default_string get set d c = set (if bool_decide (get c = "") then d else get c) c.
Proof. intros H. unfold config.default_string. by case_bool_decide. Qed.

Lemma default_int_set (get : config.Config → Z)
    (set : Z → config.Config → config.Config) (d : Z) (c : config.Config) :
  (∀ c, set (get c) c = c) →
  config.default_int get set d c = set (if bool_decide (get c = 0%Z) then d else get c) c.
Proof. intros H. unfold config.default_int. by case_bool_decide. Qed.

Lemma default_port_set (c : config.Config) :
  (if bool_decide (config.Port (config.Server c) ≤ 0)%Z then config.set_Port 8080 c else c)
  = config.set_Port
      (if bool_decide (config.Port (config.Server c) ≤ 0)%Z
       then 8080%Z else config.Port (config.Server c)) c.
Proof. case_bool_decide; [done|]. by destruct c as [[] ? ? ? ?]. Qed.

Ltac config_eta := by intros [[] [] [] [] []].

Ltac config_norm :=
  unfold config.set_Port, config.set_Host, config.set_Env, config.set_Addr,
    config.set_Password, config.set_DB, config.set_CORSOrigins,
    config.set_PingTimeout, config.set_PingInterval, config.set_MaxFileSize,
    config.set_UploadDir, config.set_BaseURL, config.set_Level, config.set_Format,
    config.with_Server, config.with_Redis, config.with_SocketIO, config.with_Upload,
    config.with_Logging;
  cbn [config.Server config.Redis config.SocketIO config.Upload config.Logging
       config.Port config.Host config.Env config.Addr config.Password config.DB
       config.CORSOrigins config.PingTimeout config.PingInterval
       config.MaxFileSize config.UploadDir config.BaseURL config.Level config.Format].

(** Rewrites the innermost step of a chain of updates, the one applied to
    a configuration whose fields are known, and computes the new fields. *)
Ltac config_step :=
  match goal with
  | |- context [config.env_string ?en ?key ?st (config.Build_Config ?r1 ?r2 ?r3 ?r4 ?r5)] =>
      first
        [ rewrite (env_string_set (λ c, config.Host (config.Server c)) st en key
                     (config.Build_Config r1 r2 r3 r4 r5)) by config_eta
        | rewrite (env_string_set (λ c, config.Env (config.Server c)) st en key
                     (config.Build_Config r1 r2 r3 r4 r5)) by config_eta
        | rewrite (env_string_set (λ c, config.Addr (config.Redis c)) st en key
                     (config.Build_Config r1 r2 r3 r4 r5)) by config_eta
        | rewrite (env_string_set (λ c, config.Password (config.Redis c)) st en key
                     (config.Build_Config r1 r2 r3 r4 r5)) by config_eta
        | rewrite (env_string_set (λ c, config.CORSOrigins (config.SocketIO c)) st en key
                     (config.Build_Config r1 r2 r3 r4 r5)) by config_eta
        | rewrite (env_string_set (λ c, config.UploadDir (config.Upload c)) st en key
                     (config.Build_Config r1 r2 r3 r4 r5)) by config_eta
        | rewrite (env_string_set (λ c, config.Level (config.Logging c)) st en key
                     (config.Build_Config r1 r2 r3 r4 r5)) by config_eta
        | rewrite (env_string_set (λ c, config.Format (config.Logging c)) st en key
                     (config.Build_Config r1 r2 r3 r4 r5)) by config_eta ]
  | |- context [config.env_int ?en ?key ?st (config.Build_Config ?r1 ?r2 ?r3 ?r4 ?r5)] =>
      first
        [ rewrite (env_int_set (λ c, config.Port (config.Server c)) st en key
                     (config.Build_Config r1 r2 r3 r4 r5)) by config_eta
        | rewrite (env_int_set (λ c, config.DB (config.Redis c)) st en key
                     (config.Build_Config r1 r2 r3 r4 r5)) by config_eta
        | rewrite (env_int_set (λ c, config.MaxFileSize (config.Upload c)) st en key
                     (config.Build_Config r1 r2 r3 r4 r5)) by config_eta ]
  | |- context [config.default_string ?gt ?st ?v (config.Build_Config ?r1 ?r2 ?r3 ?r4 ?r5)] =>
      rewrite (default_string_set gt st v (config.Build_Config r1 r2 r3 r4 r5)) by config_eta
  | |- context [config.default_int ?gt ?st ?v (config.Build_Config ?r1 ?r2 ?r3 ?r4 ?r5)] =>
      rewrite (default_int_set gt st v (config.Build_Config r1 r2 r3 r4 r5)) by config_eta
  end;
  config_norm.


(** What [loadFromEnv] leaves in each field. *)
Lemma loadFromEnv_fields (env : gmap string string) (c : config.Config) :
  let var := config.Getenv env in
  let str (key : string) (old : string) :=
    if bool_decide (var key ≠ "") then var key else old in
  let int (key : string) (old : Z) :=
    if bool_decide (var key ≠ "") then default old (config.Atoi (var key)) else old in
  config.loadFromEnv env c =
  {| config.Server :=
       {| config.Port := int "PORT" (config.Port (config.Server c));
          config.Host := str "HOST" (config.Host (config.Server c));
          config.Env := str "ENV" (config.Env (config.Server c)) |};
     config.Redis :=
       {| config.Addr := str "REDIS_ADDR" (config.Addr (config.Redis c));
          config.Password := str "REDIS_PASSWORD" (config.Password (config.Redis c));
          config.DB := int "REDIS_DB" (config.DB (config.Redis c)) |};
     config.SocketIO :=
       {| config.CORSOrigins :=
            str "SOCKET_IO_CORS_ORIGINS" (config.CORSOrigins (config.SocketIO c));
          config.PingTimeout := config.PingTimeout (config.SocketIO c);
          config.PingInterval := config.PingInterval (config.SocketIO c) |};
     config.Upload :=
       {| config.MaxFileSize := int "MAX_FILE_SIZE" (config.MaxFileSize (config.Upload c));
          config.UploadDir := str "UPLOAD_DIR" (config.UploadDir (config.Upload c));
          config.BaseURL := config.BaseURL (config.Upload c) |};
     config.Logging :=
       {| config.Level := str "LOG_LEVEL" (config.Level (config.Logging c));
          config.Format := str "LOG_FORMAT" (config.Format (config.Logging c)) |} |}.
Proof.
  intros var str int. unfold config.loadFromEnv. cbv zeta.
  destruct c as [[] [] [] [] []]. repeat config_step.
  reflexivity.
Qed.

(** What [validate] leaves in each field; it never fails. *)
Lemma validate_fields (c : config.Config) :
  let str (d : string) (old : string) := if bool_decide (old = "") then d else old in
  let int (d : Z) (old : Z) := if bool_decide (old = 0%Z) then d else old in
  config.validate c =
  ({| config.Server :=
        {| config.Port :=
             if bool_decide (config.Port (config.Server c) ≤ 0)%Z
             then 8080%Z else config.Port (config.Server c);
           config.Host := str "localhost" (config.Host (config.Server c));
           config.Env := str "development" (config.Env (config.Server c)) |};
      config.Redis :=
        {| config.Addr := str "localhost:6379" (config.Addr (config.Redis c));
           config.Password := config.Password (config.Redis c);
           config.DB := config.DB (config.Redis c) |};
      config.SocketIO :=
        {| config.CORSOrigins := str "*" (config.CORSOrigins (config.SocketIO c));
           config.PingTimeout :=
             int (60 * config.Second)%Z (config.PingTimeout (config.SocketIO c));
           config.PingInterval :=
             int (25 * config.Second)%Z (config.PingInterval (config.SocketIO c)) |};
      config.Upload :=
        {| config.MaxFileSize := int 10485760%Z (config.MaxFileSize (config.Upload c));
           config.UploadDir := str "uploads/" (config.UploadDir (config.Upload c));
           config.BaseURL := str "/uploads" (config.BaseURL (config.Upload c)) |};
      config.Logging :=
        {| config.Level := str "info" (config.Level (config.Logging c));
           config.Format := str "json" (config.Format (config.Logging c)) |} |}, None).
Proof.
  intros str int. unfold config.validate. cbv zeta.
  destruct c as [[] [] [] [] []]. rewrite default_port_set. config_norm. repeat config_step.
  reflexivity.
Qed.

Lemma validate_complete (c : config.Config) : config.complete (config.validate c).1.
Proof.
  rewrite validate_fields. unfold config.complete. cbn [fst]. config_norm.
  repeat split; case_bool_decide; try done; lia.
Qed.

(** X15: [validate] never returns an error, and the configurations it leaves
    as they are are exactly the complete ones: every field it looks at is
    set.  In particular validating twice is validating once. *)
Theorem validate_fixpoint (c : config.Config) :
  (config.validate c).2 = None
  ∧ ((config.validate c).1 = c ↔ config.complete c)
  ∧ config.validate (config.validate c).1 = config.validate c.
Proof.
  assert (∀ c, config.complete c → (config.validate c).1 = c) as Hfix.
  { clear c. intros c (HP & HH & HE & HA & HC & HT & HI & HM & HU & HB & HL & HF).
    rewrite validate_fields. cbn [fst].
    rewrite !bool_decide_eq_false_2 by (done || lia).
    by destruct c as [[] [] [] [] []]. }
  split; [by rewrite validate_fields|]. split.
  - split; [|apply Hfix]. intros <-. apply validate_complete.
  - pose proof (Hfix _ (validate_complete c)) as H.
    rewrite (validate_fields (config.validate c).1) in H |- *.
    rewrite (validate_fields c) in H |- *. cbn [fst] in H |- *. by rewrite H.
Qed.

(** X16: [Load] never fails, whatever the file and the environment hold: it
    returns a complete configuration, and it logs its one warning exactly
    when the file could not be read. *)
Theorem Load_always_complete (file : config.Config * error) (env : gmap string string) :
  ∃ cfg,
    config.Load file env
      = (Some cfg, None,
         match file.2 with
         | Some _ => [(WarnLevel, "Failed to load config file, using defaults")]
         | None => []
         end)
    ∧ config.complete cfg.
Proof.
  destruct file as [c err]. exists (config.validate (config.loadFromEnv env c)).1.
  split; [|apply validate_complete].
  unfold config.Load. rewrite validate_fields. cbn [fst]. by destruct err.
Qed.

(** X17: each string setting is taken from the first place that has it: the
    environment variable if it is not empty, or else the file, or else the
    default of [validate]. *)
Theorem Load_string_fields (file : config.Config * error) (env : gmap string string)
    (key : string) (get : config.Config → string) (d : string) :
  (key, get, d) ∈ config.string_fields →
  ∃ cfg,
    (config.Load file env).1 = (Some cfg, None)
    ∧ get cfg = config.first_set [config.Getenv env key; get file.1; d].
Proof.
  intros Hin. destruct file as [c err].
  exists (config.validate (config.loadFromEnv env c)).1. split.
  { unfold config.Load. by rewrite validate_fields. }
  unfold config.string_fields in Hin.
  repeat (apply elem_of_cons in Hin as [[= -> -> ->]|Hin];
    [rewrite validate_fields; cbn [fst config.first_set]; config_norm;
     rewrite loadFromEnv_fields; config_norm;
     repeat case_bool_decide; congruence|]).
  by apply elem_of_nil in Hin.
Qed.

Lemma Load_string_fields_witness :
  ∃ cfg,
    (config.Load (config.set_Host "files.example" config.zero, None)
       {["HOST" := "0.0.0.0"]}).1 = (Some cfg, None)
    ∧ config.Host (config.Server cfg)
      = config.first_set
          [config.Getenv {["HOST" := "0.0.0.0"]} "HOST";
           config.Host (config.Server (config.set_Host "files.example" config.zero));
           "localhost"].
Proof.
  apply (Load_string_fields (config.set_Host "files.example" config.zero, None)
           {["HOST" := "0.0.0.0"]} "HOST" (λ c, config.Host (config.Server c)) "localhost").
  unfold config.string_fields. apply list_elem_of_here.
Defined.

(** X18: a [PORT] variable that holds a number always replaces the port of
    the file, also when the number is not a usable port: the server then
    listens on 8080, not on the port the file asked for. *)
Theorem Load_port_from_env (file : config.Config * error) (env : gmap string string) (p : Z) :
  (- 2 ^ 63 ≤ p ≤ 2 ^ 63 - 1)%Z →
  env !! "PORT" = Some (config.Itoa p) →
  ∃ cfg,
    (config.Load file env).1 = (Some cfg, None)
    ∧ config.Port (config.Server cfg) = (if bool_decide (p ≤ 0)%Z then 8080 else p)%Z.
Proof.
  intros Hp Henv. destruct file as [c err].
  exists (config.validate (config.loadFromEnv env c)).1. split.
  { unfold config.Load. by rewrite validate_fields. }
  rewrite validate_fields. cbn [fst]. config_norm.
  rewrite loadFromEnv_fields. config_norm.
  unfold config.Getenv. rewrite Henv. unfold default. cbn [from_option id].
  rewrite (bool_decide_eq_true_2 _ (Itoa_nonempty p)).
  rewrite Atoi_Itoa by done. reflexivity.
Qed.

Lemma Load_port_from_env_witness :
  ∃ cfg,
    (config.Load (config.set_Port 9000 config.zero, None) {["PORT" := "-1"]}).1
      = (Some cfg, None)
    ∧ config.Port (config.Server cfg) = 8080%Z.
Proof.
  apply (Load_port_from_env (config.set_Port 9000 config.zero, None)
           {["PORT" := "-1"]} (-1)).
  - lia.
  - reflexivity.
Defined.

(** ** File uploads *)

Lemma string_of_list_ascii_app (a b : list Ascii.ascii) :
  String.string_of_list_ascii (a ++ b)
  = String.string_of_list_ascii a +:+ String.string_of_list_ascii b.
Proof.
  induction a as [|c a IH]; [done|]. cbn [app String.string_of_list_ascii].
  rewrite IH. reflexivity.
Qed.

Lemma string_length_app (a b : string) :
  String.length (a +:+ b) = String.length a + String.length b.
Proof.
  induction a as [|c a IH]; [done|].
  change (String c a +:+ b) with (String c (a +:+ b)). cbn [String.length].
  by rewrite IH.
Qed.

Lemma ext_scan_suffix (rev_path suffix : list Ascii.ascii) :
  ext_scan rev_path suffix `suffix_of` reverse rev_path ++ suffix.
Proof.
  revert suffix. induction rev_path as [|c rest IH]; intros suffix; cbn [ext_scan].
  - apply suffix_nil.
  - rewrite reverse_cons, <- app_assoc. cbn [app].
    case_bool_decide; [apply suffix_nil|].
    case_bool_decide; [apply suffix_app_r; done|]. apply IH.
Qed.

Lemma Ext_suffix (path : string) :
  String.list_ascii_of_string (Ext path) `suffix_of` String.list_ascii_of_string path.
Proof.
  unfold Ext. rewrite String.list_ascii_of_string_of_list_ascii.
  pose proof (ext_scan_suffix (reverse (String.list_ascii_of_string path)) []) as H.
  by rewrite reverse_involutive, app_nil_r in H.
Qed.

(** The base name and the extension make up the file name. *)
Lemma TrimSuffix_Ext (fileName : string) :
  TrimSuffix fileName (Ext fileName) +:+ Ext fileName = fileName.
Proof.
  unfold TrimSuffix. pose proof (Ext_suffix fileName) as Hs.
  rewrite bool_decide_eq_true_2 by done. destruct Hs as [k Hk].
  transitivity (String.string_of_list_ascii
                  (k ++ String.list_ascii_of_string (Ext fileName))).
  - rewrite string_of_list_ascii_app. f_equal.
    + f_equal. rewrite Hk, length_app.
      replace (length k + length (String.list_ascii_of_string (Ext fileName))
               - length (String.list_ascii_of_string (Ext fileName)))
        with (length k) by lia.
      by rewrite take_app_length.
    + symmetry. apply String.string_of_list_ascii_of_string.
  - rewrite <- Hk. apply String.string_of_list_ascii_of_string.
Qed.

Lemma pretty_N_go_length_ge (x : N) (s : string) :
  String.length s ≤ String.length (pretty_N_go x s).
Proof.
  revert s. induction (N.lt_wf_0 x) as [x _ IH]. intros s.
  destruct (decide (x = 0%N)) as [->|Hx]; [by rewrite pretty_N_go_0|].
  rewrite pretty_N_go_step by lia.
  etrans; [|apply IH; apply N.div_lt; lia]. cbn. lia.
Qed.

Lemma pretty_N_go_length (k : nat) (x : N) (s : string) :
  (10 ^ N.of_nat k ≤ x)%N →
  String.length s + k + 1 ≤ String.length (pretty_N_go x s).
Proof.
  revert x s. induction k as [|k IH]; intros x s Hx.
  - rewrite pretty_N_go_step by (cbn in Hx; lia).
    etrans; [|apply pretty_N_go_length_ge]. cbn. lia.
  - assert (10 ^ N.of_nat (S k) = 10 * 10 ^ N.of_nat k)%N as Hp.
    { rewrite Nat2N.inj_succ, N.pow_succ_r'. done. }
    assert (0 < 10 ^ N.of_nat k)%N by (apply N.neq_0_lt_0, N.pow_nonzero; lia).
    rewrite pretty_N_go_step by lia.
    etrans; [|apply IH]. { cbn. lia. }
    apply N.div_le_lower_bound; lia.
Qed.

Lemma pretty_length (t : Z) : (10 ^ 7 ≤ t)%Z → 8 ≤ String.length (pretty t).
Proof.
  intros Ht. destruct t as [|p|p]; [lia| |lia].
  change (pretty (Z.pos p)) with (pretty_N (N.pos p)). unfold pretty_N.
  rewrite decide_False by done.
  pose proof (pretty_N_go_length 7 (N.pos p) "") as H. cbn [String.length] in H.
  etrans; [|apply H]; lia.
Qed.

(** With the clock past the first hundredth of a second of 1970, an id has
    its eight characters. *)
Lemma generateMessageID_slice (clock : nat → Z) (h : SocketIOHandler) :
  (10 ^ 7 ≤ clock (ticks h))%Z →
  is_Some (slice_to 8 (generateMessageID clock h).1).
Proof.
  intros Ht. unfold generateMessageID, time_Now, slice_to. cbn.
  rewrite bool_decide_eq_true_2; [done|].
  rewrite string_length_app. pose proof (pretty_length _ Ht). lia.
Qed.

Lemma slice_to_id (t : Z) (s : string) :
  (10 ^ 7 ≤ t)%Z → slice_to 8 (pretty t +:+ s) ≠ None.
Proof.
  intros Ht. unfold slice_to. rewrite bool_decide_eq_true_2; [done|].
  rewrite string_length_app. pose proof (pretty_length _ Ht). lia.
Qed.

Lemma broadcastMessage_no_receiver (m : Message) (h : SocketIOHandler) :
  Receiver m = "" → broadcastMessage m h = emit_all [to_room_or_all m] h.
Proof.
  intros Hr. rewrite broadcastMessage_emit_all. unfold broadcast_of, to_room_or_all.
  rewrite Hr. by repeat case_bool_decide.
Qed.

Ltac upload_error :=
  eexists _, _, _; split; [reflexivity|]; cbn; split; [reflexivity|];
  do 3 (split; [reflexivity|]); left; split; [by eexists|]; split; [done|];
  first [by left | right; by eexists].

(** X19: whatever a client sends as ["file_upload"], the handler answers with
    exactly one event and leaves the registry alone.  The event is an error to
    the uploader, and then no message was stored, or it is the file message,
    sent to the room or to everyone and never to one receiver, and then the
    file was written and the message stored. *)
Theorem handleFileUpload_one_event (clock : nat → Z) (redis_ok : nat → bool)
    (DecodeString : string → option (list Byte.byte)) (Join : string → string → string)
    (write_ok : nat → bool) (cfg : config.Config) (client : string)
    (args : list any) (written : list disk_write) (h : SocketIOHandler) :
  clock_past_epoch clock →
  ∃ written' h' e,
    handleFileUpload clock redis_ok DecodeString Join write_ok cfg client args written h
      = Some (written', h')
    ∧ emitted h' = emitted h ++ [e]
    ∧ registry h' = registry h
    ∧ sets (redisService h') = sets (redisService h)
    ∧ published (redisService h') = published (redisService h)
    ∧ ((error_to client e
        ∧ kv (redisService h') = kv (redisService h)
        ∧ (written' = written ∨ ∃ d, written' = written ++ [d]))
       ∨ (∃ m d,
            e = to_room_or_all m
            ∧ Type_ m = FileMessage ∧ Receiver m = ""
            ∧ written' = written ++ [d] ∧ dw_ok d = true
            ∧ kv (redisService h') !! ("message:" +:+ ID m) = Some (RJson m))).
Proof.
  intros Hclock. unfold handleFileUpload.
  destruct (first_map args) as [| |data].
  1,2: upload_error.
  destruct (_ || _); [upload_error|].
  destruct (DecodeString _) as [decodedData|]; [|upload_error].
  case_bool_decide; [upload_error|].
  unfold generateMessageID, time_Now. cbn -[slice_to pretty Unix].
  destruct (slice_to 8 _) as [id8|] eqn:Hid; [|by apply slice_to_id in Hid].
  destruct (write_ok (length written)) eqn:Hw; cbn [negb].
  2: upload_error.
  unfold StoreMessage. cbn -[pretty Unix].
  destruct (redis_ok (cmds (redisService h))).
  - rewrite broadcastMessage_no_receiver by reflexivity.
    eexists _, _, _; split; [reflexivity|].
    split; [reflexivity|]. do 3 (split; [reflexivity|]). right.
    eexists _, _. split; [reflexivity|]. cbn -[pretty Unix].
    do 4 (split; [reflexivity|]). apply lookup_insert_eq.
  - upload_error.
Qed.

Lemma handleFileUpload_one_event_witness :
  ∃ written' h' e,
    handleFileUpload Fixtures.wall Fixtures.redis_up UploadFixtures.decode_hello
      UploadFixtures.join_plain UploadFixtures.disk_up UploadFixtures.defaults "s1"
      (UploadFixtures.upload_args "notes.txt" "aGVsbG8=" "alice" "general") []
      (Fixtures.alice_in_general Fixtures.redis_up)
      = Some (written', h')
    ∧ emitted h' = emitted (Fixtures.alice_in_general Fixtures.redis_up) ++ [e]
    ∧ registry h' = registry (Fixtures.alice_in_general Fixtures.redis_up)
    ∧ sets (redisService h')
      = sets (redisService (Fixtures.alice_in_general Fixtures.redis_up))
    ∧ published (redisService h')
      = published (redisService (Fixtures.alice_in_general Fixtures.redis_up))
    ∧ ((error_to "s1" e
        ∧ kv (redisService h')
          = kv (redisService (Fixtures.alice_in_general Fixtures.redis_up))
        ∧ (written' = [] ∨ ∃ d, written' = [] ++ [d]))
       ∨ (∃ m d,
            e = to_room_or_all m
            ∧ Type_ m = FileMessage ∧ Receiver m = ""
            ∧ written' = [] ++ [d] ∧ dw_ok d = true
            ∧ kv (redisService h') !! ("message:" +:+ ID m) = Some (RJson m))).
Proof.
  apply (handleFileUpload_one_event Fixtures.wall Fixtures.redis_up
           UploadFixtures.decode_hello UploadFixtures.join_plain UploadFixtures.disk_up
           UploadFixtures.defaults "s1"
           (UploadFixtures.upload_args "notes.txt" "aGVsbG8=" "alice" "general") []
           (Fixtures.alice_in_general Fixtures.redis_up)).
  intros n. unfold Fixtures.wall. lia.
Defined.

(** X20: an upload that passes every check and whose file and message are
    both saved.  The file is written once, under a name made of the base
    name of the name the client gave, the second the clock showed, the first
    eight characters of an id generated then, and the extension.  The
    message that is stored is the one that is broadcast; its id is a second
    generated id, its time the reading of the clock after that, and its
    metadata point at the URL of the name that was written. *)
Theorem handleFileUpload_success (clock : nat → Z) (redis_ok : nat → bool)
    (DecodeString : string → option (list Byte.byte)) (Join : string → string → string)
    (write_ok : nat → bool) (cfg : config.Config) (client : string)
    (args : list any) (written : list disk_write) (h : SocketIOHandler)
    (data : gmap string value) (bytes : list Byte.byte) :
  let fileName := str_field data "fileName" in
  let stamp := time_Now clock h in
  let nameID := generateMessageID clock stamp.2 in
  let messageID := generateMessageID clock nameID.2 in
  clock_past_epoch clock →
  first_map args = IsMap data →
  fileName ≠ "" →
  str_field data "fileData" ≠ "" →
  str_field data "sender" ≠ "" →
  DecodeString (str_field data "fileData") = Some bytes →
  (Z.of_nat (length bytes) ≤ config.MaxFileSize (config.Upload cfg))%Z →
  write_ok (length written) = true →
  redis_ok (cmds (redisService h)) = true →
  ∃ name id8 m h',
    handleFileUpload clock redis_ok DecodeString Join write_ok cfg client args written h
      = Some (written
              ++ [DiskWrite (Join (config.UploadDir (config.Upload cfg)) name) bytes true],
              h')
    ∧ slice_to 8 nameID.1 = Some id8
    ∧ name = TrimSuffix fileName (Ext fileName) +:+ "_"
             +:+ pretty (Unix stamp.1) +:+ "_" +:+ id8 +:+ Ext fileName
    ∧ TrimSuffix fileName (Ext fileName) +:+ Ext fileName = fileName
    ∧ emitted h' = emitted h ++ [to_room_or_all m]
    ∧ kv (redisService h') = <["message:" +:+ ID m := RJson m]> (kv (redisService h))
    ∧ ID m = messageID.1
    ∧ Timestamp m = (time_Now clock messageID.2).1
    ∧ Type_ m = FileMessage
    ∧ Content m = "File: " +:+ fileName
    ∧ Sender m = str_field data "sender"
    ∧ Room m = str_field data "roomId"
    ∧ Receiver m = ""
    ∧ Metadata m
      = Some {| FileName := fileName;
                FileSize := Z.of_nat (length bytes);
                FileType := str_field data "fileType";
                FileURL := config.BaseURL (config.Upload cfg) +:+ "/" +:+ name |}.
Proof.
  intros fileName stamp nameID messageID Hclock Hargs Hname Hdata Hsender Hdec Hsize Hw Hr.
  subst stamp nameID messageID.
  unfold handleFileUpload. rewrite Hargs. fold fileName.
  rewrite !bool_decide_eq_false_2 by done. cbn [orb]. rewrite Hdec.
  rewrite bool_decide_eq_false_2 by lia.
  unfold generateMessageID, time_Now. cbn -[slice_to pretty Unix].
  destruct (slice_to 8 _) as [id8|] eqn:Hid; [|by apply slice_to_id in Hid].
  rewrite Hw. cbn [negb]. unfold StoreMessage. cbn -[pretty Unix]. rewrite Hr.
  rewrite broadcastMessage_no_receiver by reflexivity.
  eexists _, id8, _, _. split; [reflexivity|]. split; [reflexivity|].
  split; [reflexivity|].
  split; [apply TrimSuffix_Ext|]. split; [reflexivity|]. by repeat split.
Qed.

Lemma handleFileUpload_success_witness :
  ∃ m h',
    handleFileUpload Fixtures.wall Fixtures.redis_up UploadFixtures.decode_hello
      UploadFixtures.join_plain UploadFixtures.disk_up UploadFixtures.defaults "s1"
      (UploadFixtures.upload_args "notes.txt" "aGVsbG8=" "alice" "general") []
      (Fixtures.alice_in_general Fixtures.redis_up)
      = Some ([DiskWrite "uploads/notes_1700000000_17000000.txt"
                 (String.list_byte_of_string "hello") true],
              h')
    ∧ emitted h'
      = emitted (Fixtures.alice_in_general Fixtures.redis_up) ++ [to_room_or_all m]
    ∧ Content m = "File: notes.txt"
    ∧ Room m = "general".
Proof.
  destruct (handleFileUpload_success Fixtures.wall Fixtures.redis_up
              UploadFixtures.decode_hello UploadFixtures.join_plain UploadFixtures.disk_up
              UploadFixtures.defaults "s1"
              (UploadFixtures.upload_args "notes.txt" "aGVsbG8=" "alice" "general") []
              (Fixtures.alice_in_general Fixtures.redis_up)
              (UploadFixtures.upload_data "notes.txt" "aGVsbG8=" "alice" "general")
              (String.list_byte_of_string "hello"))
    as (name & id8 & m & h' & Hrun & Hid & Hname & _ & Hemit & _ & _ & _ & _ & Hcontent
        & _ & Hroom & _).
  - intros n. unfold Fixtures.wall. lia.
  - reflexivity.
  - by vm_compute.
  - by vm_compute.
  - by vm_compute.
  - reflexivity.
  - by vm_compute.
  - reflexivity.
  - reflexivity.
  - vm_compute in Hid. injection Hid as <-. vm_compute in Hname. subst name.
    exists m, h'. split; [exact Hrun|]. split; [exact Hemit|].
    split; [exact Hcontent|exact Hroom].
Defined.



(** X21: the file is written before the message is stored, and nothing undoes
    the write: when Redis refuses the message, the file stays on the disk,
    the uploader is told that sending failed, and no one is sent its URL. *)
Theorem upload_stays_on_disk_when_store_fails (clock : nat → Z) (redis_ok : nat → bool)
    (DecodeString : string → option (list Byte.byte)) (Join : string → string → string)
    (write_ok : nat → bool) (cfg : config.Config) (client : string)
    (args : list any) (written : list disk_write) (h : SocketIOHandler)
    (data : gmap string value) (bytes : list Byte.byte) :
  clock_past_epoch clock →
  first_map args = IsMap data →
  str_field data "fileName" ≠ "" →
  str_field data "fileData" ≠ "" →
  str_field data "sender" ≠ "" →
  DecodeString (str_field data "fileData") = Some bytes →
  (Z.of_nat (length bytes) ≤ config.MaxFileSize (config.Upload cfg))%Z →
  write_ok (length written) = true →
  redis_ok (cmds (redisService h)) = false →
  ∃ path h',
    handleFileUpload clock redis_ok DecodeString Join write_ok cfg client args written h
      = Some (written ++ [DiskWrite path bytes true], h')
    ∧ emitted h'
      = emitted h ++ [Emit (ToClient client) "error" (PError "Failed to send file")]
    ∧ kv (redisService h') = kv (redisService h).
Proof.
  intros Hclock Hargs Hname Hdata Hsender Hdec Hsize Hw Hr.
  unfold handleFileUpload. rewrite Hargs.
  rewrite !bool_decide_eq_false_2 by done. cbn [orb]. rewrite Hdec.
  rewrite bool_decide_eq_false_2 by lia.
  unfold generateMessageID, time_Now. cbn -[slice_to pretty Unix].
  destruct (slice_to 8 _) as [id8|] eqn:Hid; [|by apply slice_to_id in Hid].
  rewrite Hw. cbn [negb]. unfold StoreMessage. cbn -[pretty Unix]. rewrite Hr.
  eexists _, _. split; [reflexivity|]. by split.
Qed.

Lemma upload_stays_on_disk_when_store_fails_witness :
  ∃ path h',
    handleFileUpload Fixtures.wall (Fixtures.redis_until 0) UploadFixtures.decode_hello
      UploadFixtures.join_plain UploadFixtures.disk_up UploadFixtures.defaults "s1"
      (UploadFixtures.upload_args "notes.txt" "aGVsbG8=" "alice" "general") []
      (NewSocketIOHandler (Fixtures.redis_until 0))
      = Some ([] ++ [DiskWrite path (String.list_byte_of_string "hello") true], h')
    ∧ emitted h'
      = emitted (NewSocketIOHandler (Fixtures.redis_until 0))
        ++ [Emit (ToClient "s1") "error" (PError "Failed to send file")]
    ∧ kv (redisService h') = kv (redisService (NewSocketIOHandler (Fixtures.redis_until 0))).
Proof.
  apply (upload_stays_on_disk_when_store_fails Fixtures.wall (Fixtures.redis_until 0)
           UploadFixtures.decode_hello UploadFixtures.join_plain UploadFixtures.disk_up
           UploadFixtures.defaults "s1"
           (UploadFixtures.upload_args "notes.txt" "aGVsbG8=" "alice" "general") []
           (NewSocketIOHandler (Fixtures.redis_until 0))
           (UploadFixtures.upload_data "notes.txt" "aGVsbG8=" "alice" "general")
           (String.list_byte_of_string "hello")).
  - intros n. unfold Fixtures.wall. lia.
  - reflexivity.
  - by vm_compute.
  - by vm_compute.
  - by vm_compute.
  - reflexivity.
  - by vm_compute.
  - reflexivity.
  - reflexivity.
Defined.

(** X22: the HTTP upload saves the file and answers, and that is all: it
    emits no event, sends nothing to Redis and leaves the registry alone, so
    a file uploaded this way is not announced to anyone.  It answers 200
    exactly when the write succeeded, with the URL of the name it wrote. *)
Theorem HandleFileUpload_announces_nothing (clock : nat → Z)
    (Join : string → string → string) (write_ok : nat → bool) (cfg : config.Config)
    (form : option FileHeader) (written : list disk_write) (h : SocketIOHandler) :
  clock_past_epoch clock →
  ∃ resp written' h',
    HandleFileUpload clock Join write_ok cfg form written h = Some (resp, written', h')
    ∧ emitted h' = emitted h
    ∧ redisService h' = redisService h
    ∧ registry h' = registry h
    ∧ match resp with
      | StatusOK fileURL fileName fileSize =>
          ∃ file name,
            form = Some file
            ∧ written'
              = written ++ [DiskWrite (Join (config.UploadDir (config.Upload cfg)) name)
                              (file_content file) true]
            ∧ fileURL = config.BaseURL (config.Upload cfg) +:+ "/" +:+ name
            ∧ fileName = Filename file
            ∧ fileSize = Size file
            ∧ (fileSize ≤ config.MaxFileSize (config.Upload cfg))%Z
      | StatusInternalServerError _ =>
          ∃ d, written' = written ++ [d] ∧ dw_ok d = false
      | StatusBadRequest _ => written' = written ∧ h' = h
      end.
Proof.
  intros Hclock. unfold HandleFileUpload.
  destruct form as [file|]; [|by eexists _, _, _].
  case_bool_decide; [by eexists _, _, _|].
  unfold generateMessageID, time_Now. cbn -[slice_to pretty Unix].
  destruct (slice_to 8 _) as [id8|] eqn:Hid; [|by apply slice_to_id in Hid].
  destruct (write_ok (length written)) eqn:Hw; cbn [negb].
  - eexists _, _, _. split; [reflexivity|]. do 3 (split; [reflexivity|]).
    eexists file, _. do 5 (split; [reflexivity|]). lia.
  - eexists _, _, _. split; [reflexivity|]. do 3 (split; [reflexivity|]).
    by eexists.
Qed.

Lemma HandleFileUpload_announces_nothing_witness :
  ∃ resp written' h',
    HandleFileUpload Fixtures.wall UploadFixtures.join_plain UploadFixtures.disk_up
      UploadFixtures.defaults
      (Some {| Filename := "notes.txt";
               file_content := String.list_byte_of_string "hello" |})
      [] (Fixtures.alice_in_general Fixtures.redis_up) = Some (resp, written', h')
    ∧ emitted h' = emitted (Fixtures.alice_in_general Fixtures.redis_up)
    ∧ redisService h' = redisService (Fixtures.alice_in_general Fixtures.redis_up).
Proof.
  destruct (HandleFileUpload_announces_nothing Fixtures.wall UploadFixtures.join_plain
              UploadFixtures.disk_up UploadFixtures.defaults
              (Some {| Filename := "notes.txt";
                       file_content := String.list_byte_of_string "hello" |})
              [] (Fixtures.alice_in_general Fixtures.redis_up))
    as (resp & written' & h' & Hrun & Hemit & Hredis & _).
  - intros n. unfold Fixtures.wall. lia.
  - exists resp, written', h'. split; [exact Hrun|]. split; [exact Hemit|exact Hredis].
Defined.

(** X23: [validate] replaces a size limit of zero only, so a negative
    [MAX_FILE_SIZE] becomes the limit, and then no file gets through: the
    socket handler answers every upload with an error and the HTTP handler
    with 400, and neither writes anything. *)
Theorem negative_limit_refuses_every_file (file : config.Config * error)
    (env : gmap string string) (n : Z) :
  (- 2 ^ 63 ≤ n < 0)%Z →
  env !! "MAX_FILE_SIZE" = Some (config.Itoa n) →
  ∃ cfg,
    (config.Load file env).1 = (Some cfg, None)
    ∧ config.MaxFileSize (config.Upload cfg) = n
    ∧ (∀ clock redis_ok DecodeString Join write_ok client args written h,
         ∃ h' e,
           handleFileUpload clock redis_ok DecodeString Join write_ok cfg client args
             written h = Some (written, h')
           ∧ error_to client e
           ∧ emitted h' = emitted h ++ [e]
           ∧ redisService h' = redisService h)
    ∧ (∀ clock Join write_ok form written h,
         ∃ msg,
           HandleFileUpload clock Join write_ok cfg form written h
             = Some (StatusBadRequest msg, written, h)).
Proof.
  intros Hn Henv. destruct file as [c err].
  exists (config.validate (config.loadFromEnv env c)).1.
  assert (config.MaxFileSize (config.Upload (config.validate (config.loadFromEnv env c)).1)
          = n) as Hmax.
  { rewrite validate_fields. cbn [fst]. config_norm.
    rewrite loadFromEnv_fields. config_norm.
    unfold config.Getenv. rewrite Henv. unfold default. cbn [from_option id].
    rewrite (bool_decide_eq_true_2 _ (Itoa_nonempty n)).
    rewrite Atoi_Itoa by lia. by rewrite bool_decide_eq_false_2 by lia. }
  split. { unfold config.Load. by rewrite validate_fields. }
  split; [exact Hmax|]. split.
  - intros. unfold handleFileUpload. rewrite Hmax.
    destruct (first_map args) as [| |data]; [by eexists _, (Emit _ _ _); repeat split; eexists..|].
    destruct (_ || _); [by eexists _, (Emit _ _ _); repeat split; eexists|].
    destruct (DecodeString _) as [decodedData|];
      [|by eexists _, (Emit _ _ _); repeat split; eexists].
    rewrite bool_decide_eq_true_2 by lia.
    by eexists _, (Emit _ _ _); repeat split; eexists.
  - intros. unfold HandleFileUpload. rewrite Hmax.
    destruct form as [f|]; [|by eexists].
    rewrite bool_decide_eq_true_2 by (unfold Size; lia). by eexists.
Qed.

Lemma negative_limit_refuses_every_file_witness :
  ∃ cfg,
    (config.Load (config.zero, Some "open config.yaml: no such file or directory")
       {["MAX_FILE_SIZE" := "-1"]}).1 = (Some cfg, None)
    ∧ config.MaxFileSize (config.Upload cfg) = (-1)%Z.
Proof.
  destruct (negative_limit_refuses_every_file
              (config.zero, Some "open config.yaml: no such file or directory")
              {["MAX_FILE_SIZE" := "-1"]} (-1)) as (cfg & Hload & Hmax & _).
  - lia.
  - reflexivity.
  - exists cfg. split; [exact Hload|exact Hmax].
Defined.

(** ** The routes of main.go *)

Lemma handleMessage_loop_sets clock redis_ok client messageType content sender roomID
    receiver n : ∀ i h,
  sets (redisService (handleMessage_loop clock redis_ok client messageType content sender
                        roomID receiver n i h))
  = sets (redisService h).
Proof.
  induction n as [|n IH]; intros i h; [done|].
  rewrite handleMessage_loop_S. unfold generateMessageID, time_Now, StoreMessage.
  cbn [redisService cmds]. destruct (redis_ok (cmds (redisService h))); [|done].
  rewrite IH, broadcastMessage_emit_all. reflexivity.
Qed.

Lemma on_join_sets clock redis_ok s args h :
  sets (redisService (on_join clock redis_ok s args h)) = sets (redisService h).
Proof.
  unfold on_join. destruct (first_map args) as [| |data]; try reflexivity.
  case_bool_decide; [reflexivity|].
  cbn [time_Now]. rewrite !broadcastToUserDevices_emit_all.
  unfold redis_call, StoreUserSession. cbn.
  repeat case_bool_decide; destruct (redis_ok _); reflexivity.
Qed.

Lemma on_disconnect_sets redis_ok s args h :
  sets (redisService (on_disconnect redis_ok s args h)) = sets (redisService h).
Proof.
  unfold on_disconnect. cbn [sessions userSessions log].
  destruct (sessions h !! s) as [user|]; [|reflexivity].
  destruct (userSessions h !! User_ID user) as [l0|]; [|reflexivity].
  destruct (index_of s l0) as [i|].
  all: rewrite !broadcastToUserDevices_emit_all;
       unfold redis_call, DeleteUserSession, devicesOf; cbn;
       repeat case_bool_decide; try done; cbn; destruct (redis_ok _); reflexivity.
Qed.

(** Only ["leave_room"] takes a member out of a room of Redis. *)
Lemma step_room_set clock redis_ok h e room name :
  is_leave_room e = false →
  name ∈ room_set h room →
  name ∈ room_set (step clock redis_ok h e) room.
Proof.
  intros He Hin. destruct e as [s|s ev|s args|p]; cbn [step].
  - case_bool_decide; [done|]. by destruct (server h !! s).
  - destruct (server h !! s); [|done].
    destruct ev as [args|args|args|args|args|args]; try done; cbn [dispatch].
    + unfold room_set. by rewrite on_join_sets.
    + unfold on_join_room. destruct (first_map args) as [| |data]; try done.
      destruct (_ || _); [done|]. unfold room_set, redis_call, AddUserToRoom in *.
      cbn. destruct (redis_ok _); [|done]. cbn.
      destruct (decide ("room_members:" +:+ str_field data "roomId"
                        = "room_members:" +:+ room)) as [E|E].
      * rewrite E, lookup_insert_eq. cbn. set_solver.
      * by rewrite lookup_insert_ne.
    + unfold handleMessage. destruct (first_map args) as [| |data]; try done.
      destruct (_ || _); [done|]. unfold room_set. by rewrite handleMessage_loop_sets.
    + unfold on_typing. destruct (first_map args); try done. by destruct (_ && _).
    + unfold on_typing. destruct (first_map args); try done. by destruct (_ && _).
  - destruct (server h !! s); [|done]. unfold room_set. by rewrite on_disconnect_sets.
  - destruct (subscribed _); [|done]. destruct p as [m|]; [|done].
    cbn [relay_receive]. by rewrite broadcastMessage_emit_all.
Qed.

Lemma run_room_set clock redis_ok es room name : ∀ h,
  forallb (λ e, negb (is_leave_room e)) es = true →
  name ∈ room_set h room →
  name ∈ room_set (run clock redis_ok es h) room.
Proof.
  induction es as [|e es IH]; intros h Hes Hin; [done|].
  cbn in Hes. apply andb_true_iff in Hes as [He Hes]. apply negb_true_iff in He.
  cbn. apply IH; [done|]. by apply step_room_set.
Qed.

(** X24: a member of a room in Redis stays one until a ["leave_room"] names
    it: whatever else happens, the disconnect of the user's last device
    included, the members route goes on listing the user. *)
Theorem room_members_outlive_disconnect (clock : nat → Z) (redis_ok : nat → bool)
    (es : list event) (h : SocketIOHandler) (room name : string) :
  name ∈ room_set h room →
  forallb (λ e, negb (is_leave_room e)) es = true →
  redis_ok (cmds (redisService (run clock redis_ok es h))) = true →
  ∃ members,
    (api_room_members redis_ok room (redisService (run clock redis_ok es h))).1
      = ApiMembers members
    ∧ name ∈ members.
Proof.
  intros Hin Hes Hup. pose proof (run_room_set clock redis_ok es room name h Hes Hin) as H.
  unfold api_room_members, GetRoomMembers. rewrite Hup. cbn.
  eexists. split; [reflexivity|]. by apply elem_of_elements.
Qed.

Lemma room_members_outlive_disconnect_witness :
  sessions (run Fixtures.wall Fixtures.redis_up [Disconnect "s1" []]
              (Fixtures.alice_in_general Fixtures.redis_up)) = ∅
  ∧ ∃ members,
      (api_room_members Fixtures.redis_up "general"
         (redisService (run Fixtures.wall Fixtures.redis_up [Disconnect "s1" []]
                          (Fixtures.alice_in_general Fixtures.redis_up)))).1
        = ApiMembers members
      ∧ "alice" ∈ members.
Proof.
  split; [by vm_compute|].
  apply (room_members_outlive_disconnect Fixtures.wall Fixtures.redis_up
           [Disconnect "s1" []] (Fixtures.alice_in_general Fixtures.redis_up)
           "general" "alice").
  - apply (bool_decide_unpack _). by vm_compute.
  - reflexivity.
  - reflexivity.
Defined.

Lemma handleMessage_loop_cmds clock redis_ok client messageType content sender roomID
    receiver n : ∀ i h,
  (∀ j, j < n → redis_ok (cmds (redisService h) + j) = true) →
  cmds (redisService (handleMessage_loop clock redis_ok client messageType content sender
                        roomID receiver n i h))
  = cmds (redisService h) + n.
Proof.
  induction n as [|n IH]; intros i h Hup; [cbn; lia|].
  rewrite handleMessage_loop_S. unfold generateMessageID, time_Now, StoreMessage.
  cbn [redisService cmds].
  pose proof (Hup 0 (Nat.lt_0_succ n)) as H0. rewrite Nat.add_0_r in H0. rewrite H0.
  rewrite IH.
  - rewrite broadcastMessage_emit_all. cbn. lia.
  - intros j Hj. rewrite broadcastMessage_emit_all. cbn.
    specialize (Hup (S j) ltac:(lia)). by replace (S (cmds (redisService h) + j))
      with (cmds (redisService h) + S j) by lia.
Qed.

Lemma append_suffix_ne (s t : string) : t ≠ "" → s +:+ t ≠ s.
Proof.
  intros Ht H. apply Ht. apply (inj (String.append s)).
  rewrite H. clear. induction s as [|c s IH]; [done|].
  change (String c s +:+ "") with (String c (s +:+ "")). by rewrite <- IH.
Qed.

(** X25: [handleMessage] stores a message before it appends the number of
    the turn to its content.  So for each of the ten messages a valid
    ["message"] broadcasts (Redis being up), the message route answers, under
    the id that was broadcast, with a message whose content is the one the
    client sent, which is not the content that was broadcast. *)
Theorem api_message_serves_unnumbered_content (clock : nat → Z) (redis_ok : nat → bool)
    (client : string) (args : list any) (data : gmap string value)
    (h : SocketIOHandler) :
  first_map args = IsMap data →
  str_field data "content" ≠ "" →
  str_field data "sender" ≠ "" →
  (∀ j, j ≤ 10 → redis_ok (cmds (redisService h) + j) = true) →
  let h' := handleMessage clock redis_ok client args h in
  ∃ ms, length ms = 10
    ∧ emitted_since h h' = flat_map (broadcast_of h) ms
    ∧ ∀ m, m ∈ ms →
        ∃ stored,
          (api_message redis_ok (ID m) (redisService h')).1 = ApiMessage (Some stored)
          ∧ Content stored = str_field data "content"
          ∧ Content m ≠ Content stored.
Proof.
  intros Hargs Hc Hs Hup h'. subst h'. unfold handleMessage. rewrite Hargs.
  rewrite !bool_decide_eq_false_2 by done. cbn [orb].
  set (ms := loop_messages clock (str_field data "type") (str_field data "content")
               (str_field data "sender") (str_field data "roomId")
               (str_field data "receiver") 10 0 (ticks h)).
  exists ms. split; [apply loop_messages_length|]. split.
  { unfold emitted_since. rewrite handleMessage_loop_stored by (intros; apply Hup; lia).
    by rewrite drop_app_length. }
  intros m Hm.
  destruct (handleMessage_loop_holds clock redis_ok client (str_field data "type")
              (str_field data "content") (str_field data "sender")
              (str_field data "roomId") (str_field data "receiver") 10 0 h m)
    as (stored & Hkv & Hcontent & _); [intros; apply Hup; lia|done|].
  exists stored. unfold api_message, GetMessage.
  assert (cmds (redisService
            (handleMessage_loop clock redis_ok client (str_field data "type")
               (str_field data "content") (str_field data "sender")
               (str_field data "roomId") (str_field data "receiver") 10 0 h))
          = cmds (redisService h) + 10) as Hcmds.
  { apply handleMessage_loop_cmds. intros; apply Hup; lia. }
  rewrite Hcmds, Hup by lia. rewrite Hkv. cbn. split; [done|]. split; [done|].
  apply list_elem_of_lookup in Hm as [k Hk].
  rewrite (loop_messages_content _ _ _ _ _ _ _ _ _ _ _ Hk), Hcontent.
  apply append_suffix_ne. done.
Qed.

Lemma api_message_serves_unnumbered_content_witness :
  ∃ ms, length ms = 10
    ∧ ∀ m, m ∈ ms →
        ∃ stored,
          (api_message Fixtures.redis_up (ID m)
             (redisService
                (handleMessage Fixtures.wall Fixtures.redis_up "s1"
                   (Fixtures.message_args "hi" "alice" "general" "")
                   (Fixtures.alice_in_general Fixtures.redis_up)))).1
            = ApiMessage (Some stored)
          ∧ Content stored = "hi"
          ∧ Content m ≠ Content stored.
Proof.
  destruct (api_message_serves_unnumbered_content Fixtures.wall Fixtures.redis_up "s1"
              (Fixtures.message_args "hi" "alice" "general" "")
              (<["type" := VString "text"]>
                (<["content" := VString "hi"]>
                  (<["sender" := VString "alice"]>
                    (<["roomId" := VString "general"]>
                      (<["receiver" := VString ""]> ∅)))))
              (Fixtures.alice_in_general Fixtures.redis_up))
    as (ms & Hlen & _ & Hserved).
  - reflexivity.
  - by vm_compute.
  - by vm_compute.
  - reflexivity.
  - exists ms. split; [exact Hlen|exact Hserved].
Defined.
